(** * Rate limiting and abuse protection: a shallow embedding

    The development follows [app/services/rate_limiter.py] and the part of
    [app/services/cache_service.py] it calls.  Python values are modelled as
    the code uses them: integers as [Z]; a finite float as the rational it
    denotes, with every float operation rounded to the nearest IEEE 754
    binary64 number (ties to even) and an infinite result kept apart;
    strings as [string] whose characters are the code points below 256;
    dictionaries with a fixed literal shape as association lists in
    insertion order; the Redis key space as a [gmap] from keys to entries
    carrying an absolute expiry time, with counters in the signed 64-bit
    range of the server.  Exceptions are explicit: a computation returns
    [Ok] or [Raise], and every [try]/[except] of the source is a
    [try_except].

    A call is evaluated at one reading [now] of the clock, in whole seconds
    of Unix time (every reading the limiter uses goes through [int()]), and
    lifetimes are added to it exactly. *)

From Stdlib Require Import ZArith QArith Qround Qabs Qpower String Ascii List Bool Lia Lqa.
From stdpp Require Import base option gmap strings pretty.

#[local] Open Scope string_scope.
#[local] Open Scope Z_scope.

(** ** Python values and exceptions *)

Module Py.

Inductive exn : Type :=
| KeyError
| TypeError
| ZeroDivisionError
| OverflowError
| RuntimeError
| RedisError.

Inductive res (A : Type) : Type :=
| Ok (a : A)
| Raise (e : exn).
Arguments Ok {A} a.
Arguments Raise {A} e.

Definition is_ok {A} (r : res A) : bool :=
  match r with Ok _ => true | Raise _ => false end.

(** [try: body except Exception: handler] on a pure computation. *)
Definition try_except {A} (body : res A) (handler : exn -> res A) : res A :=
  match body with
  | Ok a => Ok a
  | Raise e => handler e
  end.

Definition bind {A B} (m : res A) (k : A -> res B) : res B :=
  match m with
  | Ok a => k a
  | Raise e => Raise e
  end.

(** Atoms stored in the flat dictionaries the limiter builds. *)
Inductive atom : Type :=
| AInt (n : Z)
| AStr (s : string).

(** A dictionary literal, in insertion order. *)
Definition dict : Type := list (string * atom).

Fixpoint dict_get {V} (d : list (string * V)) (k : string) : option V :=
  match d with
  | [] => None
  | (k', v) :: d' => if String.eqb k' k then Some v else dict_get d' k
  end.

(** [d[k]]: raises [KeyError] on a missing key. *)
Definition dict_index {V} (d : list (string * V)) (k : string) : res V :=
  match dict_get d k with
  | Some v => Ok v
  | None => Raise KeyError
  end.

(** [d.get(k, default)]. *)
Definition dict_get_default {V} (d : list (string * V)) (k : string) (dflt : V) : V :=
  match dict_get d k with
  | Some v => v
  | None => dflt
  end.

(** A float: a finite binary64 number, given by its value, or an infinity
    (the sign of an infinity plays no part below, and no operation here
    produces a NaN). *)
Inductive float : Type :=
| Finite (x : Q)
| Infinity.

(** The integer nearest to [x], the even one of the two when [x] is half
    way between them. *)
Definition round_half_even (x : Q) : Z :=
  let f := Qfloor x in
  match (x - inject_Z f ?= 1 # 2)%Q with
  | Lt => f
  | Gt => f + 1
  | Eq => if Z.even f then f else f + 1
  end.

(** The integer part of the binary logarithm of a positive rational. *)
Definition ilog2 (x : Q) : Z :=
  if Qle_bool 1 x then Z.log2 (Qfloor x) else - Z.log2_up (Qceiling (/ x)).

(** The exponent of the unit in the last place of the floats around [x]:
    53 significant bits, and no unit below [2 ^ -1074]. *)
Definition ulp_exponent (x : Q) : Z := Z.max (-1074) (ilog2 (Qabs x) - 52).

(** The multiple of that unit nearest to [x], ties to even. *)
Definition nearest (x : Q) : Q :=
  let e := ulp_exponent x in
  (inject_Z (round_half_even (x / 2 ^ e)) * 2 ^ e)%Q.

(** Rounding to binary64: round to nearest with ties to even, and an
    infinity once the rounded magnitude reaches [2 ^ 1024]. *)
Definition round_float (x : Q) : float :=
  if Qeq_bool x 0 then Finite 0
  else
    let y := nearest x in
    if Qle_bool (2 ^ 1024) (Qabs y) then Infinity else Finite y.

(** [float(n)] for an integer: correctly rounded, [OverflowError] when the
    integer is too large for a float. *)
Definition float_of_int (n : Z) : res Q :=
  match round_float (inject_Z n) with
  | Finite x => Ok x
  | Infinity => Raise OverflowError
  end.

(** [x * y] on finite floats: the product, rounded; it overflows to an
    infinity without raising. *)
Definition float_mul (x y : Q) : float := round_float (x * y).

(** [n * y] for an integer [n] and a float [y]: the integer is converted
    first. *)
Definition int_mul_float (n : Z) (y : Q) : res float :=
  bind (float_of_int n) (fun x => Ok (float_mul x y)).

(** Truncation toward zero. *)
Definition truncate (q : Q) : Z := if Qle_bool 0 q then Qfloor q else Qceiling q.

(** [int(x)] on a float: truncation, [OverflowError] on an infinity. *)
Definition int_of_float (x : float) : res Z :=
  match x with
  | Finite q => Ok (truncate q)
  | Infinity => Raise OverflowError
  end.

(** [int(a / b)] on integers [a], [b]: true division, then truncation. *)
Definition int_div (a b : Z) : res Z :=
  if Z.eqb b 0 then Raise ZeroDivisionError else Ok (Z.quot a b).

(** [str(n)] for an integer. *)
Definition str_of_int (n : Z) : string := pretty n.

(** [s.split(sep)] for a one-character separator: never empty. *)
Fixpoint split_acc (sep : ascii) (cur : string) (s : string) : list string :=
  match s with
  | EmptyString => [cur]
  | String c s' =>
      if Ascii.eqb c sep then cur :: split_acc sep "" s'
      else split_acc sep (cur +:+ String c "") s'
  end.

Definition split (sep : ascii) (s : string) : list string := split_acc sep "" s.

(** [l[0]] and [l[-1]] on the result of a split. *)
Definition first_or {A} (d : A) (l : list A) : A := hd d l.
Definition last_or {A} (d : A) (l : list A) : A := List.last l d.

(** [sep in s]. *)
Fixpoint contains (sep : ascii) (s : string) : bool :=
  match s with
  | EmptyString => false
  | String c s' => Ascii.eqb c sep || contains sep s'
  end.

(** The characters [str.strip()] removes, among the code points below 256. *)
Definition is_space (c : ascii) : bool :=
  let n := N_of_ascii c in
  ((9 <=? n) && (n <=? 13) || (28 <=? n) && (n <=? 32)
   || (n =? 133) || (n =? 160))%N.

Fixpoint lstrip (s : string) : string :=
  match s with
  | EmptyString => EmptyString
  | String c s' => if is_space c then lstrip s' else s
  end.

Fixpoint rstrip (s : string) : string :=
  match s with
  | EmptyString => EmptyString
  | String c s' =>
      match rstrip s' with
      | EmptyString => if is_space c then EmptyString else String c EmptyString
      | r => String c r
      end
  end.

Definition strip (s : string) : string := rstrip (lstrip s).

(** Truthiness of an optional string ([None] and [''] are falsy). *)
Definition truthy (o : option string) : option string :=
  match o with
  | Some EmptyString => None
  | _ => o
  end.

End Py.

Import Py.

(** ** The Redis server, as the cache service's client sees it

    Keys map to entries; an entry whose expiry time has been reached does not
    exist any more.  Counters are the integer-valued strings [INCRBY] works
    on; everything [CacheService.set] writes is a serialized payload, on
    which [INCRBY] answers with an error.  [INCRBY] works in signed 64-bit
    integers: it answers with an error, and changes nothing, when the
    amount, the stored value or their sum is outside that range.
    [fail_after] is the number of round trips the connection still serves
    before it starts raising ([None]: a connection that stays up). *)

Module Redis.

Inductive value : Type :=
| RInt (n : Z)
| RBlob (payload : dict).

Record entry : Type := Entry { e_val : value; e_exp : option Z }.

Abbreviation keyspace := (gmap string entry).

Record client : Type := Client { db : keyspace; fail_after : option nat }.

Definition live (now : Z) (e : entry) : bool :=
  match e_exp e with
  | None => true
  | Some t => now <? t
  end.

Definition lookup (now : Z) (m : keyspace) (k : string) : option entry :=
  match m !! k with
  | Some e => if live now e then Some e else None
  | None => None
  end.

Definition round_trip (c : client) : res client :=
  match fail_after c with
  | None => Ok c
  | Some O => Raise RedisError
  | Some (S n) => Ok (Client (db c) (Some n))
  end.

Inductive command : Type :=
| INCRBY (k : string) (amount : Z)
| EXPIRE (k : string) (ttl : Z).

(** The range of the integers of the server. *)
Definition int64_min : Z := -9223372036854775808.
Definition int64_max : Z := 9223372036854775807.

Definition is_int64 (n : Z) : bool := (int64_min <=? n) && (n <=? int64_max).

Definition apply_command (now : Z) (m : keyspace) (cmd : command) : keyspace * res Z :=
  match cmd with
  | INCRBY k amount =>
      if negb (is_int64 amount) then (m, Raise RedisError)
      else
        match lookup now m k with
        | None => (<[k := Entry (RInt amount) None]> m, Ok amount)
        | Some (Entry (RInt v) exp) =>
            if is_int64 v && is_int64 (v + amount)
            then (<[k := Entry (RInt (v + amount)) exp]> m, Ok (v + amount))
            else (m, Raise RedisError)
        | Some (Entry (RBlob _) _) => (m, Raise RedisError)
        end
  | EXPIRE k ttl =>
      match lookup now m k with
      | None => (m, Ok 0)
      | Some e =>
          if ttl <=? 0 then (delete k m, Ok 1)
          else (<[k := Entry (e_val e) (Some (now + ttl))]> m, Ok 1)
      end
  end.

Fixpoint run_commands (now : Z) (m : keyspace) (cmds : list command)
  : keyspace * list (res Z) :=
  match cmds with
  | [] => (m, [])
  | cmd :: rest =>
      let '(m1, r) := apply_command now m cmd in
      let '(m2, rs) := run_commands now m1 rest in
      (m2, r :: rs)
  end.

(** The replies of a transaction, or its first error. *)
Fixpoint collect (rs : list (res Z)) : res (list Z) :=
  match rs with
  | [] => Ok []
  | Ok n :: rest => bind (collect rest) (fun ns => Ok (n :: ns))
  | Raise e :: _ => Raise e
  end.

(** [pipeline.execute()]: the queued commands run as one transaction in one
    round trip; every command runs, and the first error reply is raised. *)
Definition execute (now : Z) (c : client) (cmds : list command)
  : client * res (list Z) :=
  match round_trip c with
  | Raise e => (c, Raise e)
  | Ok c1 =>
      let '(m, rs) := run_commands now (db c1) cmds in
      (Client m (fail_after c1), collect rs)
  end.

(** [EXISTS key]. *)
Definition exists_ (now : Z) (c : client) (k : string) : client * res Z :=
  match round_trip c with
  | Raise e => (c, Raise e)
  | Ok c1 => (c1, Ok (match lookup now (db c1) k with Some _ => 1 | None => 0 end))
  end.

(** [SETEX key ttl value]: a non-positive [ttl] is an error. *)
Definition setex (now : Z) (c : client) (k : string) (ttl : Z) (v : value)
  : client * res unit :=
  match round_trip c with
  | Raise e => (c, Raise e)
  | Ok c1 =>
      if ttl <=? 0 then (c1, Raise RedisError)
      else (Client (<[k := Entry v (Some (now + ttl))]> (db c1)) (fail_after c1), Ok tt)
  end.

(** [GET key]. *)
Definition get (now : Z) (c : client) (k : string) : client * res (option value) :=
  match round_trip c with
  | Raise e => (c, Raise e)
  | Ok c1 => (c1, Ok (e_val <$> lookup now (db c1) k))
  end.

(** [DEL key ...]: removes the keys that exist and answers how many. *)
Fixpoint delete_keys (now : Z) (m : keyspace) (ks : list string) : keyspace * Z :=
  match ks with
  | [] => (m, 0)
  | k :: rest =>
      match lookup now m k with
      | Some _ =>
          let '(m1, n) := delete_keys now (delete k m) rest in (m1, 1 + n)
      | None => delete_keys now m rest
      end
  end.

Definition del (now : Z) (c : client) (ks : list string) : client * res Z :=
  match round_trip c with
  | Raise e => (c, Raise e)
  | Ok c1 =>
      let '(m, n) := delete_keys now (db c1) ks in
      (Client m (fail_after c1), Ok n)
  end.

(** [EXPIRE key ttl], sent as a command of its own. *)
Definition expire (now : Z) (c : client) (k : string) (ttl : Z) : client * res Z :=
  match round_trip c with
  | Raise e => (c, Raise e)
  | Ok c1 =>
      let '(m, r) := apply_command now (db c1) (EXPIRE k ttl) in
      (Client m (fail_after c1), r)
  end.

(** [KEYS pattern]: the keys that exist and match.  The glob matcher of the
    server is a parameter, [glob pattern key]. *)
Definition keys (glob : string -> string -> bool) (now : Z) (c : client)
    (pattern : string) : client * res (list string) :=
  match round_trip c with
  | Raise e => (c, Raise e)
  | Ok c1 =>
      (c1,
       Ok (List.filter
             (fun k => match lookup now (db c1) k with
                       | Some _ => glob pattern k
                       | None => false
                       end)
             (map fst (map_to_list (db c1)))))
  end.

End Redis.

(** ** [CacheService] (app/services/cache_service.py) *)

Module CacheService.

Import Redis.

Record t : Type := Make {
  redis_client : option client;
  default_ttl : Z;
  key_prefix : string
}.

Definition with_client (self : t) (c : client) : t :=
  Make (Some c) (default_ttl self) (key_prefix self).

Definition is_available (self : t) : bool :=
  match redis_client self with Some _ => true | None => false end.

Definition _make_key (self : t) (key : string) : string :=
  key_prefix self +:+ key.

(** [ttl or self.default_ttl]. *)
Definition ttl_or_default (self : t) (ttl : option Z) : Z :=
  match ttl with
  | Some n => if n =? 0 then default_ttl self else n
  | None => default_ttl self
  end.

(** [set(key, value, ttl)] for a dictionary value (serialized as JSON). *)
Definition set (self : t) (now : Z) (key : string) (value : dict) (ttl : option Z)
  : t * bool :=
  match redis_client self with
  | None => (self, false)
  | Some c =>
      let cache_key := _make_key self key in
      let ttl := ttl_or_default self ttl in
      let '(c1, r) := setex now c cache_key ttl (RBlob value) in
      (with_client self c1, is_ok r)
  end.

Definition exists_ (self : t) (now : Z) (key : string) : t * bool :=
  match redis_client self with
  | None => (self, false)
  | Some c =>
      let cache_key := _make_key self key in
      let '(c1, r) := Redis.exists_ now c cache_key in
      (with_client self c1,
       match r with Ok n => negb (n =? 0) | Raise _ => false end)
  end.

(** Truthiness of [ttl] in [if ttl and ...]. *)
Definition ttl_truthy (ttl : option Z) : option Z :=
  match ttl with
  | Some n => if n =? 0 then None else Some n
  | None => None
  end.

(** The body of the [try] block of [increment]: the pipeline queues
    [INCRBY]; the existence test is sent at once, before the pipeline runs,
    and decides whether [EXPIRE] is queued too. *)
Definition increment_try (now : Z) (c : client) (cache_key : string)
    (amount : Z) (ttl : option Z) : client * res Z :=
  let pipe := [INCRBY cache_key amount] in
  match ttl_truthy ttl with
  | Some n =>
      match Redis.exists_ now c cache_key with
      | (c1, Raise e) => (c1, Raise e)
      | (c1, Ok ex) =>
          let pipe := if ex =? 0 then (pipe ++ [EXPIRE cache_key n])%list else pipe in
          let '(c2, r) := execute now c1 pipe in
          (c2, bind r (fun result => Ok (hd 0 result)))
      end
  | None =>
      let '(c2, r) := execute now c pipe in
      (c2, bind r (fun result => Ok (hd 0 result)))
  end.

Definition increment (self : t) (now : Z) (key : string) (amount : Z)
    (ttl : option Z) : t * option Z :=
  match redis_client self with
  | None => (self, None)
  | Some c =>
      let cache_key := _make_key self key in
      let '(c1, r) := increment_try now c cache_key amount ttl in
      (with_client self c1,
       match r with Ok n => Some n | Raise _ => None end)
  end.

(** What [get] hands back: [json.loads] of a counter is an integer, of a
    dictionary written by [set] the dictionary. *)
Inductive cached : Type :=
| CInt (n : Z)
| CDict (d : dict).

Definition get (self : t) (now : Z) (key : string) : t * option cached :=
  match redis_client self with
  | None => (self, None)
  | Some c =>
      let cache_key := _make_key self key in
      let '(c1, r) := Redis.get now c cache_key in
      (with_client self c1,
       match r with
       | Ok (Some (RInt n)) => Some (CInt n)
       | Ok (Some (RBlob d)) => Some (CDict d)
       | Ok None => None
       | Raise _ => None
       end)
  end.

Definition delete (self : t) (now : Z) (key : string) : t * bool :=
  match redis_client self with
  | None => (self, false)
  | Some c =>
      let cache_key := _make_key self key in
      let '(c1, r) := Redis.del now c [cache_key] in
      (with_client self c1, is_ok r)
  end.

Definition expire (self : t) (now : Z) (key : string) (ttl : Z) : t * bool :=
  match redis_client self with
  | None => (self, false)
  | Some c =>
      let cache_key := _make_key self key in
      let '(c1, r) := Redis.expire now c cache_key ttl in
      (with_client self c1, is_ok r)
  end.

(** The body of the [try] block of [flush_pattern]: [KEYS], then one [DEL]
    of all the keys found, if there are any. *)
Definition flush_pattern_try (glob : string -> string -> bool) (now : Z)
    (c : client) (cache_pattern : string) : client * res Z :=
  match Redis.keys glob now c cache_pattern with
  | (c1, Raise e) => (c1, Raise e)
  | (c1, Ok []) => (c1, Ok 0)
  | (c1, Ok ks) => Redis.del now c1 ks
  end.

Definition flush_pattern (glob : string -> string -> bool) (self : t) (now : Z)
    (pattern : string) : t * Z :=
  match redis_client self with
  | None => (self, 0)
  | Some c =>
      let cache_pattern := _make_key self pattern in
      let '(c1, r) := flush_pattern_try glob now c cache_pattern in
      (with_client self c1, match r with Ok n => n | Raise _ => 0 end)
  end.

End CacheService.

(** ** The request context (Flask request and decoded JWT) *)

Module Flask.

(** The claims of a decoded token the limiter reads: the identity, and the
    additional claims ['type'] and ['role'] (absent when [None]). *)
Record jwt_claims : Type := Claims {
  identity : option string;
  claim_type : option string;
  claim_role : option string
}.

(** [jwt = None]: no token was decoded for this request, so [get_jwt()]
    and [get_jwt_identity()] raise. *)
Record request : Type := Request {
  jwt : option jwt_claims;
  x_forwarded_for : option string;
  x_real_ip : option string;
  remote_addr : option string
}.

Definition get_jwt (req : request) : res jwt_claims :=
  match jwt req with
  | Some claims => Ok claims
  | None => Raise RuntimeError
  end.

Definition get_jwt_identity (req : request) : res (option string) :=
  bind (get_jwt req) (fun claims => Ok (identity claims)).

(** What the enforcement wrapper returns: a rejection built by
    [create_error_response] (message, status, headers), or the wrapped
    handler's run with [g.rate_limit_info] set. *)
Inductive response : Type :=
| Rejected (message : string) (status_code : Z) (headers : list (string * string))
| Proceed (rate_limit_info : dict).

End Flask.

(** ** [RateLimiter] (app/services/rate_limiter.py) *)

Module RateLimiter.

Import Flask.

Record limit_config : Type := LimitConfig { requests : Z; window : Z }.

Definition default_limits : list (string * limit_config) :=
  [ ("auth", LimitConfig 5 300);
    ("api", LimitConfig 100 60);
    ("upload", LimitConfig 10 300);
    ("emergency", LimitConfig 3 60);
    ("admin", LimitConfig 200 60) ].

Definition user_role_multipliers : list (string * Q) :=
  [ ("admin", 3%Q);
    ("hospital_admin", 2%Q);
    ("doctor", 2%Q);
    ("user", 1%Q);
    ("guest", (1 # 2)%Q) ].

Definition _get_client_ip (req : request) : string :=
  match truthy (x_forwarded_for req) with
  | Some xff => strip (first_or "" (split "," xff))
  | None =>
      match truthy (x_real_ip req) with
      | Some ip => ip
      | None =>
          match truthy (remote_addr req) with
          | Some ip => ip
          | None => "unknown"
          end
      end
  end.

Definition _get_client_identifier (req : request) : string :=
  let from_token :=
    try_except
      (bind (get_jwt_identity req) (fun user_id =>
         match truthy user_id with
         | Some uid =>
             bind (get_jwt req) (fun claims =>
               let user_type := default "user" (claim_type claims) in
               Ok (Some ("user:" +:+ user_type +:+ ":" +:+ uid)))
         | None => Ok None
         end))
      (fun _ => Ok None) in
  match from_token with
  | Ok (Some identifier) => identifier
  | _ => "ip:" +:+ _get_client_ip req
  end.

Definition _get_rate_limit_key (now : Z) (identifier limit_type : string) : res string :=
  bind (dict_index default_limits limit_type) (fun cfg =>
  bind (int_div now (window cfg)) (fun window_start =>
  Ok ("rate_limit:" +:+ limit_type +:+ ":" +:+ identifier +:+ ":"
      +:+ str_of_int window_start))).

Definition _get_user_role_multiplier (req : request) : Q :=
  match get_jwt req with
  | Ok claims =>
      let user_role := default "user" (claim_role claims) in
      dict_get_default user_role_multipliers user_role 1%Q
  | Raise _ => (1 # 2)%Q
  end.

(** [int(limit_config['requests'] * multiplier)]. *)
Definition adjusted_limit_of (cfg : limit_config) (multiplier : Q) : res Z :=
  bind (int_mul_float (requests cfg) multiplier) int_of_float.

(** An operand of [<=] that is [None] raises [TypeError]. *)
Definition int_operand (v : option Z) : res Z :=
  match v with
  | Some n => Ok n
  | None => Raise TypeError
  end.

(** [custom_limit] if it is given, else
    [self.default_limits.get(limit_type, self.default_limits['api'])]. *)
Definition limit_config_for (limit_type : string)
    (custom_limit : option limit_config) : limit_config :=
  match custom_limit with
  | Some cfg => cfg
  | None => dict_get_default default_limits limit_type (LimitConfig 100 60)
  end.

(** The body of the [try] block of [check_rate_limit]. *)
Definition check_rate_limit_try (cache : CacheService.t) (req : request) (now : Z)
    (limit_type : string) (custom_limit : option limit_config)
  : CacheService.t * res (bool * dict) :=
  let identifier := _get_client_identifier req in
  let limit_config := limit_config_for limit_type custom_limit in
  let multiplier := _get_user_role_multiplier req in
  match adjusted_limit_of limit_config multiplier with
  | Raise e => (cache, Raise e)
  | Ok adjusted_limit =>
      let window := window limit_config in
      match _get_rate_limit_key now identifier limit_type with
      | Raise e => (cache, Raise e)
      | Ok key =>
          let '(cache1, current_count) :=
            CacheService.increment cache now key 1 (Some window) in
          (cache1,
           bind (int_operand current_count) (fun current_count =>
           let is_allowed := current_count <=? adjusted_limit in
           bind (int_div now window) (fun q =>
           let window_start := q * window in
           let reset_time := window_start + window in
           let limit_info :=
             [ ("limit", AInt adjusted_limit);
               ("remaining", AInt (Z.max 0 (adjusted_limit - current_count)));
               ("reset_time", AInt reset_time);
               ("retry_after", AInt (if negb is_allowed then reset_time - now else 0));
               ("window", AInt window);
               ("identifier", AStr (first_or "" (split ":" identifier))) ] in
           Ok (is_allowed, limit_info))))
      end
  end.

Definition check_rate_limit (cache : CacheService.t) (req : request) (now : Z)
    (limit_type : string) (custom_limit : option limit_config)
  : CacheService.t * res (bool * dict) :=
  if negb (CacheService.is_available cache) then (cache, Ok (true, []))
  else
    let '(cache1, r) := check_rate_limit_try cache req now limit_type custom_limit in
    (cache1, try_except r (fun _ => Ok (true, []))).

(** [ip_address or self._get_client_ip()]. *)
Definition ip_or_client_ip (req : request) (ip_address : option string) : string :=
  match truthy ip_address with
  | Some ip => ip
  | None => _get_client_ip req
  end.

Definition is_ip_blocked (cache : CacheService.t) (req : request) (now : Z)
    (ip_address : option string) : CacheService.t * bool :=
  if negb (CacheService.is_available cache) then (cache, false)
  else
    let ip := ip_or_client_ip req ip_address in
    CacheService.exists_ cache now ("blocked_ip:" +:+ ip).

(** [blocked_at] holds the clock reading (the source renders it with
    [isoformat()]). *)
Definition block_ip (cache : CacheService.t) (now : Z) (ip_address : string)
    (duration : Z) (reason : string) : CacheService.t * bool :=
  if negb (CacheService.is_available cache) then (cache, false)
  else
    let key := "blocked_ip:" +:+ ip_address in
    let block_info :=
      [ ("blocked_at", AInt now);
        ("reason", AStr reason);
        ("duration", AInt duration) ] in
    let '(cache1, _) := CacheService.set cache now key block_info (Some duration) in
    (cache1, true).

(** The argument [check_brute_force_protection] hands to [block_ip]. *)
Definition block_target (identifier : string) : string :=
  if contains ":" identifier then last_or "" (split ":" identifier)
  else identifier.

Definition check_brute_force_protection (cache : CacheService.t) (now : Z)
    (identifier : string) (max_attempts window : Z)
  : CacheService.t * (bool * Z) :=
  if negb (CacheService.is_available cache) then (cache, (false, 0))
  else
    let key := "brute_force:" +:+ identifier in
    let '(cache1, r) := CacheService.increment cache now key 1 (Some window) in
    let attempts := default 0 r in
    if attempts >? max_attempts then
      let '(cache2, _) :=
        block_ip cache1 now (block_target identifier) window "Brute force protection" in
      (cache2, (true, attempts))
    else (cache1, (false, attempts)).

Definition track_failed_login (cache : CacheService.t) (req : request) (now : Z)
    (username : string) (ip_address : option string) : CacheService.t * bool :=
  if negb (CacheService.is_available cache) then (cache, false)
  else
    let ip := ip_or_client_ip req ip_address in
    let '(cache1, (is_ip_blocked, ip_attempts)) :=
      check_brute_force_protection cache now ip 10 900 in
    let '(cache2, (is_user_blocked, user_attempts)) :=
      check_brute_force_protection cache1 now ("user:" +:+ username) 5 1800 in
    let '(cache3, (is_combo_blocked, combo_attempts)) :=
      check_brute_force_protection cache2 now
        ("combo:" +:+ ip +:+ ":" +:+ username) 3 600 in
    (cache3, is_ip_blocked || is_user_blocked || is_combo_blocked).

(** [str(limit_info.get(name, dflt))]. *)
Definition header_of (limit_info : dict) (name : string) (dflt : Z) : string :=
  match dict_get limit_info name with
  | Some (AInt n) => str_of_int n
  | Some (AStr s) => s
  | None => str_of_int dflt
  end.

(** The wrapper the [rate_limit] decorator puts around an endpoint. *)
Definition rate_limit (cache : CacheService.t) (req : request) (now : Z)
    (limit_type : string) (custom_limit : option limit_config)
  : CacheService.t * res response :=
  let '(cache1, blocked) := is_ip_blocked cache req now None in
  if blocked then
    (cache1,
     Ok (Rejected
           "Your IP address has been temporarily blocked due to suspicious activity"
           429 []))
  else
    let '(cache2, r) := check_rate_limit cache1 req now limit_type custom_limit in
    (cache2,
     bind r (fun '(is_allowed, limit_info) =>
       if negb is_allowed then
         Ok (Rejected "Rate limit exceeded. Please try again later." 429
               [ ("X-RateLimit-Limit", header_of limit_info "limit" 0);
                 ("X-RateLimit-Remaining", header_of limit_info "remaining" 0);
                 ("X-RateLimit-Reset", header_of limit_info "reset_time" 0);
                 ("Retry-After", header_of limit_info "retry_after" 60) ])
       else Ok (Proceed limit_info))).

(** The answer of [get_rate_limit_stats]: [{'available': False}],
    [{'available': False, 'error': ...}], or the identifier kind with the
    per-category entries. *)
Inductive stats : Type :=
| StatsUnavailable
| StatsFailed (error : exn)
| Stats (identifier : string) (limits : list (string * dict)).

(** [cache_service.get(key) or 0]: [None], [0] and [{}] are falsy. *)
Definition or_zero (v : option CacheService.cached) : CacheService.cached :=
  match v with
  | None => CacheService.CInt 0
  | Some (CacheService.CInt n) => CacheService.CInt n
  | Some (CacheService.CDict []) => CacheService.CInt 0
  | Some (CacheService.CDict d) => CacheService.CDict d
  end.

(** One turn of the loop of [get_rate_limit_stats]: the entry of
    [limit_type].  A count that is a dictionary makes the subtraction raise. *)
Definition stats_entry (cache : CacheService.t) (req : request) (now : Z)
    (identifier limit_type : string) : CacheService.t * res dict :=
  match _get_rate_limit_key now identifier limit_type with
  | Raise e => (cache, Raise e)
  | Ok key =>
      let '(cache1, v) := CacheService.get cache now key in
      let current_count := or_zero v in
      (cache1,
       bind (dict_index default_limits limit_type) (fun limit_config =>
       let multiplier := _get_user_role_multiplier req in
       bind (adjusted_limit_of limit_config multiplier) (fun adjusted_limit =>
       match current_count with
       | CacheService.CInt n =>
           Ok [ ("current_count", AInt n);
                ("limit", AInt adjusted_limit);
                ("remaining", AInt (Z.max 0 (adjusted_limit - n)));
                ("window", AInt (window limit_config)) ]
       | CacheService.CDict _ => Raise TypeError
       end)))
  end.

(** The loop over [self.default_limits.keys()], in the order of the table. *)
Fixpoint stats_loop (cache : CacheService.t) (req : request) (now : Z)
    (identifier : string) (limit_types : list string)
  : CacheService.t * res (list (string * dict)) :=
  match limit_types with
  | [] => (cache, Ok [])
  | limit_type :: rest =>
      match stats_entry cache req now identifier limit_type with
      | (cache1, Raise e) => (cache1, Raise e)
      | (cache1, Ok entry) =>
          let '(cache2, r) := stats_loop cache1 req now identifier rest in
          (cache2, bind r (fun entries => Ok ((limit_type, entry) :: entries)))
      end
  end.

Definition get_rate_limit_stats (cache : CacheService.t) (req : request) (now : Z)
    (identifier : option string) : CacheService.t * stats :=
  if negb (CacheService.is_available cache) then (cache, StatsUnavailable)
  else
    let identifier :=
      match truthy identifier with
      | Some i => i
      | None => _get_client_identifier req
      end in
    let '(cache1, r) :=
      stats_loop cache req now identifier (map fst default_limits) in
    (cache1,
     match r with
     | Ok limits => Stats (first_or "" (split ":" identifier)) limits
     | Raise e => StatsFailed e
     end).

(** The loop of [reset_rate_limits] over the categories. *)
Fixpoint reset_loop (glob : string -> string -> bool) (cache : CacheService.t)
    (now : Z) (identifier : string) (limit_types : list string) : CacheService.t :=
  match limit_types with
  | [] => cache
  | limit_type :: rest =>
      let pattern := "rate_limit:" +:+ limit_type +:+ ":" +:+ identifier +:+ ":*" in
      let '(cache1, _) := CacheService.flush_pattern glob cache now pattern in
      reset_loop glob cache1 now identifier rest
  end.

Definition reset_rate_limits (glob : string -> string -> bool)
    (cache : CacheService.t) (req : request) (now : Z) (identifier : option string)
  : CacheService.t * bool :=
  if negb (CacheService.is_available cache) then (cache, false)
  else
    let identifier :=
      match truthy identifier with
      | Some i => i
      | None => _get_client_identifier req
      end in
    let cache1 := reset_loop glob cache now identifier (map fst default_limits) in
    if contains ":" identifier then
      let ip := last_or "" (split ":" identifier) in
      let '(cache2, _) := CacheService.delete cache1 now ("blocked_ip:" +:+ ip) in
      (cache2, true)
    else (cache1, true).



End RateLimiter.

(** ** [RateLimitConfig] (app/services/rate_limiter.py) *)

Module RateLimitConfig.

Definition set_custom_limit (cache : CacheService.t) (now : Z) (endpoint : string)
    (requests window : Z) (duration : Z) : CacheService.t * bool :=
  if negb (CacheService.is_available cache) then (cache, false)
  else
    let key := "custom_limit:" +:+ endpoint in
    let limit_config := [ ("requests", AInt requests); ("window", AInt window) ] in
    CacheService.set cache now key limit_config (Some duration).


End RateLimitConfig.

(** ** Runs of requests, and the vocabulary of the statements *)

Module Runs.

Import Redis Flask RateLimiter.

(** The same client calls the quota check once at each of [times]. *)
Fixpoint check_rate_limit_run (cache : CacheService.t) (req : request)
    (limit_type : string) (custom_limit : option limit_config) (times : list Z)
  : CacheService.t * list (res (bool * dict)) :=
  match times with
  | [] => (cache, [])
  | now :: rest =>
      let '(cache1, r) := check_rate_limit cache req now limit_type custom_limit in
      let '(cache2, rs) := check_rate_limit_run cache1 req limit_type custom_limit rest in
      (cache2, r :: rs)
  end.

(** One failed login for [username] from [ip] at each of [times]. *)
Fixpoint track_failed_login_run (cache : CacheService.t) (req : request)
    (username : string) (ip_address : option string) (times : list Z)
  : CacheService.t * list bool :=
  match times with
  | [] => (cache, [])
  | now :: rest =>
      let '(cache1, b) := track_failed_login cache req now username ip_address in
      let '(cache2, bs) := track_failed_login_run cache1 req username ip_address rest in
      (cache2, b :: bs)
  end.

(** The keyspace behind a cache service (empty when Redis is not there). *)
Definition keyspace_of (cache : CacheService.t) : keyspace :=
  match CacheService.redis_client cache with
  | Some c => db c
  | None => ∅
  end.

(** The Redis key of the quota counter of window bucket [bucket]. *)
Definition counter_key (cache : CacheService.t) (req : request)
    (limit_type : string) (bucket : Z) : string :=
  CacheService._make_key cache
    ("rate_limit:" +:+ limit_type +:+ ":" +:+ _get_client_identifier req +:+ ":"
     +:+ str_of_int bucket).

(** The Redis keys of a brute-force counter and of a block entry. *)
Definition brute_force_key (cache : CacheService.t) (identifier : string) : string :=
  CacheService._make_key cache ("brute_force:" +:+ identifier).

Definition blocked_key (cache : CacheService.t) (ip : string) : string :=
  CacheService._make_key cache ("blocked_ip:" +:+ ip).

(** What a counter holds at [now]: 0 when the key does not exist, nothing
    when the key holds something that is not a counter. *)
Definition count_of (now : Z) (m : keyspace) (k : string) : option Z :=
  match Redis.lookup now m k with
  | None => Some 0
  | Some (Entry (RInt v) _) => Some v
  | Some (Entry (RBlob _) _) => None
  end.

(** The expiry time of a key that exists at [now]. *)
Definition expiry_of (now : Z) (m : keyspace) (k : string) : option (option Z) :=
  e_exp <$> Redis.lookup now m k.

(** A cache service on a connection that stays up. *)
Definition healthy (cache : CacheService.t) (m : keyspace) : Prop :=
  CacheService.redis_client cache = Some (Client m None).

(** An empty Redis behind the default configuration of the service. *)
Definition fresh_cache : CacheService.t :=
  CacheService.Make (Some (Client ∅ None)) 3600 "hospital_mgmt:".

(** A request from address [ip] whose token context is [claims]. *)
Definition request_from (ip : string) (claims : option jwt_claims) : request :=
  Request claims None None (Some ip).

(** A context in which a token was looked for and none was sent: the
    claims are there and empty. *)
Definition no_identity : jwt_claims := Claims None None None.

(** The store after three failed logins for ["alice"] from 1.1.1.1, at
    times 0, 1 and 2, and after a fourth one at time 3. *)
Definition three_failures : CacheService.t :=
  fst (track_failed_login_run fresh_cache (request_from "1.1.1.1" None) "alice"
         (Some "1.1.1.1") [0; 1; 2]).

Definition four_failures : CacheService.t :=
  fst (track_failed_login three_failures (request_from "1.1.1.1" None) 3 "alice"
         (Some "1.1.1.1")).


(** A matcher that knows a final [*] only: the pattern without it must be
    a prefix of the key.  It stands in for the server's matcher where a
    concrete one is needed. *)
Fixpoint starts_with (p s : string) : bool :=
  match p with
  | EmptyString => true
  | String c p' =>
      match s with
      | String d s' => Ascii.eqb c d && starts_with p' s'
      | EmptyString => false
      end
  end.

Definition star_suffix_match (pattern key : string) : bool :=
  starts_with (String.substring 0 (String.length pattern - 1) pattern) key.

End Runs.

(** ** What the specification says, for comparison with the code *)

Module Spec.

(** Spec 4.3: [effectiveLimit = max(1, floor(requestsPerWindow * multiplier))]. *)
Definition effectiveLimit (requestsPerWindow : Z) (multiplier : Q) : Z :=
  Z.max 1 (Qfloor (inject_Z requestsPerWindow * multiplier)%Q).

(** Spec 4.2: [resolveMultiplier]: the static role table, and [0.5] for an
    unknown or absent role. *)
Definition resolveMultiplier (role : option string) : Q :=
  match role with
  | Some r => dict_get_default RateLimiter.user_role_multipliers r (1 # 2)%Q
  | None => (1 # 2)%Q
  end.

End Spec.

(** * Properties *)

Import Redis Flask RateLimiter Runs.

(** ** The counter store *)

Section Store.

Variable now : Z.

Lemma lookup_live (m : keyspace) k e :
  Redis.lookup now m k = Some e -> m !! k = Some e /\ live now e = true.
Proof.
  unfold Redis.lookup. destruct (m !! k) as [e0|]; [|discriminate].
  destruct (live now e0) eqn:L; [|discriminate]. intros [= <-]. auto.
Qed.

Lemma lookup_insert_live (m : keyspace) k e :
  live now e = true -> Redis.lookup now (<[k := e]> m) k = Some e.
Proof.
  intros L. unfold Redis.lookup. rewrite lookup_insert_eq, L. reflexivity.
Qed.

Lemma lookup_insert_other (m : keyspace) k k' e :
  k <> k' -> Redis.lookup now (<[k := e]> m) k' = Redis.lookup now m k'.
Proof.
  intros N. unfold Redis.lookup. rewrite lookup_insert_ne by exact N. reflexivity.
Qed.

Lemma lookup_absent (m : keyspace) k :
  m !! k = None -> Redis.lookup now m k = None.
Proof. intros H. unfold Redis.lookup. rewrite H. reflexivity. Qed.

Lemma is_int64_spec (n : Z) :
  is_int64 n = true <-> int64_min <= n <= int64_max.
Proof. unfold is_int64. rewrite andb_true_iff, !Z.leb_le. tauto. Qed.

(** Counting on from [v] stays in range while [v] is below the ceiling. *)
Lemma is_int64_succ (v : Z) :
  int64_min <= v < int64_max -> is_int64 v && is_int64 (v + 1) = true.
Proof.
  intros H. apply andb_true_iff. split; apply is_int64_spec; lia.
Qed.


(** On a connection that stays up, a counter that exists is incremented in
    place, as long as the amount, the count and their sum are integers of
    the server. *)
Lemma increment_try_counter m k amount ttl v exp :
  Redis.lookup now m k = Some (Entry (RInt v) exp) ->
  is_int64 amount = true ->
  is_int64 v && is_int64 (v + amount) = true ->
  CacheService.increment_try now (Client m None) k amount ttl
  = (Client (<[k := Entry (RInt (v + amount)) exp]> m) None, Ok (v + amount)).
Proof.
  intros H Ha Hv. unfold CacheService.increment_try, Redis.exists_, execute, round_trip.
  destruct (CacheService.ttl_truthy ttl) as [n|]; cbn -[is_int64 Redis.lookup];
    rewrite ?H; cbn -[is_int64 Redis.lookup]; rewrite Ha; cbn -[is_int64 Redis.lookup];
    rewrite ?H, ?Hv; reflexivity.
Qed.

(** At the ceiling, or on a value that is no integer of the server, the
    increment raises and the store is left as it was. *)
Lemma increment_try_out_of_range m k amount ttl v exp :
  Redis.lookup now m k = Some (Entry (RInt v) exp) ->
  is_int64 v && is_int64 (v + amount) = false ->
  CacheService.increment_try now (Client m None) k amount ttl
  = (Client m None, Raise RedisError).
Proof.
  intros H Hv. unfold CacheService.increment_try, Redis.exists_, execute, round_trip.
  destruct (CacheService.ttl_truthy ttl) as [n|]; cbn -[is_int64 Redis.lookup];
    rewrite ?H; cbn -[is_int64 Redis.lookup];
    destruct (is_int64 amount); cbn -[is_int64 Redis.lookup];
    rewrite ?H, ?Hv; reflexivity.
Qed.

(** On a connection that stays up, a key that does not exist is created
    with the amount as its value and, for a positive [ttl], the expiry
    [now + ttl]. *)
Lemma increment_try_fresh m k amount ttl :
  Redis.lookup now m k = None -> 0 < ttl -> is_int64 amount = true ->
  CacheService.increment_try now (Client m None) k amount (Some ttl)
  = (Client (<[k := Entry (RInt amount) (Some (now + ttl))]> m) None, Ok amount).
Proof.
  intros H Hpos Ha. unfold CacheService.increment_try, Redis.exists_, execute, round_trip.
  unfold CacheService.ttl_truthy.
  destruct (ttl =? 0) eqn:E; [apply Z.eqb_eq in E; lia|].
  cbn -[is_int64 Redis.lookup]. rewrite H. cbn -[is_int64 Redis.lookup].
  rewrite Ha. cbn -[is_int64 Redis.lookup]. rewrite H.
  rewrite lookup_insert_live by reflexivity.
  destruct (ttl <=? 0) eqn:E'; [apply Z.leb_le in E'; lia|].
  cbn. rewrite insert_insert_eq. reflexivity.
Qed.

End Store.




(** ** Float arithmetic *)

Section Floats.

Lemma round_half_even_Z (x : Q) (k : Z) : (x == inject_Z k)%Q -> round_half_even x = k.
Proof.
  intros H. unfold round_half_even.
  rewrite (Qfloor_comp _ _ H), Qfloor_Z.
  assert (E : (x - inject_Z k ?= 1 # 2)%Q = Lt).
  { apply Qlt_alt. rewrite H. unfold Qminus. rewrite Qplus_opp_r. reflexivity. }
  rewrite E. reflexivity.
Qed.

Lemma two_neq_0 : ~ (2 == 0)%Q.
Proof. discriminate. Qed.

Lemma pow2_pos (e : Z) : (0 < 2 ^ e)%Q.
Proof. apply Qpower_0_lt. reflexivity. Qed.

Lemma pow2_inject (n : Z) : 0 <= n -> (2 ^ n == inject_Z (2 ^ n))%Q.
Proof. intros H. rewrite (Zpower_Qpower 2 n H). reflexivity. Qed.

Lemma ilog2_below (x : Q) (b : Z) :
  0 < b -> (0 < x)%Q -> (x < inject_Z (2 ^ b))%Q -> ilog2 x < b.
Proof.
  intros Hb Hpos Hlt. unfold ilog2.
  destruct (Qle_bool 1 x) eqn:E.
  - apply Qle_bool_iff in E.
    assert (H1 : 1 <= Qfloor x).
    { change 1 with (Qfloor 1). apply Qfloor_resp_le. exact E. }
    apply Z.log2_lt_pow2; [lia|].
    rewrite Zlt_Qlt. eapply Qle_lt_trans; [apply Qfloor_le|exact Hlt].
  - pose proof (Z.log2_up_nonneg (Qceiling (/ x))) as H. lia.
Qed.

(** A number of at most 53 significant bits, in units no smaller than
    [2 ^ -52], is a float: rounding returns it. *)
Lemma round_float_exact (x : Q) (k j : Z) :
  0 <= j <= 52 -> Z.abs k < 2 ^ 53 ->
  (x == inject_Z k / 2 ^ j)%Q ->
  exists y, round_float x = Finite y /\ (y == x)%Q.
Proof.
  intros Hj Hk Hx. unfold round_float, nearest, ulp_exponent.
  destruct (Qeq_bool x 0) eqn:E0.
  - apply Qeq_bool_iff in E0. exists 0%Q. split; [reflexivity|]. symmetry. exact E0.
  - apply Qeq_bool_neq in E0.
    assert (Hp : (0 < 2 ^ j)%Q) by apply pow2_pos.
    assert (Habs : (Qabs x == inject_Z (Z.abs k) / 2 ^ j)%Q).
    { rewrite Hx. unfold Qdiv. rewrite Qabs_Qmult, Qabs_Qinv.
      rewrite (Qabs_pos (2 ^ j)) by (apply Qlt_le_weak; exact Hp).
      reflexivity. }
    assert (Hxpos : (0 < Qabs x)%Q).
    { destruct (Qlt_le_dec 0 (Qabs x)) as [H|H]; [exact H|].
      exfalso. apply E0. apply Qabs_Qle_condition in H.
      destruct H as [H1 H2]. apply Qle_antisym; assumption. }
    assert (Hlt : (Qabs x < inject_Z (2 ^ (53 - j)))%Q).
    { rewrite Habs. apply Qlt_shift_div_r; [exact Hp|].
      rewrite (pow2_inject j) by lia. rewrite <- inject_Z_mult, <- Zlt_Qlt.
      rewrite <- Z.pow_add_r by lia. replace (53 - j + j) with 53 by lia. exact Hk. }
    pose proof (ilog2_below (Qabs x) (53 - j) ltac:(lia) Hxpos Hlt) as Hil.
    set (e := Z.max (-1074) (ilog2 (Qabs x) - 52)).
    assert (He : e <= - j) by (unfold e; lia).
    assert (Hscaled : (x / 2 ^ e == inject_Z (k * 2 ^ (- j - e)))%Q).
    { rewrite Hx. rewrite inject_Z_mult, <- (pow2_inject (- j - e)) by lia.
      unfold Z.sub. rewrite (Qpower_plus 2 (- j) (- e) two_neq_0).
      rewrite !Qpower_opp. field. split; apply Qpower_not_0; exact two_neq_0. }
    rewrite (round_half_even_Z _ _ Hscaled).
    assert (Hy : (inject_Z (k * 2 ^ (- j - e)) * 2 ^ e == x)%Q).
    { rewrite <- Hscaled. field. apply Qpower_not_0; exact two_neq_0. }
    exists (inject_Z (k * 2 ^ (- j - e)) * 2 ^ e)%Q.
    destruct (Qle_bool (2 ^ 1024) (Qabs (inject_Z (k * 2 ^ (- j - e)) * 2 ^ e))) eqn:Eo.
    + exfalso. apply Qle_bool_iff in Eo. rewrite (Qabs_wd _ _ Hy) in Eo.
      apply (Qlt_irrefl (2 ^ 1024)).
      eapply Qle_lt_trans; [exact Eo|]. eapply Qlt_le_trans; [exact Hlt|].
      rewrite <- (pow2_inject (53 - j)) by lia.
      apply Qpower_le_compat_l; [lia|discriminate].
    + split; [reflexivity|exact Hy].
Qed.

Lemma round_half_even_bounds (x : Q) :
  Qfloor x <= round_half_even x <= Qfloor x + 1.
Proof.
  unfold round_half_even.
  destruct (x - inject_Z (Qfloor x) ?= 1 # 2)%Q; [destruct (Z.even (Qfloor x))| |]; lia.
Qed.

Lemma round_half_even_mono (a b : Q) :
  (a <= b)%Q -> round_half_even a <= round_half_even b.
Proof.
  intros H. pose proof (Qfloor_resp_le a b H) as Hf.
  destruct (Z.eq_dec (Qfloor a) (Qfloor b)) as [E|E].
  - unfold round_half_even. rewrite <- E.
    destruct (Qcompare_spec (a - inject_Z (Qfloor a)) (1 # 2)) as [Ha|Ha|Ha];
      destruct (Qcompare_spec (b - inject_Z (Qfloor a)) (1 # 2)) as [Hb|Hb|Hb];
      try (destruct (Z.even (Qfloor a))); try lia; exfalso; lra.
  - pose proof (round_half_even_bounds a). pose proof (round_half_even_bounds b). lia.
Qed.

Lemma ilog2_comp (x y : Q) : (x == y)%Q -> ilog2 x = ilog2 y.
Proof.
  intros H. unfold ilog2.
  rewrite (Qleb_comp 1%Q 1%Q (Qeq_refl 1%Q) x y H).
  rewrite (Qfloor_comp x y H).
  rewrite (Qceiling_comp (/ x) (/ y)) by (rewrite H; reflexivity).
  reflexivity.
Qed.

Lemma ilog2_spec (x : Q) :
  (0 < x)%Q -> (2 ^ ilog2 x <= x)%Q /\ (x < 2 ^ (ilog2 x + 1))%Q.
Proof.
  intros Hpos. unfold ilog2.
  destruct (Qle_bool 1 x) eqn:E.
  - apply Qle_bool_iff in E.
    assert (H1 : 1 <= Qfloor x).
    { change 1 with (Qfloor 1). apply Qfloor_resp_le. exact E. }
    pose proof (Z.log2_spec (Qfloor x) ltac:(lia)) as [Hlo Hhi].
    pose proof (Z.log2_nonneg (Qfloor x)) as Hnn.
    rewrite !pow2_inject by lia. split.
    + apply Qle_trans with (inject_Z (Qfloor x)); [|apply Qfloor_le].
      rewrite <- Zle_Qle. exact Hlo.
    + apply Qlt_le_trans with (inject_Z (Qfloor x + 1)); [apply Qlt_floor|].
      rewrite <- Zle_Qle. unfold Z.succ in Hhi. lia.
  - assert (Hlt : (x < 1)%Q).
    { destruct (Qlt_le_dec x 1) as [H|H]; [exact H|].
      apply Qle_bool_iff in H. congruence. }
    assert (Hinv : (x * / x == 1)%Q).
    { apply Qmult_inv_r. intros H0. rewrite H0 in Hpos. discriminate. }
    assert (Hipos : (0 < / x)%Q) by (apply Qinv_lt_0_compat; exact Hpos).
    assert (Hi1 : (1 < / x)%Q) by nra.
    set (c := Qceiling (/ x)).
    pose proof (Qle_ceiling (/ x)) as Hc1. fold c in Hc1.
    pose proof (Qceiling_lt (/ x)) as Hc2. fold c in Hc2.
    assert (Hc : 1 < c).
    { rewrite Zlt_Qlt. eapply Qlt_le_trans; eauto. }
    pose proof (Z.log2_up_spec c Hc) as [Hlo Hhi].
    pose proof (Z.log2_up_pos c Hc) as HL.
    set (L := Z.log2_up c) in *.
    split.
    + rewrite Qpower_opp. rewrite pow2_inject by lia.
      assert (Hb : (/ x <= inject_Z (2 ^ L))%Q).
      { eapply Qle_trans; [exact Hc1|]. rewrite <- Zle_Qle. exact Hhi. }
      assert (Hbp : (0 < inject_Z (2 ^ L))%Q) by (eapply Qlt_le_trans; eauto).
      apply Qle_shift_inv_r; [exact Hbp|]. 
      setoid_replace 1%Q with (x * / x)%Q using relation Qeq by (symmetry; exact Hinv).
      rewrite (Qmult_comm x (inject_Z _)). rewrite (Qmult_comm x (/ x)).
      apply Qmult_le_compat_r; [exact Hb|apply Qlt_le_weak; exact Hpos].
    + replace (- L + 1) with (- (L - 1)) by lia.
      rewrite Qpower_opp. rewrite pow2_inject by lia.
      assert (Hb : (inject_Z (2 ^ (L - 1)) < / x)%Q).
      { eapply Qle_lt_trans; [|exact Hc2]. rewrite <- Zle_Qle.
        change (L - 1) with (Z.pred L). lia. }
      assert (Hbp : (0 < inject_Z (2 ^ (L - 1)))%Q).
      { change 0%Q with (inject_Z 0). rewrite <- Zlt_Qlt. apply Z.pow_pos_nonneg; lia. }
      apply Qlt_shift_inv_l; [exact Hbp|].
      setoid_replace 1%Q with (x * / x)%Q using relation Qeq by (symmetry; exact Hinv).
      apply Qmult_lt_l; [exact Hpos|exact Hb].
Qed.

Lemma pow2_split (p e : Z) : (2 ^ p == 2 ^ (p - e) * 2 ^ e)%Q.
Proof.
  rewrite <- (Qpower_plus 2 (p - e) e two_neq_0).
  replace (p - e + e) with p by lia. reflexivity.
Qed.

Lemma scaled_le (x : Q) (p e : Z) :
  e <= p -> (x <= 2 ^ p)%Q -> (x / 2 ^ e <= inject_Z (2 ^ (p - e)))%Q.
Proof.
  intros He Hx. rewrite <- (pow2_inject (p - e)) by lia.
  apply Qle_shift_div_r; [apply pow2_pos|]. rewrite <- pow2_split. exact Hx.
Qed.

Lemma scaled_ge (x : Q) (p e : Z) :
  e <= p -> (2 ^ p <= x)%Q -> (inject_Z (2 ^ (p - e)) <= x / 2 ^ e)%Q.
Proof.
  intros He Hx. rewrite <- (pow2_inject (p - e)) by lia.
  apply Qle_shift_div_l; [apply pow2_pos|]. rewrite <- pow2_split. exact Hx.
Qed.

Lemma nearest_le_pow2 (x : Q) (p : Z) :
  ulp_exponent x <= p -> (x <= 2 ^ p)%Q -> (nearest x <= 2 ^ p)%Q.
Proof.
  intros He Hx. unfold nearest. set (e := ulp_exponent x) in *.
  pose proof (round_half_even_mono _ _ (scaled_le x p e He Hx)) as H.
  rewrite (round_half_even_Z (inject_Z (2 ^ (p - e))) _ (Qeq_refl _)) in H.
  rewrite (pow2_split p e). apply Qmult_le_compat_r.
  - rewrite (pow2_inject (p - e)) by lia. rewrite <- Zle_Qle. exact H.
  - apply Qlt_le_weak, pow2_pos.
Qed.

Lemma pow2_le_nearest (x : Q) (p : Z) :
  ulp_exponent x <= p -> (2 ^ p <= x)%Q -> (2 ^ p <= nearest x)%Q.
Proof.
  intros He Hx. unfold nearest. set (e := ulp_exponent x) in *.
  pose proof (round_half_even_mono _ _ (scaled_ge x p e He Hx)) as H.
  rewrite (round_half_even_Z (inject_Z (2 ^ (p - e))) _ (Qeq_refl _)) in H.
  rewrite (pow2_split p e). apply Qmult_le_compat_r.
  - rewrite (pow2_inject (p - e)) by lia. rewrite <- Zle_Qle. exact H.
  - apply Qlt_le_weak, pow2_pos.
Qed.

Lemma nearest_nonneg (x : Q) : (0 <= x)%Q -> (0 <= nearest x)%Q.
Proof.
  intros Hx. unfold nearest. set (e := ulp_exponent x).
  apply Qmult_le_0_compat; [|apply Qlt_le_weak, pow2_pos].
  change 0%Q with (inject_Z 0). rewrite <- Zle_Qle.
  assert (H0 : (0 <= x / 2 ^ e)%Q).
  { apply Qle_shift_div_l; [apply pow2_pos|]. rewrite Qmult_0_l. exact Hx. }
  pose proof (round_half_even_mono _ _ H0) as H.
  rewrite (round_half_even_Z 0%Q 0 (Qeq_refl _)) in H. exact H.
Qed.

Lemma ilog2_mono (x y : Q) : (0 < x)%Q -> (x <= y)%Q -> ilog2 x <= ilog2 y.
Proof.
  intros Hx Hxy.
  destruct (ilog2_spec x Hx) as [Hlo _].
  destruct (ilog2_spec y ltac:(eapply Qlt_le_trans; eauto)) as [_ Hhi].
  assert (H : (2 ^ ilog2 x < 2 ^ (ilog2 y + 1))%Q).
  { eapply Qle_lt_trans; [exact Hlo|]. eapply Qle_lt_trans; [exact Hxy|exact Hhi]. }
  apply Qpower_lt_compat_l_inv in H; [lia|reflexivity].
Qed.

(** Rounding to the nearest float is monotone on the positive rationals. *)
Lemma nearest_mono (x y : Q) : (0 < x)%Q -> (x <= y)%Q -> (nearest x <= nearest y)%Q.
Proof.
  intros Hx Hxy.
  assert (Hy : (0 < y)%Q) by (eapply Qlt_le_trans; eauto).
  assert (Eex : ulp_exponent x = Z.max (-1074) (ilog2 x - 52)).
  { unfold ulp_exponent. rewrite (ilog2_comp _ _ (Qabs_pos x (Qlt_le_weak _ _ Hx))).
    reflexivity. }
  assert (Eey : ulp_exponent y = Z.max (-1074) (ilog2 y - 52)).
  { unfold ulp_exponent. rewrite (ilog2_comp _ _ (Qabs_pos y (Qlt_le_weak _ _ Hy))).
    reflexivity. }
  pose proof (ilog2_mono x y Hx Hxy) as Hi.
  destruct (Z.eq_dec (ulp_exponent x) (ulp_exponent y)) as [E|E].
  - unfold nearest. rewrite <- E. set (e := ulp_exponent x).
    apply Qmult_le_compat_r; [|apply Qlt_le_weak, pow2_pos].
    rewrite <- Zle_Qle. apply round_half_even_mono.
    apply Qmult_le_compat_r; [exact Hxy|].
    apply Qlt_le_weak, Qinv_lt_0_compat, pow2_pos.
  - destruct (ilog2_spec x Hx) as [_ Hxhi].
    destruct (ilog2_spec y Hy) as [Hylo _].
    apply Qle_trans with (2 ^ ilog2 y)%Q.
    + apply nearest_le_pow2; [lia|].
      apply Qle_trans with (2 ^ (ilog2 x + 1))%Q; [apply Qlt_le_weak; exact Hxhi|].
      apply Qpower_le_compat_l; [lia|discriminate].
    + apply pow2_le_nearest; [lia|exact Hylo].
Qed.

Lemma round_float_mono (x y b : Q) :
  (0 <= x)%Q -> (x <= y)%Q -> round_float y = Finite b ->
  exists a, round_float x = Finite a /\ (0 <= a)%Q /\ (a <= b)%Q.
Proof.
  intros Hx Hxy. unfold round_float.
  destruct (Qeq_bool y 0) eqn:Ey.
  - apply Qeq_bool_iff in Ey. intros [= <-].
    assert (E0 : (x == 0)%Q) by lra.
    apply Qeq_bool_iff in E0. rewrite E0.
    exists 0%Q. split; [reflexivity|]. split; apply Qle_refl.
  - apply Qeq_bool_neq in Ey.
    assert (Hy : (0 < y)%Q).
    { destruct (Qlt_le_dec 0 y) as [H|H]; [exact H|]. exfalso. apply Ey. lra. }
    pose proof (nearest_nonneg y (Qlt_le_weak _ _ Hy)) as Hny.
    destruct (Qle_bool (2 ^ 1024) (Qabs (nearest y))) eqn:Eo; [discriminate|].
    intros [= <-].
    destruct (Qeq_bool x 0) eqn:Ex.
    + exists 0%Q. split; [reflexivity|]. split; [apply Qle_refl|exact Hny].
    + apply Qeq_bool_neq in Ex.
      assert (Hx' : (0 < x)%Q).
      { destruct (Qlt_le_dec 0 x) as [H|H]; [exact H|]. exfalso. apply Ex. lra. }
      pose proof (nearest_mono x y Hx' Hxy) as Hm.
      pose proof (nearest_nonneg x Hx) as Hnx.
      destruct (Qle_bool (2 ^ 1024) (Qabs (nearest x))) eqn:Eox.
      * exfalso. apply Qle_bool_iff in Eox.
        assert (Hf : Qle_bool (2 ^ 1024) (Qabs (nearest y)) = true).
        { apply Qle_bool_iff. rewrite (Qabs_pos _ Hny).
          rewrite (Qabs_pos _ Hnx) in Eox. eapply Qle_trans; eauto. }
        congruence.
      * exists (nearest x). split; [reflexivity|]. split; assumption.
Qed.

Lemma truncate_comp (x y : Q) : (x == y)%Q -> truncate x = truncate y.
Proof.
  intros H. unfold truncate.
  rewrite (Qleb_comp 0%Q 0%Q (Qeq_refl 0%Q) x y H).
  rewrite (Qfloor_comp x y H), (Qceiling_comp x y H). reflexivity.
Qed.

Lemma truncate_nonneg (x : Q) : (0 <= x)%Q -> truncate x = Qfloor x.
Proof.
  intros H. unfold truncate. apply Qle_bool_iff in H. rewrite H. reflexivity.
Qed.

(** Where the budget and the scaled budget are floats (see
    [round_float_exact]), the effective limit is the exact product,
    truncated. *)
Lemma adjusted_limit_exact cfg (m : Q) (k j : Z) :
  Z.abs (requests cfg) < 2 ^ 53 ->
  0 <= j <= 52 -> Z.abs k < 2 ^ 53 ->
  (inject_Z (requests cfg) * m == inject_Z k / 2 ^ j)%Q ->
  adjusted_limit_of cfg m = Ok (truncate (inject_Z (requests cfg) * m)).
Proof.
  intros Hr Hj Hk Hx. unfold adjusted_limit_of, int_mul_float, float_of_int.
  destruct (round_float_exact (inject_Z (requests cfg)) (requests cfg) 0
              ltac:(lia) Hr) as [y1 [E1 Hy1]].
  { change (2 ^ 0)%Q with 1%Q. field. }
  rewrite E1. cbn [bind]. unfold float_mul.
  destruct (round_float_exact (y1 * m) k j Hj Hk) as [y2 [E2 Hy2]].
  { rewrite Hy1. exact Hx. }
  rewrite E2. cbn [int_of_float]. f_equal. apply truncate_comp.
  rewrite Hy2, Hy1. reflexivity.
Qed.

(** Scaling is monotone wherever it is computed: if the scaling of the
    bigger budget by the bigger multiplier does not raise, neither does the
    smaller one, and its result is not bigger. *)
Lemma adjusted_limit_mono cfg1 cfg2 (m1 m2 : Q) (N2 : Z) :
  0 <= requests cfg1 <= requests cfg2 ->
  (0 <= m1)%Q -> (m1 <= m2)%Q ->
  adjusted_limit_of cfg2 m2 = Ok N2 ->
  exists N1, adjusted_limit_of cfg1 m1 = Ok N1 /\ 0 <= N1 <= N2.
Proof.
  intros [Hr0 Hr] Hm0 Hm. unfold adjusted_limit_of, int_mul_float, float_of_int.
  destruct (round_float (inject_Z (requests cfg2))) as [y2|] eqn:E2; [|discriminate].
  cbn [bind]. unfold float_mul.
  destruct (round_float (y2 * m2)) as [z2|] eqn:F2; [|discriminate].
  cbn [int_of_float]. intros [= <-].
  destruct (round_float_mono (inject_Z (requests cfg1)) (inject_Z (requests cfg2)) y2)
    as [y1 [E1 [Hy0 Hy]]].
  { change 0%Q with (inject_Z 0). rewrite <- Zle_Qle. exact Hr0. }
  { rewrite <- Zle_Qle. exact Hr. }
  { exact E2. }
  rewrite E1. cbn [bind].
  destruct (round_float_mono (y1 * m1) (y2 * m2) z2) as [z1 [F1 [Hz0 Hz]]].
  { apply Qmult_le_0_compat; assumption. }
  { apply Qmult_le_compat_nonneg; split; assumption. }
  { exact F2. }
  rewrite F1. cbn [int_of_float]. eexists. split; [reflexivity|].
  rewrite (truncate_nonneg z1 Hz0).
  rewrite (truncate_nonneg z2) by (eapply Qle_trans; eauto).
  split.
  - change 0 with (Qfloor 0). apply Qfloor_resp_le. exact Hz0.
  - apply Qfloor_resp_le. exact Hz.
Qed.

(** The multipliers the limiter can resolve. *)
Lemma role_multiplier_cases req :
  _get_user_role_multiplier req = 3%Q \/ _get_user_role_multiplier req = 2%Q \/
  _get_user_role_multiplier req = 1%Q \/ _get_user_role_multiplier req = (1 # 2)%Q.
Proof.
  unfold _get_user_role_multiplier, get_jwt.
  destruct (jwt req) as [claims|]; [|auto].
  unfold dict_get_default, user_role_multipliers.
  generalize (default "user" (claim_role claims)). intros role.
  cbn -[String.eqb].
  repeat match goal with
         | |- context [String.eqb ?a role] => destruct (String.eqb a role); [auto|]
         end.
  auto.
Qed.

(** Below [2 ^ 53] the scaling of a budget by a role multiplier is exact. *)
Lemma adjusted_limit_of_role cfg req :
  0 <= requests cfg < 2 ^ 53 ->
  (inject_Z (requests cfg) * _get_user_role_multiplier req < inject_Z (2 ^ 53))%Q ->
  adjusted_limit_of cfg (_get_user_role_multiplier req)
  = Ok (Qfloor (inject_Z (requests cfg) * _get_user_role_multiplier req)).
Proof.
  intros Hr Hs.
  assert (Hnn : (0 <= inject_Z (requests cfg) * _get_user_role_multiplier req)%Q).
  { apply Qmult_le_0_compat.
    - change 0%Q with (inject_Z 0). rewrite <- Zle_Qle. lia.
    - destruct (role_multiplier_cases req) as [E|[E|[E|E]]]; rewrite E; discriminate. }
  rewrite <- (truncate_nonneg _ Hnn).
  destruct (role_multiplier_cases req) as [E|[E|[E|E]]]; rewrite E in *.
  - apply (adjusted_limit_exact cfg 3 (requests cfg * 3) 0); try lia.
    + unfold Qlt in Hs. cbn in Hs. lia.
    + rewrite inject_Z_mult. change (2 ^ 0)%Q with 1%Q. field.
  - apply (adjusted_limit_exact cfg 2 (requests cfg * 2) 0); try lia.
    + unfold Qlt in Hs. cbn in Hs. lia.
    + rewrite inject_Z_mult. change (2 ^ 0)%Q with 1%Q. field.
  - apply (adjusted_limit_exact cfg 1 (requests cfg) 0); try lia.
    change (2 ^ 0)%Q with 1%Q. field.
  - apply (adjusted_limit_exact cfg (1 # 2) (requests cfg) 1); try lia.
    change (2 ^ 1)%Q with 2%Q. field.
Qed.

End Floats.

(** ** The quota check *)

Section Quota.

Lemma default_limits_positive lt cfg :
  dict_get default_limits lt = Some cfg -> 0 < requests cfg /\ 0 < window cfg.
Proof.
  unfold default_limits. cbn -[String.eqb].
  repeat (destruct (String.eqb _ lt); [intros [= <-]; simpl; lia|]).
  discriminate.
Qed.

Lemma default_limits_small lt cfg :
  dict_get default_limits lt = Some cfg -> requests cfg <= 200.
Proof.
  unfold default_limits. cbn -[String.eqb].
  repeat (destruct (String.eqb _ lt); [intros [= <-]; simpl; lia|]).
  discriminate.
Qed.

(** The scaling of a built-in budget never raises, is the floor of the
    exact product, and is at least 1. *)
Lemma adjusted_limit_builtin lt cfg req :
  dict_get default_limits lt = Some cfg ->
  exists N,
    adjusted_limit_of cfg (_get_user_role_multiplier req) = Ok N /\
    N = Qfloor (inject_Z (requests cfg) * _get_user_role_multiplier req) /\
    1 <= N.
Proof.
  intros Hcfg.
  destruct (default_limits_positive _ _ Hcfg) as [Hpos _].
  pose proof (default_limits_small _ _ Hcfg) as Hsmall.
  assert (Hb : (3 <= inject_Z (requests cfg))%Q).
  { change 3%Q with (inject_Z 3). rewrite <- Zle_Qle.
    revert Hcfg. unfold default_limits. cbn -[String.eqb].
    repeat (destruct (String.eqb _ lt); [intros [= <-]; simpl; lia|]).
    discriminate. }
  assert (Hm : (1 # 2 <= _get_user_role_multiplier req <= 3)%Q).
  { destruct (role_multiplier_cases req) as [E|[E|[E|E]]]; rewrite E;
      split; discriminate. }
  eexists. split; [|split; [reflexivity|]].
  - apply adjusted_limit_of_role; [lia|].
    apply Qle_lt_trans with (inject_Z 200 * 3)%Q; [|reflexivity].
    apply Qmult_le_compat_nonneg.
    + split; [change 0%Q with (inject_Z 0)|]; rewrite <- Zle_Qle; lia.
    + split; [|tauto]. apply Qle_trans with (1 # 2)%Q; [discriminate|tauto].
  - change 1 with (Qfloor 1). apply Qfloor_resp_le.
    apply Qle_trans with (3 * (1 # 2))%Q; [discriminate|].
    apply Qmult_le_compat_nonneg; split; (discriminate || tauto).
Qed.

Lemma limit_config_for_default lt cfg :
  dict_get default_limits lt = Some cfg -> limit_config_for lt None = cfg.
Proof.
  intros H. unfold limit_config_for, dict_get_default. rewrite H. reflexivity.
Qed.

Lemma rate_limit_key_builtin now identifier lt cfg :
  dict_get default_limits lt = Some cfg ->
  _get_rate_limit_key now identifier lt
  = Ok ("rate_limit:" +:+ lt +:+ ":" +:+ identifier +:+ ":"
        +:+ str_of_int (Z.quot now (window cfg))).
Proof.
  intros H. destruct (default_limits_positive _ _ H) as [_ Hw].
  unfold _get_rate_limit_key, dict_index. rewrite H. simpl.
  unfold int_div. destruct (window cfg =? 0) eqn:E; [apply Z.eqb_eq in E; lia|].
  reflexivity.
Qed.

Lemma same_bucket_before_expiry W b t1 t :
  0 < W -> 0 <= t1 -> 0 <= t -> Z.quot t1 W = b -> Z.quot t W = b -> t < t1 + W.
Proof.
  intros HW H1 Ht E1 Et.
  rewrite Z.quot_div_nonneg in E1, Et by lia.
  pose proof (Z.mul_div_le t1 W HW).
  pose proof (Z.mul_succ_div_gt t W HW).
  rewrite E1 in *. rewrite Et in *. lia.
Qed.

Variables (req : request) (lt : string) (cfg : limit_config) (N : Z).
Hypothesis Hcfg : dict_get default_limits lt = Some cfg.
Hypothesis HN : adjusted_limit_of cfg (_get_user_role_multiplier req) = Ok N.

(** The metadata of the request that takes the counter to [count]. *)
Let info (now count : Z) : dict :=
  [ ("limit", AInt N);
    ("remaining", AInt (Z.max 0 (N - count)));
    ("reset_time", AInt (Z.quot now (window cfg) * window cfg + window cfg));
    ("retry_after",
     AInt (if negb (count <=? N)
           then Z.quot now (window cfg) * window cfg + window cfg - now else 0));
    ("window", AInt (window cfg));
    ("identifier", AStr (first_or "" (split ":" (_get_client_identifier req)))) ].

(** The first request of a window creates the counter at 1, to expire one
    window length later. *)
Lemma check_rate_limit_fresh cache m now :
  healthy cache m ->
  Redis.lookup now m (counter_key cache req lt (Z.quot now (window cfg))) = None ->
  check_rate_limit cache req now lt None
  = (CacheService.with_client cache
       (Client (<[counter_key cache req lt (Z.quot now (window cfg))
                  := Entry (RInt 1) (Some (now + window cfg))]> m) None),
     Ok (1 <=? N, info now 1)).
Proof.
  intros Hh Hk. destruct (default_limits_positive _ _ Hcfg) as [_ Hw].
  unfold check_rate_limit, CacheService.is_available. rewrite Hh. cbn [negb].
  unfold check_rate_limit_try.
  rewrite (limit_config_for_default _ _ Hcfg). rewrite HN.
  rewrite (rate_limit_key_builtin _ _ _ _ Hcfg).
  unfold CacheService.increment. rewrite Hh.
  unfold counter_key in Hk.
  rewrite (increment_try_fresh now m _ 1 (window cfg) Hk Hw eq_refl).
  cbn [int_operand bind try_except]. unfold int_div.
  destruct (window cfg =? 0) eqn:E; [apply Z.eqb_eq in E; lia|].
  reflexivity.
Qed.

(** A later request of the window increments the counter in place. *)
Lemma check_rate_limit_counted cache m now v exp :
  healthy cache m ->
  int64_min <= v < int64_max ->
  Redis.lookup now m (counter_key cache req lt (Z.quot now (window cfg)))
  = Some (Entry (RInt v) exp) ->
  check_rate_limit cache req now lt None
  = (CacheService.with_client cache
       (Client (<[counter_key cache req lt (Z.quot now (window cfg))
                  := Entry (RInt (v + 1)) exp]> m) None),
     Ok (v + 1 <=? N, info now (v + 1))).
Proof.
  intros Hh Hv Hk. destruct (default_limits_positive _ _ Hcfg) as [_ Hw].
  unfold check_rate_limit, CacheService.is_available. rewrite Hh. cbn [negb].
  unfold check_rate_limit_try.
  rewrite (limit_config_for_default _ _ Hcfg). rewrite HN.
  rewrite (rate_limit_key_builtin _ _ _ _ Hcfg).
  unfold CacheService.increment. rewrite Hh.
  unfold counter_key in Hk.
  rewrite (increment_try_counter now m _ 1 (Some (window cfg)) v exp Hk eq_refl
             (is_int64_succ v Hv)).
  cbn [int_operand bind try_except]. unfold int_div.
  destruct (window cfg =? 0) eqn:E; [apply Z.eqb_eq in E; lia|].
  reflexivity.
Qed.

(** At the largest integer of the server the counter cannot be incremented:
    the check fails open and the store is left as it was. *)
Lemma check_rate_limit_at_ceiling cache m now exp :
  healthy cache m ->
  Redis.lookup now m (counter_key cache req lt (Z.quot now (window cfg)))
  = Some (Entry (RInt int64_max) exp) ->
  check_rate_limit cache req now lt None
  = (CacheService.with_client cache (Client m None), Ok (true, [])).
Proof.
  intros Hh Hk.
  unfold check_rate_limit, CacheService.is_available. rewrite Hh. cbn [negb].
  unfold check_rate_limit_try.
  rewrite (limit_config_for_default _ _ Hcfg). rewrite HN.
  rewrite (rate_limit_key_builtin _ _ _ _ Hcfg).
  unfold CacheService.increment. rewrite Hh.
  unfold counter_key in Hk.
  rewrite (increment_try_out_of_range now m _ 1 (Some (window cfg)) int64_max exp Hk
             eq_refl).
  reflexivity.
Qed.

(** Requests of one window bucket, from a counter that holds [v] and
    outlives them: request [j] (from 0) takes the counter to [v + j + 1],
    as long as the counts stay integers of the server. *)
Lemma run_counted b times :
  Forall (fun t => Z.quot t (window cfg) = b) times ->
  forall cache m v exp,
    healthy cache m ->
    int64_min <= v ->
    v + Z.of_nat (length times) <= int64_max ->
    m !! counter_key cache req lt b = Some (Entry (RInt v) (Some exp)) ->
    Forall (fun t => t < exp) times ->
    forall j t, times !! j = Some t ->
      snd (check_rate_limit_run cache req lt None times) !! j
      = Some (Ok (v + Z.of_nat (S j) <=? N, info t (v + Z.of_nat (S j)))).
Proof.
  induction 1 as [|t0 rest Hb Hrest IH]; intros cache m v exp Hh Hlo Hhi Hk Hexp j t Hj.
  - destruct j; discriminate.
  - pose proof (Forall_inv Hexp) as Ht0. simpl in Ht0.
    pose proof (Forall_inv_tail Hexp) as Hexp'.
    cbn [length] in Hhi.
    assert (Hl : Redis.lookup t0 m
                   (counter_key cache req lt (Z.quot t0 (window cfg)))
                 = Some (Entry (RInt v) (Some exp))).
    { rewrite Hb. unfold Redis.lookup. rewrite Hk. unfold live. simpl.
      destruct (t0 <? exp) eqn:E; [reflexivity|apply Z.ltb_ge in E; lia]. }
    cbn [check_rate_limit_run].
    rewrite (check_rate_limit_counted cache m t0 v (Some exp) Hh ltac:(lia) Hl).
    rewrite Hb.
    set (cache1 := CacheService.with_client cache _).
    destruct (check_rate_limit_run cache1 req lt None rest) as [cache2 rs] eqn:Er.
    destruct j as [|j]; simpl in *.
    + injection Hj as <-.
      replace (Z.pos (Pos.of_succ_nat 0)) with 1 by reflexivity. reflexivity.
    + specialize (IH cache1 (<[counter_key cache req lt b
                               := Entry (RInt (v + 1)) (Some exp)]> m)
                     (v + 1) exp eq_refl ltac:(lia) ltac:(lia)).
      rewrite Er in IH. simpl in IH.
      rewrite (IH (lookup_insert_eq _ _ _) Hexp' j t Hj).
      replace (v + 1 + Z.of_nat (S j)) with (v + Z.of_nat (S (S j))) by lia.
      reflexivity.
Qed.

End Quota.

(** X25.  Window correctness of the built-in policies.  For a built-in
    category under its policy (budget scaled by the caller's role
    multiplier to [N], the floor of the exact product, and window [W]), a
    store that is up, and requests of one client that all fall in one fixed
    window in which the counter does not exist yet: request number [j + 1]
    is allowed exactly when [j + 1 <= N] (the test is on the count after the
    increment), so requests [1..N] are allowed, and request [N + 1] is
    refused with [remaining = 0]. *)
Theorem window_correctness :
  forall (cache : CacheService.t) (m : keyspace) (req : request) (lt : string)
         (cfg : limit_config) (b : Z) (times : list Z),
    healthy cache m ->
    dict_get default_limits lt = Some cfg ->
    Forall (fun t => 0 <= t /\ Z.quot t (window cfg) = b) times ->
    m !! counter_key cache req lt b = None ->
    Z.of_nat (length times) <= int64_max ->
    exists N : Z,
      adjusted_limit_of cfg (_get_user_role_multiplier req) = Ok N /\
      N = Qfloor (inject_Z (requests cfg) * _get_user_role_multiplier req) /\
      forall (j : nat) (t : Z), times !! j = Some t ->
        exists (allowed : bool) (info : dict),
          snd (check_rate_limit_run cache req lt None times) !! j
          = Some (Ok (allowed, info)) /\
          allowed = (Z.of_nat (S j) <=? N) /\
          dict_get info "limit" = Some (AInt N) /\
          dict_get info "remaining" = Some (AInt (Z.max 0 (N - Z.of_nat (S j)))) /\
          (Z.of_nat (S j) <= N -> allowed = true) /\
          (Z.of_nat (S j) = N + 1 ->
           allowed = false /\ dict_get info "remaining" = Some (AInt 0)).
Proof.
  intros cache m req lt cfg b times Hh Hcfg Hall Hk Hlen.
  destruct (adjusted_limit_builtin lt cfg req Hcfg) as [N [HN [HNv _]]].
  exists N. split; [exact HN|]. split; [exact HNv|]. intros j t Hj.
  destruct (default_limits_positive _ _ Hcfg) as [_ HW].
  assert (Hres : snd (check_rate_limit_run cache req lt None times) !! j
                 = Some (Ok (Z.of_nat (S j) <=? N,
                     [ ("limit", AInt N);
                       ("remaining", AInt (Z.max 0 (N - Z.of_nat (S j))));
                       ("reset_time",
                        AInt (Z.quot t (window cfg) * window cfg + window cfg));
                       ("retry_after",
                        AInt (if negb (Z.of_nat (S j) <=? N)
                              then Z.quot t (window cfg) * window cfg + window cfg - t
                              else 0));
                       ("window", AInt (window cfg));
                       ("identifier",
                        AStr (first_or "" (split ":" (_get_client_identifier req)))) ]))).
  { destruct times as [|t0 rest]; [destruct j; discriminate|].
    pose proof (Forall_inv Hall) as [Ht0 Hb0]. simpl in Ht0, Hb0.
    pose proof (Forall_inv_tail Hall) as Hrest.
    cbn [length] in Hlen.
    assert (Hl : Redis.lookup t0 m (counter_key cache req lt (Z.quot t0 (window cfg)))
                 = None).
    { rewrite Hb0. apply lookup_absent. exact Hk. }
    cbn [check_rate_limit_run].
    rewrite (check_rate_limit_fresh req lt cfg N Hcfg HN cache m t0 Hh Hl).
    rewrite Hb0.
    set (cache1 := CacheService.with_client cache _).
    destruct (check_rate_limit_run cache1 req lt None rest) as [cache2 rs] eqn:Er.
    destruct j as [|j]; simpl in Hj |- *.
    - injection Hj as <-. rewrite Hb0. reflexivity.
    - pose proof (run_counted req lt cfg N Hcfg HN b rest) as Hrun.
      assert (Hq : Forall (fun t => Z.quot t (window cfg) = b) rest).
      { eapply List.Forall_impl; [|exact Hrest]. simpl. intros a [_ Ha]. exact Ha. }
      assert (Hx : Forall (fun t => t < t0 + window cfg) rest).
      { eapply List.Forall_impl; [|exact Hrest]. simpl. intros a [Ha0 Ha].
        eapply same_bucket_before_expiry; eauto. }
      specialize (Hrun Hq cache1
                    (<[counter_key cache req lt b
                       := Entry (RInt 1) (Some (t0 + window cfg))]> m)
                    1 (t0 + window cfg) eq_refl).
      specialize (Hrun ltac:(unfold int64_min; lia) ltac:(lia)).
      specialize (Hrun ltac:(apply lookup_insert_eq) Hx j t Hj).
      rewrite Er in Hrun. simpl in Hrun. rewrite Hrun.
      replace (1 + Z.of_nat (S j)) with (Z.of_nat (S (S j))) by lia.
      reflexivity. }
  eexists _, _. split; [exact Hres|].
  split; [reflexivity|]. split; [reflexivity|]. split; [reflexivity|].
  split.
  - intros Hle. apply Z.leb_le. exact Hle.
  - intros Heq. split.
    + apply Z.leb_gt. lia.
    + cbn -[Z.of_nat Z.max]. f_equal. f_equal. lia.
Qed.

(** The instance of X25 at the [emergency] category ([N = 3], [W = 60]) for
    the client at 9.9.9.9 and requests at 0, 0, 0 and 10. *)
Lemma window_correctness_witness :
  exists N : Z,
    adjusted_limit_of (LimitConfig 3 60)
      (_get_user_role_multiplier (request_from "9.9.9.9" (Some no_identity))) = Ok N /\
    N = Qfloor (inject_Z (requests (LimitConfig 3 60))
                * _get_user_role_multiplier (request_from "9.9.9.9" (Some no_identity))) /\
    forall (j : nat) (t : Z), [0; 0; 0; 10] !! j = Some t ->
      exists (allowed : bool) (info : dict),
        snd (check_rate_limit_run fresh_cache
               (request_from "9.9.9.9" (Some no_identity)) "emergency" None [0; 0; 0; 10])
          !! j
        = Some (Ok (allowed, info)) /\
        allowed = (Z.of_nat (S j) <=? N) /\
        dict_get info "limit" = Some (AInt N) /\
        dict_get info "remaining" = Some (AInt (Z.max 0 (N - Z.of_nat (S j)))) /\
        (Z.of_nat (S j) <= N -> allowed = true) /\
        (Z.of_nat (S j) = N + 1 ->
         allowed = false /\ dict_get info "remaining" = Some (AInt 0)).
Proof.
  apply (window_correctness fresh_cache ∅
           (request_from "9.9.9.9" (Some no_identity)) "emergency"
           (LimitConfig 3 60) 0 [0; 0; 0; 10]).
  - reflexivity.
  - reflexivity.
  - repeat constructor; simpl; lia.
  - reflexivity.
  - vm_compute. discriminate.
Defined.

(** C8.  The emergency scenario: policy (3 requests, 60 seconds), client
    [ip:9.9.9.9] with multiplier 1.0, empty store.  Requests 1 to 3 at
    [t = 0] are allowed with 2, 1 and 0 remaining; request 4 at [t = 10] is
    refused with [retry_after = 50]; request 5 at [t = 61], in the next
    window bucket, is allowed with 2 remaining. *)
Theorem emergency_scenario :
  _get_client_identifier (request_from "9.9.9.9" (Some no_identity)) = "ip:9.9.9.9" /\
  _get_user_role_multiplier (request_from "9.9.9.9" (Some no_identity)) = 1%Q /\
  dict_get default_limits "emergency" = Some (LimitConfig 3 60) /\
  snd (check_rate_limit_run fresh_cache
         (request_from "9.9.9.9" (Some no_identity)) "emergency" None
         [0; 0; 0; 10; 61])
  = [ Ok (true, [ ("limit", AInt 3); ("remaining", AInt 2); ("reset_time", AInt 60);
                  ("retry_after", AInt 0); ("window", AInt 60);
                  ("identifier", AStr "ip") ]);
      Ok (true, [ ("limit", AInt 3); ("remaining", AInt 1); ("reset_time", AInt 60);
                  ("retry_after", AInt 0); ("window", AInt 60);
                  ("identifier", AStr "ip") ]);
      Ok (true, [ ("limit", AInt 3); ("remaining", AInt 0); ("reset_time", AInt 60);
                  ("retry_after", AInt 0); ("window", AInt 60);
                  ("identifier", AStr "ip") ]);
      Ok (false, [ ("limit", AInt 3); ("remaining", AInt 0); ("reset_time", AInt 60);
                   ("retry_after", AInt 50); ("window", AInt 60);
                   ("identifier", AStr "ip") ]);
      Ok (true, [ ("limit", AInt 3); ("remaining", AInt 2); ("reset_time", AInt 120);
                  ("retry_after", AInt 0); ("window", AInt 60);
                  ("identifier", AStr "ip") ]) ].
Proof. repeat split; vm_compute; reflexivity. Qed.

(** C10.  A category that is not in the built-in table: the configuration
    lookup falls back to the ['api'] defaults, but building the counter key
    indexes the table with the unknown name and raises; the handler turns
    that into [(True, {})], and the store is not touched, so no counter is
    incremented.  (The same holds when a custom limit is supplied.) *)
Theorem unknown_category_fails_open :
  forall (cache : CacheService.t) (req : request) (now : Z) (lt : string)
         (custom_limit : option limit_config),
    dict_get default_limits lt = None ->
    limit_config_for lt None = LimitConfig 100 60 /\
    dict_get default_limits "api" = Some (LimitConfig 100 60) /\
    _get_rate_limit_key now (_get_client_identifier req) lt = Raise KeyError /\
    check_rate_limit cache req now lt custom_limit = (cache, Ok (true, [])).
Proof.
  intros cache req now lt custom_limit Hno.
  assert (Hkey : _get_rate_limit_key now (_get_client_identifier req) lt
                 = Raise KeyError).
  { unfold _get_rate_limit_key, dict_index. rewrite Hno. reflexivity. }
  split; [unfold limit_config_for, dict_get_default; rewrite Hno; reflexivity|].
  split; [reflexivity|]. split; [exact Hkey|].
  unfold check_rate_limit.
  destruct (CacheService.is_available cache); [|reflexivity].
  cbn [negb]. unfold check_rate_limit_try. rewrite Hkey.
  destruct (adjusted_limit_of (limit_config_for lt custom_limit)
              (_get_user_role_multiplier req)); reflexivity.
Qed.

(** The instance of C10 at the category ["search"]. *)
Lemma unknown_category_fails_open_witness :
  limit_config_for "search" None = LimitConfig 100 60 /\
  dict_get default_limits "api" = Some (LimitConfig 100 60) /\
  _get_rate_limit_key 0
    (_get_client_identifier (request_from "9.9.9.9" (Some no_identity))) "search"
  = Raise KeyError /\
  check_rate_limit fresh_cache (request_from "9.9.9.9" (Some no_identity)) 0
    "search" None
  = (fresh_cache, Ok (true, [])).
Proof.
  apply (unknown_category_fails_open fresh_cache
           (request_from "9.9.9.9" (Some no_identity)) 0 "search" None).
  reflexivity.
Defined.

(** The quota check returns a result on every input: whatever its body
    raises is handled. *)
Lemma check_rate_limit_never_raises cache req now lt custom_limit :
  exists r, snd (check_rate_limit cache req now lt custom_limit) = Ok r.
Proof.
  unfold check_rate_limit.
  destruct (CacheService.is_available cache); simpl; [|eauto].
  destruct (check_rate_limit_try cache req now lt custom_limit) as [cache1 [r|x]];
    simpl; eauto.
Qed.

(** C7.  Fail-open.  When the counter store is unavailable, and when the
    store interaction of the call (the increment of the quota counter)
    raises, the quota check returns [(True, {})]: the request is allowed,
    the metadata is empty, and no exception reaches the caller. *)
Theorem check_rate_limit_fails_open :
  forall (cache : CacheService.t) (req : request) (now : Z) (lt : string)
         (custom_limit : option limit_config),
    (CacheService.is_available cache = false \/
     exists (c : client) (key : string) (x : exn),
       CacheService.redis_client cache = Some c /\
       _get_rate_limit_key now (_get_client_identifier req) lt = Ok key /\
       snd (CacheService.increment_try now c (CacheService._make_key cache key) 1
              (Some (window (limit_config_for lt custom_limit))))
       = Raise x) ->
    snd (check_rate_limit cache req now lt custom_limit) = Ok (true, []).
Proof.
  intros cache req now lt custom_limit [Hdown|[c [key [x [Hc [Hkey Hraise]]]]]].
  - unfold check_rate_limit. rewrite Hdown. reflexivity.
  - unfold check_rate_limit, CacheService.is_available. rewrite Hc. cbn [negb].
    unfold check_rate_limit_try. rewrite Hkey.
    destruct (adjusted_limit_of (limit_config_for lt custom_limit)
                (_get_user_role_multiplier req)) as [N|e0]; [|reflexivity].
    unfold CacheService.increment. rewrite Hc.
    destruct (CacheService.increment_try now c (CacheService._make_key cache key) 1
                (Some (window (limit_config_for lt custom_limit)))) as [c1 r].
    simpl in Hraise. subst r. reflexivity.
Qed.

(** The instance of C7 at a connection that raises on its next round trip. *)
Lemma check_rate_limit_fails_open_witness :
  snd (check_rate_limit
         (CacheService.Make (Some (Client ∅ (Some 0%nat))) 3600 "hospital_mgmt:")
         (request_from "9.9.9.9" (Some no_identity)) 0 "emergency" None)
  = Ok (true, []).
Proof.
  apply (check_rate_limit_fails_open
           (CacheService.Make (Some (Client ∅ (Some 0%nat))) 3600 "hospital_mgmt:")
           (request_from "9.9.9.9" (Some no_identity)) 0 "emergency" None).
  right. exists (Client ∅ (Some 0%nat)), "rate_limit:emergency:ip:9.9.9.9:0", RedisError.
  split; [reflexivity|]. split; vm_compute; reflexivity.
Defined.

(** ** The shape of a quota decision *)

Section Shape.

(** Whatever the connection does, an increment that returns a count returns
    the count the key held (0 when it did not exist) plus the amount. *)
Lemma increment_try_returns now c k amount ttl n v :
  snd (CacheService.increment_try now c k amount ttl) = Ok n ->
  count_of now (db c) k = Some v ->
  n = v + amount.
Proof.
  unfold CacheService.increment_try, Redis.exists_, execute, round_trip, count_of.
  destruct c as [m fa]. cbn [db fail_after].
  destruct (CacheService.ttl_truthy ttl) as [n0|];
    destruct fa as [[|[|fa]]|]; cbn -[is_int64 Redis.lookup]; try discriminate;
    destruct (Redis.lookup now m k) as [[[v0|p] ex]|] eqn:El;
    cbn -[is_int64 Redis.lookup]; try discriminate;
    destruct (is_int64 amount); cbn -[is_int64 Redis.lookup]; try discriminate;
    rewrite ?El; cbn -[is_int64 Redis.lookup]; try discriminate;
    repeat match goal with
      | |- context [is_int64 v0 && is_int64 (v0 + amount)] =>
          destruct (is_int64 v0 && is_int64 (v0 + amount)); cbn -[is_int64 Redis.lookup]
      | |- context [Redis.lookup now (<[k := ?e]> m) k] =>
          destruct (Redis.lookup now (<[k := e]> m) k); cbn -[is_int64 Redis.lookup]
      | |- context [if ?b then _ else _] => destruct b; cbn -[is_int64 Redis.lookup]
      end;
    try discriminate; intros [= <-] [= <-]; reflexivity.
Qed.

Lemma increment_returns cache now key amount ttl n v :
  snd (CacheService.increment cache now key amount ttl) = Some n ->
  count_of now (keyspace_of cache) (CacheService._make_key cache key) = Some v ->
  n = v + amount.
Proof.
  unfold CacheService.increment, keyspace_of.
  destruct (CacheService.redis_client cache) as [c|]; [|discriminate].
  pose proof (increment_try_returns now c (CacheService._make_key cache key) amount ttl)
    as H.
  destruct (CacheService.increment_try now c (CacheService._make_key cache key)
              amount ttl) as [c1 [r|x]]; [|discriminate].
  cbn [snd] in *. intros [= <-] Hv. exact (H r v eq_refl Hv).
Qed.

(** A quota decision is either the fail-open answer or the metadata of the
    count the increment returned. *)
Lemma check_rate_limit_shape cache req now lt custom_limit :
  snd (check_rate_limit cache req now lt custom_limit) = Ok (true, []) \/
  exists (N : Z) (key : string) (count : Z),
    adjusted_limit_of (limit_config_for lt custom_limit) (_get_user_role_multiplier req)
    = Ok N /\
    _get_rate_limit_key now (_get_client_identifier req) lt = Ok key /\
    snd (CacheService.increment cache now key 1
           (Some (window (limit_config_for lt custom_limit)))) = Some count /\
    window (limit_config_for lt custom_limit) <> 0 /\
    snd (check_rate_limit cache req now lt custom_limit)
    = Ok (count <=? N,
          [ ("limit", AInt N);
            ("remaining", AInt (Z.max 0 (N - count)));
            ("reset_time",
             AInt (Z.quot now (window (limit_config_for lt custom_limit))
                   * window (limit_config_for lt custom_limit)
                   + window (limit_config_for lt custom_limit)));
            ("retry_after",
             AInt (if negb (count <=? N)
                   then Z.quot now (window (limit_config_for lt custom_limit))
                        * window (limit_config_for lt custom_limit)
                        + window (limit_config_for lt custom_limit) - now
                   else 0));
            ("window", AInt (window (limit_config_for lt custom_limit)));
            ("identifier",
             AStr (first_or "" (split ":" (_get_client_identifier req)))) ]).
Proof.
  unfold check_rate_limit.
  destruct (CacheService.is_available cache); cbn [negb]; [|left; reflexivity].
  unfold check_rate_limit_try.
  destruct (adjusted_limit_of (limit_config_for lt custom_limit)
              (_get_user_role_multiplier req)) as [N|e0]; [|left; reflexivity].
  destruct (_get_rate_limit_key now (_get_client_identifier req) lt) as [key|e];
    [|left; reflexivity].
  destruct (CacheService.increment cache now key 1
              (Some (window (limit_config_for lt custom_limit)))) as [cache1 [count|]] eqn:Ei;
    [|left; reflexivity].
  cbn [snd int_operand bind]. unfold int_div.
  destruct (window (limit_config_for lt custom_limit) =? 0) eqn:E0;
    [left; reflexivity|].
  right. exists N, key, count. split; [reflexivity|]. split; [reflexivity|].
  split; [rewrite Ei; reflexivity|]. split; [apply Z.eqb_neq; exact E0|]. reflexivity.
Qed.

End Shape.

(** ** A connection that raises *)

Section Down.

Lemma increment_down cache now key amount ttl m :
  CacheService.redis_client cache = Some (Client m (Some 0%nat)) ->
  CacheService.increment cache now key amount ttl
  = (CacheService.with_client cache (Client m (Some 0%nat)), None).
Proof.
  intros Hc. unfold CacheService.increment, CacheService.increment_try,
    Redis.exists_, execute, round_trip.
  rewrite Hc. cbn [fail_after]. destruct (CacheService.ttl_truthy ttl); reflexivity.
Qed.

Lemma check_rate_limit_down cache req now lt custom_limit m :
  CacheService.redis_client cache = Some (Client m (Some 0%nat)) ->
  snd (check_rate_limit cache req now lt custom_limit) = Ok (true, []) /\
  keyspace_of (fst (check_rate_limit cache req now lt custom_limit)) = m.
Proof.
  intros Hc. unfold check_rate_limit, CacheService.is_available. rewrite Hc.
  cbn [negb]. unfold check_rate_limit_try.
  destruct (adjusted_limit_of (limit_config_for lt custom_limit)
              (_get_user_role_multiplier req)) as [N|e0];
    [|unfold keyspace_of; cbn [fst snd try_except]; rewrite Hc; split; reflexivity].
  destruct (_get_rate_limit_key now (_get_client_identifier req) lt) as [key|e].
  - rewrite (increment_down cache now key 1 _ m Hc). split; reflexivity.
  - unfold keyspace_of. cbn [fst snd try_except]. rewrite Hc. split; reflexivity.
Qed.

Lemma check_brute_force_down cache now identifier max_attempts w m :
  CacheService.redis_client cache = Some (Client m (Some 0%nat)) ->
  0 <= max_attempts ->
  check_brute_force_protection cache now identifier max_attempts w
  = (CacheService.with_client cache (Client m (Some 0%nat)), (false, 0)).
Proof.
  intros Hc Hmax. unfold check_brute_force_protection, CacheService.is_available.
  rewrite Hc. cbn [negb]. rewrite (increment_down cache now _ 1 _ m Hc).
  change (default 0 None) with 0.
  destruct (0 >? max_attempts) eqn:E; [|reflexivity].
  rewrite Z.gtb_ltb in E. apply Z.ltb_lt in E. lia.
Qed.

End Down.

(** ** The enforcement wrapper *)




(** ** Role scaling *)

Section Scaling.

Lemma Qfloor_at_least_one (x : Q) : 1 <= Qfloor x <-> (1 <= x)%Q.
Proof.
  split; intros H.
  - apply Qle_trans with (inject_Z (Qfloor x)); [|apply Qfloor_le].
    change 1%Q with (inject_Z 1). rewrite <- Zle_Qle. exact H.
  - change 1 with (Qfloor 1). apply Qfloor_resp_le. exact H.
Qed.

Lemma Qfloor_nonneg (x : Q) : (0 <= x)%Q -> 0 <= Qfloor x.
Proof. intros H. change 0 with (Qfloor 0). apply Qfloor_resp_le. exact H. Qed.

Lemma role_multiplier_nonneg req : (0 <= _get_user_role_multiplier req)%Q.
Proof.
  destruct (role_multiplier_cases req) as [E|[E|[E|E]]]; rewrite E; discriminate.
Qed.

End Scaling.

(** C3 as stated fails: a decoded token whose role, ["donor"], is not in
    the role table gets the multiplier 1.0, not 0.5, and a budget of 10
    stays 10. *)
Lemma unknown_role_multiplier_counterexample :
  dict_get user_role_multipliers "donor" = None /\
  Spec.resolveMultiplier (Some "donor") = (1 # 2)%Q /\
  ~ (_get_user_role_multiplier
       (request_from "9.9.9.9" (Some (Claims (Some "42") None (Some "donor"))))
     == Spec.resolveMultiplier (Some "donor"))%Q /\
  adjusted_limit_of (LimitConfig 10 60)
    (_get_user_role_multiplier
       (request_from "9.9.9.9" (Some (Claims (Some "42") None (Some "donor")))))
  <> Ok 5.
Proof. repeat split; vm_compute; discriminate. Qed.

(** C3, amended.  For a request whose role is absent or not in the role
    table, the multiplier is 1.0 when a token was decoded (a budget of 10
    stays 10), and 0.5 only when no token claims can be read (a budget of 10
    becomes 5). *)
Theorem unknown_role_multiplier :
  forall (req : request) (w : Z),
    match jwt req with
    | Some claims =>
        match claim_role claims with
        | Some r => dict_get user_role_multipliers r = None
        | None => True
        end
    | None => True
    end ->
    _get_user_role_multiplier req
    = match jwt req with Some _ => 1%Q | None => (1 # 2)%Q end /\
    adjusted_limit_of (LimitConfig 10 w) (_get_user_role_multiplier req)
    = Ok match jwt req with Some _ => 10 | None => 5 end.
Proof.
  intros req w H.
  assert (Hm : _get_user_role_multiplier req
               = match jwt req with Some _ => 1%Q | None => (1 # 2)%Q end).
  { unfold _get_user_role_multiplier, get_jwt.
    destruct (jwt req) as [claims|]; [|reflexivity].
    destruct (claim_role claims) as [r|]; simpl.
    - unfold dict_get_default. rewrite H. reflexivity.
    - reflexivity. }
  split; [exact Hm|]. rewrite Hm.
  destruct (jwt req); vm_compute; reflexivity.
Qed.

(** The instance of C3 (amended) at the role ["donor"]. *)
Lemma unknown_role_multiplier_witness :
  _get_user_role_multiplier
    (request_from "9.9.9.9" (Some (Claims (Some "42") None (Some "donor"))))
  = 1%Q /\
  adjusted_limit_of (LimitConfig 10 60)
    (_get_user_role_multiplier
       (request_from "9.9.9.9" (Some (Claims (Some "42") None (Some "donor")))))
  = Ok 10.
Proof.
  apply (unknown_role_multiplier
           (request_from "9.9.9.9" (Some (Claims (Some "42") None (Some "donor"))))
           60).
  reflexivity.
Defined.

(** C4 as stated fails.  A policy of one request per window under the
    multiplier 0.5 (a caller without a token) has the effective limit 0,
    where the specification's formula gives 1, and the first request of the
    window is refused.  And the product is a float product: the budget
    [2 ^ 53 + 1] under the multiplier 1.0 has the effective limit [2 ^ 53],
    and a budget too large for a float makes the scaling raise, on which
    the quota check fails open. *)
Lemma effective_limit_counterexample :
  0 < requests (LimitConfig 1 60) /\
  _get_user_role_multiplier (request_from "9.9.9.9" None) = (1 # 2)%Q /\
  adjusted_limit_of (LimitConfig 1 60) (1 # 2) = Ok 0 /\
  Spec.effectiveLimit 1 (1 # 2) = 1 /\
  snd (check_rate_limit fresh_cache (request_from "9.9.9.9" None) 0 "api"
         (Some (LimitConfig 1 60)))
  = Ok (false, [ ("limit", AInt 0); ("remaining", AInt 0); ("reset_time", AInt 60);
                 ("retry_after", AInt 60); ("window", AInt 60);
                 ("identifier", AStr "ip") ]) /\
  adjusted_limit_of (LimitConfig 9007199254740993 60) 1 = Ok 9007199254740992 /\
  Spec.effectiveLimit 9007199254740993 1 = 9007199254740993 /\
  adjusted_limit_of (LimitConfig (10 ^ 400) 60) 1 = Raise OverflowError /\
  check_rate_limit fresh_cache (request_from "9.9.9.9" (Some no_identity)) 0 "api"
    (Some (LimitConfig (10 ^ 400) 60))
  = (fresh_cache, Ok (true, [])).
Proof. repeat split; vm_compute; (reflexivity || discriminate). Qed.

(** C4, amended.  For a policy with a positive budget and a role multiplier
    the limiter resolves (3.0, 2.0, 1.0 or 0.5), where the budget and the
    scaled budget are below [2 ^ 53] (so that the float product is exact),
    the effective limit of the quota check is [floor(requests * multiplier)],
    with no minimum of 1: it agrees with [max(1, floor(requests *
    multiplier))] exactly when [requests * multiplier >= 1], in which case
    it is at least 1, and it is 0 when [requests * multiplier < 1]; with the
    limit 0, a request that the check counts on a counter that is absent or
    not negative is refused. *)
Theorem effective_limit_is_floor :
  forall (cache : CacheService.t) (req : request) (now : Z) (lt : string)
         (cfg : limit_config) (v : Z) (allowed : bool) (info : dict),
    0 < requests cfg < 2 ^ 53 ->
    (inject_Z (requests cfg) * _get_user_role_multiplier req < inject_Z (2 ^ 53))%Q ->
    exists N : Z,
      adjusted_limit_of cfg (_get_user_role_multiplier req) = Ok N /\
      N = Qfloor (inject_Z (requests cfg) * _get_user_role_multiplier req) /\
      (N = Spec.effectiveLimit (requests cfg) (_get_user_role_multiplier req)
       <-> (1 <= inject_Z (requests cfg) * _get_user_role_multiplier req)%Q) /\
      ((1 <= inject_Z (requests cfg) * _get_user_role_multiplier req)%Q -> 1 <= N) /\
      ((inject_Z (requests cfg) * _get_user_role_multiplier req < 1)%Q -> N = 0) /\
      (N = 0 ->
       (forall key, _get_rate_limit_key now (_get_client_identifier req) lt = Ok key ->
          count_of now (keyspace_of cache) (CacheService._make_key cache key) = Some v) ->
       0 <= v ->
       snd (check_rate_limit cache req now lt (Some cfg)) = Ok (allowed, info) ->
       info <> [] ->
       allowed = false).
Proof.
  intros cache req now lt cfg v allowed info Hr Hs.
  set (x := (inject_Z (requests cfg) * _get_user_role_multiplier req)%Q) in *.
  assert (Hx : (0 <= x)%Q).
  { apply Qmult_le_0_compat; [|apply role_multiplier_nonneg].
    change 0%Q with (inject_Z 0). rewrite <- Zle_Qle. lia. }
  pose proof (adjusted_limit_of_role cfg req ltac:(lia) Hs) as HN. fold x in HN.
  exists (Qfloor x). split; [exact HN|]. split; [reflexivity|].
  unfold Spec.effectiveLimit. fold x.
  pose proof (Qfloor_at_least_one x) as Hone.
  pose proof (Qfloor_nonneg x Hx) as Hnn.
  split; [|split; [|split]].
  - split; intros H.
    + apply Hone. lia.
    + apply Hone in H. lia.
  - intros H. apply Hone. exact H.
  - intros H. destruct (Z_lt_le_dec (Qfloor x) 1) as [Hlt|Hge]; [lia|].
    apply Hone in Hge. exfalso. exact (Qlt_not_le _ _ H Hge).
  - intros H0 Hcount Hv Hres Hinfo.
    destruct (check_rate_limit_shape cache req now lt (Some cfg))
      as [Hopen|[N [key [count [HN' [Hkey [Hinc [_ Hshape]]]]]]]].
    + rewrite Hopen in Hres. injection Hres as <- <-. contradiction.
    + cbn [limit_config_for] in HN'.
      assert (HNx : N = Qfloor x) by congruence.
      rewrite Hshape in Hres. injection Hres as <- _.
      pose proof (increment_returns cache now key 1 _ count v Hinc (Hcount key Hkey)).
      apply Z.leb_gt. lia.
Qed.

(** The instance of C4 (amended) at a policy of one request per window for a
    caller without a token: the limit is 0 and the first request is
    refused. *)
Lemma effective_limit_is_floor_witness :
  exists N : Z,
    adjusted_limit_of (LimitConfig 1 60)
      (_get_user_role_multiplier (request_from "9.9.9.9" None)) = Ok N /\
    N = Qfloor (inject_Z (requests (LimitConfig 1 60))
                * _get_user_role_multiplier (request_from "9.9.9.9" None)) /\
    (N = Spec.effectiveLimit (requests (LimitConfig 1 60))
           (_get_user_role_multiplier (request_from "9.9.9.9" None))
     <-> (1 <= inject_Z (requests (LimitConfig 1 60))
               * _get_user_role_multiplier (request_from "9.9.9.9" None))%Q) /\
    ((1 <= inject_Z (requests (LimitConfig 1 60))
           * _get_user_role_multiplier (request_from "9.9.9.9" None))%Q -> 1 <= N) /\
    ((inject_Z (requests (LimitConfig 1 60))
      * _get_user_role_multiplier (request_from "9.9.9.9" None) < 1)%Q -> N = 0) /\
    (N = 0 ->
     (forall key,
         _get_rate_limit_key 0 (_get_client_identifier (request_from "9.9.9.9" None))
           "api" = Ok key ->
         count_of 0 (keyspace_of fresh_cache) (CacheService._make_key fresh_cache key)
         = Some 0) ->
     0 <= 0 ->
     snd (check_rate_limit fresh_cache (request_from "9.9.9.9" None) 0 "api"
            (Some (LimitConfig 1 60)))
     = Ok (false, [ ("limit", AInt 0); ("remaining", AInt 0); ("reset_time", AInt 60);
                    ("retry_after", AInt 60); ("window", AInt 60);
                    ("identifier", AStr "ip") ]) ->
     [ ("limit", AInt 0); ("remaining", AInt 0); ("reset_time", AInt 60);
       ("retry_after", AInt 60); ("window", AInt 60);
       ("identifier", AStr "ip") ] <> [] ->
     false = false).
Proof.
  apply (effective_limit_is_floor fresh_cache (request_from "9.9.9.9" None) 0 "api"
           (LimitConfig 1 60) 0 false
           [ ("limit", AInt 0); ("remaining", AInt 0); ("reset_time", AInt 60);
             ("retry_after", AInt 60); ("window", AInt 60);
             ("identifier", AStr "ip") ]).
  - cbn. lia.
  - reflexivity.
Defined.

(** ** Brute-force detection *)

Section Keys.

Lemma append_inj_l (p a b : string) : p +:+ a = p +:+ b -> a = b.
Proof.
  induction p as [|ch p IH]; simpl; [auto|]. intros [= H]. auto.
Qed.

Lemma length_append (a b : string) :
  String.length (a +:+ b) = (String.length a + String.length b)%nat.
Proof. induction a as [|ch a IH]; simpl; [reflexivity|]. rewrite IH. reflexivity. Qed.

Variable cache : CacheService.t.

Lemma brute_force_key_inj a b :
  brute_force_key cache a = brute_force_key cache b -> a = b.
Proof.
  unfold brute_force_key, CacheService._make_key. intros H.
  apply append_inj_l in H. apply append_inj_l in H. exact H.
Qed.

Lemma blocked_key_not_counter x y : blocked_key cache x <> brute_force_key cache y.
Proof.
  unfold blocked_key, brute_force_key, CacheService._make_key. intros H.
  apply append_inj_l in H. simpl in H. discriminate.
Qed.

Lemma ip_not_combo ip username : ip <> "combo:" +:+ ip +:+ ":" +:+ username.
Proof.
  intros H. apply (f_equal String.length) in H.
  rewrite !length_append in H. simpl in H. lia.
Qed.

Lemma user_not_combo ip username :
  "user:" +:+ username <> "combo:" +:+ ip +:+ ":" +:+ username.
Proof. simpl. discriminate. Qed.

End Keys.

Section Attempts.

Variables (now : Z).

Lemma count_of_same (m m' : keyspace) k :
  m' !! k = m !! k -> count_of now m' k = count_of now m k.
Proof. intros H. unfold count_of, Redis.lookup. rewrite H. reflexivity. Qed.

Lemma expiry_of_same (m m' : keyspace) k :
  m' !! k = m !! k -> expiry_of now m' k = expiry_of now m k.
Proof. intros H. unfold expiry_of, Redis.lookup. rewrite H. reflexivity. Qed.

(** One call of [check_brute_force_protection] on a store that is up: the
    counter of the identifier goes from [v] to [v + 1], keeps its expiry or,
    when it is new, gets [now + window]; the call reports a block exactly
    when [v + 1 > max_attempts]; no other brute-force counter changes. *)
Lemma check_brute_force_step cache m identifier max_attempts w v :
  healthy cache m -> 0 < w ->
  count_of now m (brute_force_key cache identifier) = Some v ->
  int64_min <= v < int64_max ->
  exists m',
    check_brute_force_protection cache now identifier max_attempts w
    = (CacheService.with_client cache (Client m' None),
       (v + 1 >? max_attempts, v + 1)) /\
    count_of now m' (brute_force_key cache identifier) = Some (v + 1) /\
    expiry_of now m' (brute_force_key cache identifier)
    = Some (match expiry_of now m (brute_force_key cache identifier) with
            | Some x => x
            | None => Some (now + w)
            end) /\
    (forall other, other <> identifier ->
       m' !! brute_force_key cache other = m !! brute_force_key cache other).
Proof.
  intros Hh Hw Hcount Hv.
  set (key := brute_force_key cache identifier) in *.
  set (exp := match expiry_of now m key with Some x => x | None => Some (now + w) end).
  assert (Hlive : live now (Entry (RInt (v + 1)) exp) = true).
  { unfold live, exp, expiry_of. simpl.
    destruct (Redis.lookup now m key) as [e|] eqn:El; simpl.
    - apply lookup_live in El. destruct El as [_ El]. exact El.
    - apply Z.ltb_lt. lia. }
  assert (Hinc : CacheService.increment cache now ("brute_force:" +:+ identifier) 1 (Some w)
                 = (CacheService.with_client cache
                      (Client (<[key := Entry (RInt (v + 1)) exp]> m) None),
                    Some (v + 1))).
  { unfold CacheService.increment. rewrite Hh.
    change (CacheService._make_key cache ("brute_force:" +:+ identifier)) with key.
    unfold count_of in Hcount. unfold exp, expiry_of.
    destruct (Redis.lookup now m key) as [[[v0|p] ex]|] eqn:El.
    - injection Hcount as ->.
      rewrite (increment_try_counter now m key 1 (Some w) v ex El eq_refl
                 (is_int64_succ v Hv)).
      reflexivity.
    - discriminate.
    - injection Hcount as <-.
      rewrite (increment_try_fresh now m key 1 w El Hw eq_refl). reflexivity. }
  unfold check_brute_force_protection, CacheService.is_available.
  rewrite Hh. cbn [negb]. rewrite Hinc.
  change (default 0 (Some (v + 1))) with (v + 1).
  destruct (v + 1 >? max_attempts) eqn:Egt.
  - eexists. split.
    + unfold block_ip, CacheService.is_available, CacheService.set, setex, round_trip,
        CacheService.ttl_or_default.
      cbn [CacheService.with_client CacheService.redis_client negb fail_after db
           CacheService.default_ttl CacheService.key_prefix].
      destruct (w =? 0) eqn:E0; [apply Z.eqb_eq in E0; lia|].
      destruct (w <=? 0) eqn:E1; [apply Z.leb_le in E1; lia|].
      reflexivity.
    + change (CacheService._make_key
                (CacheService.with_client cache
                   (Client (<[key := Entry (RInt (v + 1)) exp]> m) None))
                ("blocked_ip:" +:+ block_target identifier))
        with (blocked_key cache (block_target identifier)).
      split; [|split].
      * unfold count_of.
        rewrite lookup_insert_other by (apply blocked_key_not_counter).
        rewrite lookup_insert_live by exact Hlive. reflexivity.
      * unfold expiry_of at 1.
        rewrite lookup_insert_other by (apply blocked_key_not_counter).
        rewrite lookup_insert_live by exact Hlive. reflexivity.
      * intros other Hne.
        rewrite lookup_insert_ne by (apply blocked_key_not_counter).
        rewrite lookup_insert_ne; [reflexivity|].
        intros Heq. apply brute_force_key_inj in Heq. congruence.
  - eexists. split; [reflexivity|]. split; [|split].
    + unfold count_of. rewrite lookup_insert_live by exact Hlive. reflexivity.
    + unfold expiry_of at 1. rewrite lookup_insert_live by exact Hlive. reflexivity.
    + intros other Hne. rewrite lookup_insert_ne; [reflexivity|].
      intros Heq. apply brute_force_key_inj in Heq. congruence.
Qed.

End Attempts.

(** C5 as stated fails.  On its first part: after exactly three failed
    logins of one (address, username) pair on an empty store, the combo
    counter holds 3, which does not exceed 3: none of the three calls
    reports a block and no block entry exists.  On its second part: when the
    address text is ["user:alice"] and the username ["alice"], the address
    axis and the username axis share one key, which a single call
    increments twice and leaves with the shorter lifetime of the address
    axis. *)
Lemma combo_axis_after_three_counterexample :
  snd (track_failed_login_run fresh_cache (request_from "1.1.1.1" None) "alice"
         (Some "1.1.1.1") [0; 1; 2])
  = [false; false; false] /\
  count_of 2
    (keyspace_of
       (fst (track_failed_login_run fresh_cache (request_from "1.1.1.1" None) "alice"
               (Some "1.1.1.1") [0; 1; 2])))
    (brute_force_key fresh_cache "combo:1.1.1.1:alice")
  = Some 3 /\
  keyspace_of
    (fst (track_failed_login_run fresh_cache (request_from "1.1.1.1" None) "alice"
            (Some "1.1.1.1") [0; 1; 2]))
    !! blocked_key fresh_cache "1.1.1.1" = None /\
  keyspace_of
    (fst (track_failed_login_run fresh_cache (request_from "1.1.1.1" None) "alice"
            (Some "1.1.1.1") [0; 1; 2]))
    !! blocked_key fresh_cache "alice" = None /\
  brute_force_key fresh_cache "user:alice"
  = brute_force_key fresh_cache ("user:" +:+ "alice") /\
  count_of 0
    (keyspace_of
       (fst (track_failed_login fresh_cache (request_from "1.1.1.1" None) 0 "alice"
               (Some "user:alice"))))
    (brute_force_key fresh_cache "user:alice")
  = Some 2 /\
  expiry_of 0
    (keyspace_of
       (fst (track_failed_login fresh_cache (request_from "1.1.1.1" None) 0 "alice"
               (Some "user:alice"))))
    (brute_force_key fresh_cache "user:alice")
  = Some (Some 900).
Proof. repeat split; vm_compute; reflexivity. Qed.

(** C5, amended.  On a store that is up, where each of the three axis keys
    (address, username, address and username) is absent or holds a counter
    below the largest integer of the server, and where the address text is
    not ["user:<username>"] (so that the three keys are distinct), one call
    of [track_failed_login] increments the three axis counters by one each;
    a counter that is new expires after its axis window (900, 1800 and 600
    seconds), one that exists keeps its expiry; and the call reports a block
    exactly when some counter, after the increment, exceeds its maximum
    (10, 5 and 3).  So the combo axis trips on the fourth failed login of a
    pair in a window (count 4 > 3), not on the third. *)
Theorem track_failed_login_counts :
  forall (cache : CacheService.t) (m : keyspace) (req : request) (now : Z)
         (username : string) (ip_address : option string) (a u c : Z),
    healthy cache m ->
    ip_or_client_ip req ip_address <> "user:" +:+ username ->
    count_of now m (brute_force_key cache (ip_or_client_ip req ip_address)) = Some a ->
    count_of now m (brute_force_key cache ("user:" +:+ username)) = Some u ->
    count_of now m
      (brute_force_key cache
         ("combo:" +:+ ip_or_client_ip req ip_address +:+ ":" +:+ username))
    = Some c ->
    int64_min <= a < int64_max ->
    int64_min <= u < int64_max ->
    int64_min <= c < int64_max ->
    let after := keyspace_of (fst (track_failed_login cache req now username ip_address)) in
    let axis (identifier : string) (w : Z) (v : Z) :=
      count_of now after (brute_force_key cache identifier) = Some (v + 1) /\
      expiry_of now after (brute_force_key cache identifier)
      = Some (match expiry_of now m (brute_force_key cache identifier) with
              | Some x => x
              | None => Some (now + w)
              end) in
    snd (track_failed_login cache req now username ip_address)
    = (a + 1 >? 10) || (u + 1 >? 5) || (c + 1 >? 3) /\
    axis (ip_or_client_ip req ip_address) 900 a /\
    axis ("user:" +:+ username) 1800 u /\
    axis ("combo:" +:+ ip_or_client_ip req ip_address +:+ ":" +:+ username) 600 c.
Proof.
  intros cache m req now username ip_address a u c Hh Hne Ha Hu Hc Ra Ru Rc.
  set (ip := ip_or_client_ip req ip_address) in *.
  set (user := "user:" +:+ username) in *.
  set (combo := "combo:" +:+ ip +:+ ":" +:+ username) in *.
  assert (Hic : ip <> combo) by apply ip_not_combo.
  assert (Huc : user <> combo) by apply user_not_combo.
  destruct (check_brute_force_step now cache m ip 10 900 a Hh ltac:(lia) Ha Ra)
    as [m1 [E1 [C1 [X1 F1]]]].
  set (cache1 := CacheService.with_client cache (Client m1 None)) in *.
  assert (Hu1 : count_of now m1 (brute_force_key cache1 user) = Some u).
  { change (brute_force_key cache1 user) with (brute_force_key cache user).
    rewrite (count_of_same now m m1) by (apply F1; congruence). exact Hu. }
  destruct (check_brute_force_step now cache1 m1 user 5 1800 u eq_refl ltac:(lia) Hu1 Ru)
    as [m2 [E2 [C2 [X2 F2]]]].
  set (cache2 := CacheService.with_client cache1 (Client m2 None)) in *.
  assert (Hc2 : count_of now m2 (brute_force_key cache2 combo) = Some c).
  { change (brute_force_key cache2 combo) with (brute_force_key cache combo).
    rewrite (count_of_same now m1 m2) by (apply F2; congruence).
    rewrite (count_of_same now m m1) by (apply F1; congruence). exact Hc. }
  destruct (check_brute_force_step now cache2 m2 combo 3 600 c eq_refl ltac:(lia) Hc2 Rc)
    as [m3 [E3 [C3 [X3 F3]]]].
  assert (Hrun : track_failed_login cache req now username ip_address
                 = (CacheService.with_client cache2 (Client m3 None),
                    (a + 1 >? 10) || (u + 1 >? 5) || (c + 1 >? 3))).
  { unfold track_failed_login, CacheService.is_available. rewrite Hh. cbn [negb].
    fold ip. rewrite E1. cbv beta iota zeta.
    fold user. fold cache1. rewrite E2. cbv beta iota zeta.
    fold combo. fold cache2. rewrite E3. reflexivity. }
  rewrite Hrun. cbv zeta. cbn [fst snd].
  change (keyspace_of (CacheService.with_client cache2 (Client m3 None))) with m3.
  change (brute_force_key cache1) with (brute_force_key cache) in *.
  change (brute_force_key cache2) with (brute_force_key cache) in *.
  split; [reflexivity|]. repeat split.
  - rewrite (count_of_same now m2 m3) by (apply F3; congruence).
    rewrite (count_of_same now m1 m2) by (apply F2; congruence). exact C1.
  - rewrite (expiry_of_same now m2 m3) by (apply F3; congruence).
    rewrite (expiry_of_same now m1 m2) by (apply F2; congruence). exact X1.
  - rewrite (count_of_same now m2 m3) by (apply F3; congruence). exact C2.
  - rewrite (expiry_of_same now m2 m3) by (apply F3; congruence).
    rewrite X2. rewrite (expiry_of_same now m m1) by (apply F1; congruence).
    reflexivity.
  - exact C3.
  - rewrite X3. rewrite (expiry_of_same now m1 m2) by (apply F2; congruence).
    rewrite (expiry_of_same now m m1) by (apply F1; congruence). reflexivity.
Qed.

(** The instance of C5 (amended) at the fourth failed login for ["alice"]
    from 1.1.1.1: the three counters go from 3 to 4 and the call reports a
    block, by the combo axis alone. *)
Lemma track_failed_login_counts_witness :
  snd (track_failed_login three_failures (request_from "1.1.1.1" None) 3 "alice"
         (Some "1.1.1.1"))
  = (3 + 1 >? 10) || (3 + 1 >? 5) || (3 + 1 >? 3) /\
  (count_of 3 (keyspace_of four_failures) (brute_force_key three_failures "1.1.1.1")
   = Some (3 + 1) /\
   expiry_of 3 (keyspace_of four_failures) (brute_force_key three_failures "1.1.1.1")
   = Some (Some 900)) /\
  (count_of 3 (keyspace_of four_failures) (brute_force_key three_failures "user:alice")
   = Some (3 + 1) /\
   expiry_of 3 (keyspace_of four_failures) (brute_force_key three_failures "user:alice")
   = Some (Some 1800)) /\
  (count_of 3 (keyspace_of four_failures)
     (brute_force_key three_failures "combo:1.1.1.1:alice")
   = Some (3 + 1) /\
   expiry_of 3 (keyspace_of four_failures)
     (brute_force_key three_failures "combo:1.1.1.1:alice")
   = Some (Some 600)).
Proof.
  exact (track_failed_login_counts three_failures (keyspace_of three_failures)
           (request_from "1.1.1.1" None) 3 "alice" (Some "1.1.1.1") 3 3 3
           ltac:(vm_compute; reflexivity)
           ltac:(vm_compute; discriminate)
           ltac:(vm_compute; reflexivity)
           ltac:(vm_compute; reflexivity)
           ltac:(vm_compute; reflexivity)
           ltac:(unfold int64_min, int64_max; lia)
           ltac:(unfold int64_min, int64_max; lia)
           ltac:(unfold int64_min, int64_max; lia)).
Defined.

(** ** The target of a brute-force block *)

Section Target.

Lemma append_cons (ch : ascii) (a b : string) :
  String ch a +:+ b = String ch (a +:+ b).
Proof. reflexivity. Qed.

Lemma append_empty_r (s : string) : s +:+ "" = s.
Proof.
  induction s as [|ch s IH]; [reflexivity|]. rewrite append_cons, IH. reflexivity.
Qed.

Lemma append_char_assoc (a : string) (ch : ascii) (b : string) :
  (a +:+ String ch "") +:+ b = a +:+ String ch b.
Proof.
  induction a as [|c0 a IH]; [reflexivity|]. rewrite !append_cons, IH. reflexivity.
Qed.

Lemma split_acc_plain (sep : ascii) (s : string) :
  contains sep s = false -> forall cur, split_acc sep cur s = [cur +:+ s].
Proof.
  induction s as [|ch s IH]; simpl; intros Hs cur.
  - rewrite append_empty_r. reflexivity.
  - apply orb_false_iff in Hs as [Hch Hs]. rewrite Hch.
    rewrite (IH Hs). rewrite append_char_assoc. reflexivity.
Qed.

Lemma split_acc_nonempty (sep : ascii) (s cur : string) : split_acc sep cur s <> [].
Proof.
  revert cur. induction s as [|ch s IH]; simpl; intros cur; [discriminate|].
  destruct (Ascii.eqb ch sep); [discriminate|apply IH].
Qed.

Lemma split_acc_last (sep : ascii) (u : string) :
  contains sep u = false ->
  forall (a cur : string),
    last_or "" (split_acc sep cur (a +:+ String sep u)) = u.
Proof.
  intros Hu. unfold last_or.
  induction a as [|ch a IH]; intros cur.
  - change ("" +:+ String sep u) with (String sep u). simpl.
    rewrite Ascii.eqb_refl. rewrite (split_acc_plain sep u Hu). reflexivity.
  - rewrite append_cons. simpl.
    destruct (Ascii.eqb ch sep); [|apply IH].
    specialize (IH ""%string).
    destruct (split_acc sep "" (a +:+ String sep u)) as [|x l] eqn:E.
    + exfalso. exact (split_acc_nonempty _ _ _ E).
    + exact IH.
Qed.

Lemma contains_append (sep : ascii) (a b : string) :
contains sep (a +:+ String sep b) = true.
Proof.
induction a as [|ch a IH]; simpl.
- rewrite Ascii.eqb_refl. reflexivity.
- rewrite IH. apply orb_true_r.
Qed.

(** Whatever precedes the last colon of the identifier is dropped: the
  username and the combo axes hand the username to [block_ip]. *)
Lemma block_target_last_segment (prefix username : string) :
contains ":" username = false ->
block_target (prefix +:+ String ":" username) = username.
Proof.
intros Hu. unfold block_target. rewrite contains_append.
unfold split. apply split_acc_last. exact Hu.
Qed.

Lemma block_target_of_axes (ip username : string) :
contains ":" username = false ->
block_target ("user:" +:+ username) = username /\
block_target ("combo:" +:+ ip +:+ ":" +:+ username) = username.
Proof.
intros Hu. split.
- apply (block_target_last_segment "user" username Hu).
- change ("combo:" +:+ ip +:+ ":" +:+ username)
    with (String "c" (String "o" (String "m" (String "b" (String "o" (String ":"
            (ip +:+ String ":" username))))))).
  replace (String "c" (String "o" (String "m" (String "b" (String "o" (String ":"
            (ip +:+ String ":" username)))))))
    with (("combo:" +:+ ip) +:+ String ":" username).
  + apply block_target_last_segment. exact Hu.
  + simpl. reflexivity.
Qed.

End Target.

(** C2, evaluated at the fourth failed login for ["alice"] from 1.1.1.1 on
    an empty store.  The call reports a block (the combo counter reaches 4),
    and the entry it writes is [blocked_ip:alice]: [block_ip] received the
    text after the last colon of ["combo:1.1.1.1:alice"], the username.
    There is no entry for 1.1.1.1, which [is_ip_blocked] still answers is
    not blocked. *)
Theorem brute_force_block_keyed_by_last_segment :
  snd (track_failed_login three_failures (request_from "1.1.1.1" None) 3 "alice"
         (Some "1.1.1.1")) = true /\
  block_target "combo:1.1.1.1:alice" = "alice" /\
  block_target "user:alice" = "alice" /\
  block_target "1.1.1.1" = "1.1.1.1" /\
  keyspace_of four_failures !! blocked_key four_failures "alice"
  = Some (Entry (RBlob [ ("blocked_at", AInt 3);
                         ("reason", AStr "Brute force protection");
                         ("duration", AInt 600) ]) (Some 603)) /\
  keyspace_of four_failures !! blocked_key four_failures "1.1.1.1" = None /\
  snd (is_ip_blocked four_failures (request_from "1.1.1.1" None) 4 None) = false.
Proof. repeat split; vm_compute; reflexivity. Qed.

(** ** A call-site custom limit *)

(** C1, evaluated at two call-site policies under the ['api'] category,
    whose built-in window is 60 seconds, for the client at 9.9.9.9 (budget
    scaled by 1.0) on an empty store.  A custom limit sets the budget, the
    lifetime of a new counter and the reset time that is reported, but the
    bucket in the counter key still comes from the built-in window of the
    category.

    Under the policy (2 requests, 120 seconds), the requests at 0, 50 and
    70 fall in one window of the policy, [0, 120); they are counted 1, 2
    and 1, so the third request, number [N + 1] of its window, is allowed
    with 1 remaining, while the metadata announces the reset at 120.

    Under the policy (2 requests, 30 seconds), the requests at 25 and 26
    fall in the window [0, 30) and the request at 31 is the first one of the
    next window, [30, 60); it is counted 3 and refused. *)
Theorem custom_policy_counted_in_builtin_buckets :
  dict_get default_limits "api" = Some (LimitConfig 100 60) /\
  adjusted_limit_of (LimitConfig 2 120)
    (_get_user_role_multiplier (request_from "9.9.9.9" (Some no_identity))) = Ok 2 /\
  (Z.quot 0 120 = 0 /\ Z.quot 50 120 = 0 /\ Z.quot 70 120 = 0) /\
  _get_rate_limit_key 50 "ip:9.9.9.9" "api" = Ok "rate_limit:api:ip:9.9.9.9:0" /\
  _get_rate_limit_key 70 "ip:9.9.9.9" "api" = Ok "rate_limit:api:ip:9.9.9.9:1" /\
  snd (check_rate_limit_run fresh_cache (request_from "9.9.9.9" (Some no_identity))
         "api" (Some (LimitConfig 2 120)) [0; 50; 70])
  = [ Ok (true, [ ("limit", AInt 2); ("remaining", AInt 1); ("reset_time", AInt 120);
                  ("retry_after", AInt 0); ("window", AInt 120);
                  ("identifier", AStr "ip") ]);
      Ok (true, [ ("limit", AInt 2); ("remaining", AInt 0); ("reset_time", AInt 120);
                  ("retry_after", AInt 0); ("window", AInt 120);
                  ("identifier", AStr "ip") ]);
      Ok (true, [ ("limit", AInt 2); ("remaining", AInt 1); ("reset_time", AInt 120);
                  ("retry_after", AInt 0); ("window", AInt 120);
                  ("identifier", AStr "ip") ]) ] /\
  (Z.quot 25 30 = 0 /\ Z.quot 26 30 = 0 /\ Z.quot 31 30 = 1) /\
  snd (check_rate_limit_run fresh_cache (request_from "9.9.9.9" (Some no_identity))
         "api" (Some (LimitConfig 2 30)) [25; 26; 31])
  = [ Ok (true, [ ("limit", AInt 2); ("remaining", AInt 1); ("reset_time", AInt 30);
                  ("retry_after", AInt 0); ("window", AInt 30);
                  ("identifier", AStr "ip") ]);
      Ok (true, [ ("limit", AInt 2); ("remaining", AInt 0); ("reset_time", AInt 30);
                  ("retry_after", AInt 0); ("window", AInt 30);
                  ("identifier", AStr "ip") ]);
      Ok (false, [ ("limit", AInt 2); ("remaining", AInt 0); ("reset_time", AInt 60);
                   ("retry_after", AInt 29); ("window", AInt 30);
                   ("identifier", AStr "ip") ]) ].
Proof. repeat split; vm_compute; reflexivity. Qed.

(** * Further properties of the limiter and of the cache service *)

(** ** What one call changes in the store *)

Section Frames.

Variable now : Z.

Lemma keyspace_of_with_client cache c :
  keyspace_of (CacheService.with_client cache c) = db c.
Proof. reflexivity. Qed.

(** An increment changes no key but its own, whatever the connection does. *)
Lemma increment_try_frame c k amount ttl k' :
  k' <> k ->
  db (fst (CacheService.increment_try now c k amount ttl)) !! k' = db c !! k'.
Proof.
  intros Hne. unfold CacheService.increment_try, Redis.exists_, execute, round_trip.
  destruct c as [m fa]. cbn [db fail_after].
  destruct (CacheService.ttl_truthy ttl) as [n|];
    destruct fa as [[|[|fa]]|]; cbn -[is_int64 Redis.lookup]; try reflexivity;
    destruct (is_int64 amount); cbn -[is_int64 Redis.lookup];
    destruct (Redis.lookup now m k) as [[[v|p] ex]|] eqn:El;
    cbn -[is_int64 Redis.lookup]; rewrite ?El; cbn -[is_int64 Redis.lookup];
    try reflexivity;
    repeat match goal with
      | |- context [is_int64 ?a && is_int64 ?b] =>
          destruct (is_int64 a && is_int64 b); cbn -[is_int64 Redis.lookup]
      | |- context [Redis.lookup now (<[k := ?e]> m) k] =>
          destruct (Redis.lookup now (<[k := e]> m) k); cbn -[is_int64 Redis.lookup]
      | |- context [if ?b then _ else _] => destruct b; cbn -[is_int64 Redis.lookup]
      end;
    rewrite ?El; cbn -[is_int64 Redis.lookup];
    rewrite ?lookup_delete_ne, ?lookup_insert_ne by congruence; reflexivity.
Qed.

Lemma increment_frame cache key amount ttl k' :
  k' <> CacheService._make_key cache key ->
  keyspace_of (fst (CacheService.increment cache now key amount ttl)) !! k'
  = keyspace_of cache !! k'.
Proof.
  intros Hne. unfold CacheService.increment, keyspace_of at 2.
  destruct (CacheService.redis_client cache) as [c|] eqn:Ec.
  - pose proof (increment_try_frame c _ amount ttl k' Hne) as H.
    destruct (CacheService.increment_try now c (CacheService._make_key cache key)
                amount ttl) as [c1 r].
    exact H.
  - unfold keyspace_of. cbn [fst]. rewrite Ec. reflexivity.
Qed.

(** [set] changes no key but its own. *)
Lemma set_frame cache key value ttl k' :
  k' <> CacheService._make_key cache key ->
  keyspace_of (fst (CacheService.set cache now key value ttl)) !! k'
  = keyspace_of cache !! k'.
Proof.
  intros Hne. unfold CacheService.set, keyspace_of at 2.
  destruct (CacheService.redis_client cache) as [c|] eqn:Ec.
  - unfold setex, round_trip. destruct c as [m [[|fa]|]]; cbn [db fail_after];
      try reflexivity;
      destruct (CacheService.ttl_or_default cache ttl <=? 0); cbn;
      rewrite ?lookup_insert_ne by congruence; reflexivity.
  - unfold keyspace_of. cbn [fst]. rewrite Ec. reflexivity.
Qed.

End Frames.

Lemma check_rate_limit_frame cache req now lt custom_limit k :
  (forall key, _get_rate_limit_key now (_get_client_identifier req) lt = Ok key ->
               k <> CacheService._make_key cache key) ->
  keyspace_of (fst (check_rate_limit cache req now lt custom_limit)) !! k
  = keyspace_of cache !! k.
Proof.
  intros Hk. unfold check_rate_limit.
  destruct (CacheService.is_available cache); cbn [negb]; [|reflexivity].
  unfold check_rate_limit_try.
  destruct (adjusted_limit_of (limit_config_for lt custom_limit)
              (_get_user_role_multiplier req)) as [N|e0];
    [|reflexivity].
  destruct (_get_rate_limit_key now (_get_client_identifier req) lt) as [key|e] eqn:Ek;
    [|reflexivity].
  pose proof (increment_frame now cache key 1
                (Some (window (limit_config_for lt custom_limit))) k (Hk key eq_refl))
    as H.
  destruct (CacheService.increment cache now key 1
              (Some (window (limit_config_for lt custom_limit)))) as [cache1 r].
  exact H.
Qed.

(** X1.  The quota check changes at most one key of the store, the counter
    of the caller for the category and the current window bucket; every
    other key is left as it was, whether the call succeeds, fails open or
    meets a connection error. *)
Theorem check_rate_limit_touches_only_its_counter :
  forall (cache : CacheService.t) (req : request) (now : Z) (lt : string)
         (custom_limit : option limit_config) (k : string),
    (forall key, _get_rate_limit_key now (_get_client_identifier req) lt = Ok key ->
                 k <> CacheService._make_key cache key) ->
    keyspace_of (fst (check_rate_limit cache req now lt custom_limit)) !! k
    = keyspace_of cache !! k.
Proof.
  intros cache req now lt custom_limit k Hk.
  apply check_rate_limit_frame. exact Hk.
Qed.

(** The instance of X1 at an ['api'] request of 9.9.9.9 and a brute-force
    counter left by three failed logins. *)
Lemma check_rate_limit_touches_only_its_counter_witness :
  keyspace_of (fst (check_rate_limit three_failures
                      (request_from "9.9.9.9" (Some no_identity)) 0 "api" None))
    !! "hospital_mgmt:brute_force:user:alice"
  = keyspace_of three_failures !! "hospital_mgmt:brute_force:user:alice".
Proof.
  apply (check_rate_limit_touches_only_its_counter three_failures
           (request_from "9.9.9.9" (Some no_identity)) 0 "api" None
           "hospital_mgmt:brute_force:user:alice").
  intros key Hkey. vm_compute in Hkey. injection Hkey as <-.
  vm_compute. discriminate.
Defined.

(** ** The metadata of a quota decision *)

Lemma identifier_kind req :
  first_or "" (split ":" (_get_client_identifier req))
  = match jwt req with
    | Some claims =>
        match truthy (identity claims) with Some _ => "user" | None => "ip" end
    | None => "ip"
    end.
Proof.
  unfold _get_client_identifier, get_jwt_identity, get_jwt.
  destruct (jwt req) as [claims|]; [|reflexivity].
  cbn [bind try_except]. destruct (truthy (identity claims)); reflexivity.
Qed.

(** X2.  A quota decision made at a non-negative clock reading under a
    positive window carries consistent metadata: the reported limit is the
    scaled budget, [remaining] is never negative, the reset time is the next
    multiple of the window after [now], and a refusal has [remaining = 0]
    and a [retry_after] between 1 and the window length that leads exactly
    to the reset time; an allowed request has [retry_after = 0]. *)
Theorem check_rate_limit_metadata :
  forall (cache : CacheService.t) (req : request) (now : Z) (lt : string)
         (custom_limit : option limit_config) (allowed : bool) (info : dict),
    0 <= now ->
    0 < window (limit_config_for lt custom_limit) ->
    snd (check_rate_limit cache req now lt custom_limit) = Ok (allowed, info) ->
    info <> [] ->
    exists limit remaining reset retry : Z,
      dict_get info "limit" = Some (AInt limit) /\
      dict_get info "remaining" = Some (AInt remaining) /\
      dict_get info "reset_time" = Some (AInt reset) /\
      dict_get info "retry_after" = Some (AInt retry) /\
      adjusted_limit_of (limit_config_for lt custom_limit)
        (_get_user_role_multiplier req) = Ok limit /\
      0 <= remaining /\
      now < reset <= now + window (limit_config_for lt custom_limit) /\
      reset mod window (limit_config_for lt custom_limit) = 0 /\
      (allowed = false ->
       remaining = 0 /\ retry = reset - now /\
       1 <= retry <= window (limit_config_for lt custom_limit)) /\
      (allowed = true -> retry = 0).
Proof.
  intros cache req now lt custom_limit allowed info Hnow Hw Hres Hinfo.
  destruct (check_rate_limit_shape cache req now lt custom_limit)
    as [Hopen|[N [key [count [HN [_ [_ [_ Hshape]]]]]]]].
  - rewrite Hopen in Hres. injection Hres as <- <-. contradiction.
  - rewrite Hshape in Hres. injection Hres as <- <-.
    set (w := window (limit_config_for lt custom_limit)) in *.
    assert (Hq : Z.quot now w = now / w) by (apply Z.quot_div_nonneg; lia).
    pose proof (Z.mul_div_le now w Hw) as Hlo.
    pose proof (Z.mul_succ_div_gt now w Hw) as Hhi.
    assert (Hmod : (Z.quot now w * w + w) mod w = 0).
    { replace (Z.quot now w * w + w) with ((Z.quot now w + 1) * w) by lia.
      apply Z_mod_mult. }
    eexists _, _, _, _.
    split; [reflexivity|]. split; [reflexivity|]. split; [reflexivity|].
    split; [reflexivity|]. split; [exact HN|].
    split; [lia|]. split; [rewrite Hq; lia|]. split; [exact Hmod|].
    split.
    + intros Hdenied. rewrite Hdenied. cbn [negb].
      apply Z.leb_gt in Hdenied. rewrite Hq. repeat split; lia.
    + intros Hallowed. rewrite Hallowed. reflexivity.
Qed.

(** The instance of X2 at the fourth request of the emergency scenario. *)
Lemma check_rate_limit_metadata_witness :
  exists limit remaining reset retry : Z,
    dict_get [ ("limit", AInt 3); ("remaining", AInt 0); ("reset_time", AInt 60);
               ("retry_after", AInt 50); ("window", AInt 60);
               ("identifier", AStr "ip") ] "limit" = Some (AInt limit) /\
    dict_get [ ("limit", AInt 3); ("remaining", AInt 0); ("reset_time", AInt 60);
               ("retry_after", AInt 50); ("window", AInt 60);
               ("identifier", AStr "ip") ] "remaining" = Some (AInt remaining) /\
    dict_get [ ("limit", AInt 3); ("remaining", AInt 0); ("reset_time", AInt 60);
               ("retry_after", AInt 50); ("window", AInt 60);
               ("identifier", AStr "ip") ] "reset_time" = Some (AInt reset) /\
    dict_get [ ("limit", AInt 3); ("remaining", AInt 0); ("reset_time", AInt 60);
               ("retry_after", AInt 50); ("window", AInt 60);
               ("identifier", AStr "ip") ] "retry_after" = Some (AInt retry) /\
    adjusted_limit_of (limit_config_for "emergency" None)
      (_get_user_role_multiplier (request_from "9.9.9.9" (Some no_identity)))
    = Ok limit /\
    0 <= remaining /\
    10 < reset <= 10 + window (limit_config_for "emergency" None) /\
    reset mod window (limit_config_for "emergency" None) = 0 /\
    (false = false ->
     remaining = 0 /\ retry = reset - 10 /\
     1 <= retry <= window (limit_config_for "emergency" None)) /\
    (false = true -> retry = 0).
Proof.
  apply (check_rate_limit_metadata
           (fst (check_rate_limit_run fresh_cache
                   (request_from "9.9.9.9" (Some no_identity)) "emergency" None
                   [0; 0; 0]))
           (request_from "9.9.9.9" (Some no_identity)) 10 "emergency" None false).
  - lia.
  - reflexivity.
  - vm_compute. reflexivity.
  - discriminate.
Defined.

(** X3.  The metadata of a quota decision names the kind of the caller only,
    never the caller: the ['identifier'] field is ["user"] when the token
    carries a non-empty identity and ["ip"] otherwise, whatever the user id,
    the principal type or the address contain. *)
Theorem limit_info_names_the_kind_only :
  forall (cache : CacheService.t) (req : request) (now : Z) (lt : string)
         (custom_limit : option limit_config) (allowed : bool) (info : dict),
    snd (check_rate_limit cache req now lt custom_limit) = Ok (allowed, info) ->
    info <> [] ->
    dict_get info "identifier"
    = Some (AStr match jwt req with
                 | Some claims =>
                     match truthy (identity claims) with
                     | Some _ => "user"
                     | None => "ip"
                     end
                 | None => "ip"
                 end).
Proof.
  intros cache req now lt custom_limit allowed info Hres Hinfo.
  destruct (check_rate_limit_shape cache req now lt custom_limit)
    as [Hopen|[N [key [count [_ [_ [_ [_ Hshape]]]]]]]].
  - rewrite Hopen in Hres. injection Hres as <- <-. contradiction.
  - rewrite Hshape in Hres. injection Hres as <- <-.
    cbn [dict_get String.eqb Ascii.eqb Bool.eqb]. rewrite identifier_kind. reflexivity.
Qed.

(** The instance of X3 at a token for user ["42:7"] of type ["admin:x"]. *)
Lemma limit_info_names_the_kind_only_witness :
  dict_get
    [ ("limit", AInt 100); ("remaining", AInt 99); ("reset_time", AInt 60);
      ("retry_after", AInt 0); ("window", AInt 60); ("identifier", AStr "user") ]
    "identifier"
  = Some (AStr "user").
Proof.
  apply (limit_info_names_the_kind_only fresh_cache
           (request_from "9.9.9.9" (Some (Claims (Some "42:7") (Some "admin:x") None)))
           0 "api" None true).
  - vm_compute. reflexivity.
  - discriminate.
Defined.

(** ** Counter keys *)

Section CounterKeys.

Lemma append_inj_r (c a b : string) : a +:+ c = b +:+ c -> a = b.
Proof.
  revert b. induction a as [|x a IH]; intros [|y b] H.
  - reflexivity.
  - apply (f_equal String.length) in H. rewrite !length_append in H.
    simpl in H. lia.
  - apply (f_equal String.length) in H. rewrite !length_append in H.
    simpl in H. lia.
  - rewrite !append_cons in H. injection H as -> H. f_equal. apply IH. exact H.
Qed.

Lemma builtin_name lt cfg :
  dict_get default_limits lt = Some cfg ->
  lt = "auth" \/ lt = "api" \/ lt = "upload" \/ lt = "emergency" \/ lt = "admin".
Proof.
  unfold default_limits. cbn -[String.eqb].
  repeat match goal with
         | |- context [String.eqb ?a lt] =>
             destruct (String.eqb_spec a lt); [subst lt; tauto|]
         end.
  discriminate.
Qed.

(** At one clock reading, two built-in categories and two identifiers have
    the same counter key only when they are the same. *)
Lemma rate_limit_key_inj now id1 id2 lt1 lt2 key :
  _get_rate_limit_key now id1 lt1 = Ok key ->
  _get_rate_limit_key now id2 lt2 = Ok key ->
  lt1 = lt2 /\ id1 = id2.
Proof.
  unfold _get_rate_limit_key, dict_index.
  destruct (dict_get default_limits lt1) as [cfg1|] eqn:E1; [|discriminate].
  destruct (dict_get default_limits lt2) as [cfg2|] eqn:E2; [|discriminate].
  cbn [bind]. unfold int_div.
  destruct (window cfg1 =? 0); [discriminate|].
  destruct (window cfg2 =? 0); [discriminate|].
  cbn [bind]. intros [= <-] [= H].
  assert (Hlt : lt1 = lt2).
  { apply builtin_name in E1. apply builtin_name in E2.
    destruct E1 as [->|[->|[->|[->| ->]]]];
      destruct E2 as [->|[->|[->|[->| ->]]]];
      try reflexivity; exfalso; cbv [String.append] in H; discriminate. }
  subst lt2. split; [reflexivity|].
  rewrite E1 in E2. injection E2 as <-.
  apply append_inj_l in H. apply append_inj_l in H. apply append_inj_l in H.
  apply append_inj_r in H. congruence.
Qed.

(** For one category and one client, different buckets have different keys. *)
Lemma counter_key_bucket_inj cache req lt b1 b2 :
  counter_key cache req lt b1 = counter_key cache req lt b2 -> b1 = b2.
Proof.
  unfold counter_key, CacheService._make_key. intros H.
  repeat apply append_inj_l in H.
  unfold str_of_int in H. apply (inj pretty) in H. exact H.
Qed.

End CounterKeys.

(** X4.  Quota counters are isolated: a quota check for one client and
    category never changes the counter that another client, or the same
    client under another built-in category, is using at that time. *)
Theorem quota_counters_are_isolated :
  forall (cache : CacheService.t) (req1 req2 : request) (now : Z)
         (lt1 lt2 : string) (custom_limit : option limit_config) (cfg2 : limit_config),
    dict_get default_limits lt2 = Some cfg2 ->
    lt1 <> lt2 \/ _get_client_identifier req1 <> _get_client_identifier req2 ->
    keyspace_of (fst (check_rate_limit cache req1 now lt1 custom_limit))
      !! counter_key cache req2 lt2 (Z.quot now (window cfg2))
    = keyspace_of cache !! counter_key cache req2 lt2 (Z.quot now (window cfg2)).
Proof.
  intros cache req1 req2 now lt1 lt2 custom_limit cfg2 Hcfg2 Hdiff.
  apply check_rate_limit_frame. intros key Hkey Heq.
  unfold counter_key, CacheService._make_key in Heq. apply append_inj_l in Heq.
  pose proof (rate_limit_key_builtin now (_get_client_identifier req2) lt2 cfg2 Hcfg2)
    as Hkey2.
  rewrite Heq in Hkey2.
  destruct (rate_limit_key_inj now _ _ _ _ key Hkey Hkey2) as [Hlt Hid].
  destruct Hdiff as [Hd|Hd]; contradiction.
Qed.

(** The instance of X4 at two addresses under ['api']. *)
Lemma quota_counters_are_isolated_witness :
  keyspace_of (fst (check_rate_limit fresh_cache (request_from "1.1.1.1" None) 0
                      "api" None))
    !! counter_key fresh_cache (request_from "2.2.2.2" None) "api"
         (Z.quot 0 (window (LimitConfig 100 60)))
  = keyspace_of fresh_cache
      !! counter_key fresh_cache (request_from "2.2.2.2" None) "api"
           (Z.quot 0 (window (LimitConfig 100 60))).
Proof.
  apply (quota_counters_are_isolated fresh_cache (request_from "1.1.1.1" None)
           (request_from "2.2.2.2" None) 0 "api" "api" None (LimitConfig 100 60)).
  - reflexivity.
  - right. vm_compute. discriminate.
Defined.

(** ** A new window *)

Section NewWindow.

(** On a connection that stays up, an increment leaves the connection up. *)
Lemma increment_try_stays_up now m k amount ttl :
  fail_after (fst (CacheService.increment_try now (Client m None) k amount ttl)) = None.
Proof.
  unfold CacheService.increment_try, Redis.exists_, execute, round_trip.
  cbn [db fail_after].
  destruct (CacheService.ttl_truthy ttl) as [n|]; cbn -[is_int64 Redis.lookup];
    destruct (is_int64 amount); cbn -[is_int64 Redis.lookup];
    destruct (Redis.lookup now m k) as [[[v|p] ex]|]; cbn -[is_int64 Redis.lookup];
    try reflexivity;
    repeat match goal with
      | |- context [is_int64 ?a && is_int64 ?b] =>
          destruct (is_int64 a && is_int64 b); cbn -[is_int64 Redis.lookup]
      | |- context [Redis.lookup now ?mm k] =>
          destruct (Redis.lookup now mm k) as [[[?|?] ?]|]; cbn -[is_int64 Redis.lookup]
      | |- context [if ?b then _ else _] => destruct b; cbn -[is_int64 Redis.lookup]
      end; reflexivity.
Qed.

Lemma check_rate_limit_stays_up cache m req now lt custom_limit :
  healthy cache m ->
  exists m',
    healthy (fst (check_rate_limit cache req now lt custom_limit)) m' /\
    CacheService.key_prefix (fst (check_rate_limit cache req now lt custom_limit))
    = CacheService.key_prefix cache.
Proof.
  intros Hh. unfold check_rate_limit, CacheService.is_available. rewrite Hh.
  cbn [negb]. unfold check_rate_limit_try.
  destruct (adjusted_limit_of (limit_config_for lt custom_limit)
              (_get_user_role_multiplier req)) as [N|e0];
    [|exists m; split; [exact Hh|reflexivity]].
  destruct (_get_rate_limit_key now (_get_client_identifier req) lt) as [key|e];
    [|exists m; split; [exact Hh|reflexivity]].
  unfold CacheService.increment. rewrite Hh.
  pose proof (increment_try_stays_up now m (CacheService._make_key cache key) 1
                (Some (window (limit_config_for lt custom_limit)))) as Hup.
  destruct (CacheService.increment_try now (Client m None)
              (CacheService._make_key cache key) 1
              (Some (window (limit_config_for lt custom_limit)))) as [[m1 fa] r].
  cbn [fst fail_after] in Hup. subst fa.
  exists m1. split; reflexivity.
Qed.

(** Requests of one bucket leave the keys of the other buckets alone. *)
Lemma run_leaves_other_keys req lt cfg b times :
  dict_get default_limits lt = Some cfg ->
  Forall (fun t => Z.quot t (window cfg) = b) times ->
  forall cache m k,
    healthy cache m ->
    k <> counter_key cache req lt b ->
    exists m',
      healthy (fst (check_rate_limit_run cache req lt None times)) m' /\
      CacheService.key_prefix (fst (check_rate_limit_run cache req lt None times))
      = CacheService.key_prefix cache /\
      m' !! k = m !! k.
Proof.
  intros Hcfg. induction 1 as [|t0 rest Hb Hrest IH]; intros cache m k Hh Hk.
  - exists m. cbn. auto.
  - cbn [check_rate_limit_run].
    destruct (check_rate_limit_stays_up cache m req t0 lt None Hh) as [m1 [Hh1 Hp1]].
    assert (Hf : keyspace_of (fst (check_rate_limit cache req t0 lt None)) !! k
                 = keyspace_of cache !! k).
    { apply check_rate_limit_frame. intros key Hkey.
      rewrite (rate_limit_key_builtin _ _ _ _ Hcfg) in Hkey. injection Hkey as <-.
      rewrite Hb. exact Hk. }
    destruct (check_rate_limit cache req t0 lt None) as [cache1 r] eqn:E1.
    cbn [fst] in *.
    assert (Hk1 : k <> counter_key cache1 req lt b).
    { unfold counter_key, CacheService._make_key in *. rewrite Hp1. exact Hk. }
    destruct (IH cache1 m1 k Hh1 Hk1) as [m' [Hh' [Hp' Hm']]].
    destruct (check_rate_limit_run cache1 req lt None rest) as [cache2 rs].
    cbn [fst] in *. exists m'. split; [exact Hh'|]. split; [congruence|].
    rewrite Hm'. unfold keyspace_of in Hf. rewrite Hh1, Hh in Hf. exact Hf.
Qed.

End NewWindow.

(** X5.  Window reset.  However many requests a client made in one window
    bucket of a built-in category, its first request in another bucket
    whose counter does not exist yet is counted as request number 1: it is
    allowed when the scaled budget is at least 1, with [remaining] one
    below the budget and a reset time at the end of the new bucket. *)
Theorem new_window_starts_at_one :
  forall (cache : CacheService.t) (m : keyspace) (req : request) (lt : string)
         (cfg : limit_config) (b : Z) (times : list Z) (t' : Z),
    healthy cache m ->
    dict_get default_limits lt = Some cfg ->
    Forall (fun t => Z.quot t (window cfg) = b) times ->
    Z.quot t' (window cfg) <> b ->
    m !! counter_key cache req lt (Z.quot t' (window cfg)) = None ->
    exists (N : Z) (info : dict),
      adjusted_limit_of cfg (_get_user_role_multiplier req) = Ok N /\
      snd (check_rate_limit (fst (check_rate_limit_run cache req lt None times))
             req t' lt None)
      = Ok (1 <=? N, info) /\
      dict_get info "limit" = Some (AInt N) /\
      dict_get info "remaining" = Some (AInt (Z.max 0 (N - 1))) /\
      dict_get info "reset_time"
      = Some (AInt (Z.quot t' (window cfg) * window cfg + window cfg)).
Proof.
  intros cache m req lt cfg b times t' Hh Hcfg Hall Hnew Hfresh.
  destruct (adjusted_limit_builtin lt cfg req Hcfg) as [N [HN _]].
  assert (Hk : counter_key cache req lt (Z.quot t' (window cfg))
               <> counter_key cache req lt b).
  { intros Heq. apply counter_key_bucket_inj in Heq. contradiction. }
  destruct (run_leaves_other_keys req lt cfg b times Hcfg Hall cache m _ Hh Hk)
    as [m' [Hh' [Hp' Hm']]].
  set (cache' := fst (check_rate_limit_run cache req lt None times)) in *.
  assert (Hl : Redis.lookup t' m' (counter_key cache' req lt (Z.quot t' (window cfg)))
               = None).
  { apply lookup_absent. unfold counter_key, CacheService._make_key in *.
    rewrite Hp'. rewrite Hm'. exact Hfresh. }
  rewrite (check_rate_limit_fresh req lt cfg N Hcfg HN cache' m' t' Hh' Hl).
  exists N. eexists. split; [exact HN|]. split; [reflexivity|].
  repeat split; reflexivity.
Qed.

(** The instance of X5 at the emergency scenario: four requests in bucket 0,
    then one at 61. *)
Lemma new_window_starts_at_one_witness :
  exists (N : Z) (info : dict),
    adjusted_limit_of (LimitConfig 3 60)
      (_get_user_role_multiplier (request_from "9.9.9.9" (Some no_identity))) = Ok N /\
    snd (check_rate_limit
           (fst (check_rate_limit_run fresh_cache
                   (request_from "9.9.9.9" (Some no_identity)) "emergency" None
                   [0; 0; 0; 10]))
           (request_from "9.9.9.9" (Some no_identity)) 61 "emergency" None)
    = Ok (1 <=? N, info) /\
    dict_get info "limit" = Some (AInt N) /\
    dict_get info "remaining" = Some (AInt (Z.max 0 (N - 1))) /\
    dict_get info "reset_time"
    = Some (AInt (Z.quot 61 (window (LimitConfig 3 60)) * window (LimitConfig 3 60)
                  + window (LimitConfig 3 60))).
Proof.
  apply (new_window_starts_at_one fresh_cache ∅
           (request_from "9.9.9.9" (Some no_identity)) "emergency"
           (LimitConfig 3 60) 0 [0; 0; 0; 10] 61).
  - reflexivity.
  - reflexivity.
  - repeat constructor.
  - vm_compute. discriminate.
  - reflexivity.
Defined.

(** ** Scaling is monotone *)

(** X6.  A bigger budget or a higher role multiplier never lowers the
    effective limit [int(requests * multiplier)], computed in floats: for
    non-negative budgets and multipliers, whenever the scaling of the bigger
    budget by the bigger multiplier returns a limit, so does the scaling of
    the smaller ones, and the limit it returns is not bigger (and not
    negative). *)
Theorem adjusted_limit_monotone :
  forall (cfg1 cfg2 : limit_config) (m1 m2 : Q) (N2 : Z),
    0 <= requests cfg1 <= requests cfg2 ->
    (0 <= m1)%Q -> (m1 <= m2)%Q ->
    adjusted_limit_of cfg2 m2 = Ok N2 ->
    exists N1 : Z, adjusted_limit_of cfg1 m1 = Ok N1 /\ 0 <= N1 <= N2.
Proof.
  intros cfg1 cfg2 m1 m2 N2. apply adjusted_limit_mono.
Qed.

(** The instance of X6 at the ['auth'] budget under the multipliers of
    ['user'] and ['admin']. *)
Lemma adjusted_limit_monotone_witness :
  exists N1 : Z, adjusted_limit_of (LimitConfig 5 300) 1 = Ok N1 /\ 0 <= N1 <= 15.
Proof.
  apply (adjusted_limit_monotone (LimitConfig 5 300) (LimitConfig 5 300) 1%Q 3%Q 15).
  - simpl. lia.
  - discriminate.
  - discriminate.
  - vm_compute. reflexivity.
Defined.

(** ** Blocks *)



(** X8.  [block_ip] answers [True] whenever the store is configured, also
    when the write did not happen: with a negative duration (Redis refuses
    the expiry) or on a connection that raises, the answer is [True] and the
    keyspace is unchanged, so the address is not blocked. *)
Theorem block_ip_reports_success_without_writing :
  forall (cache : CacheService.t) (c : client) (now : Z) (ip : string)
         (duration : Z) (reason : string),
    CacheService.redis_client cache = Some c ->
    duration < 0 \/ fail_after c = Some 0%nat ->
    snd (block_ip cache now ip duration reason) = true /\
    keyspace_of (fst (block_ip cache now ip duration reason)) = db c.
Proof.
  intros cache c now ip duration reason Hc Hbad.
  unfold block_ip, CacheService.is_available, CacheService.set, setex, round_trip,
    CacheService.ttl_or_default.
  rewrite Hc. cbn [negb].
  destruct c as [m fa]. cbn [fail_after db] in *.
  destruct Hbad as [Hneg| ->].
  - destruct (duration =? 0) eqn:E0; [apply Z.eqb_eq in E0; lia|].
    destruct (duration <=? 0) eqn:E1; [|apply Z.leb_gt in E1; lia].
    destruct fa as [[|n]|]; split; reflexivity.
  - split; reflexivity.
Qed.

(** The instance of X8 at the duration -1. *)
Lemma block_ip_reports_success_without_writing_witness :
  snd (block_ip fresh_cache 0 "1.1.1.1" (-1) "Rate limit exceeded") = true /\
  keyspace_of (fst (block_ip fresh_cache 0 "1.1.1.1" (-1) "Rate limit exceeded"))
  = db (Client ∅ None).
Proof.
  apply (block_ip_reports_success_without_writing fresh_cache (Client ∅ None) 0
           "1.1.1.1" (-1) "Rate limit exceeded").
  - reflexivity.
  - left. lia.
Defined.

(** ** Brute-force escalation *)

Section Escalation.

Lemma contains_app_false (sep : ascii) (a b : string) :
  contains sep a = false -> contains sep b = false -> contains sep (a +:+ b) = false.
Proof.
  intros Ha Hb. induction a as [|ch a IH]; [exact Hb|].
  rewrite append_cons. simpl in *. apply orb_false_iff in Ha as [Hch Ha].
  rewrite Hch. simpl. apply IH. exact Ha.
Qed.

Lemma split_acc_segments (sep : ascii) (s : string) :
  forall cur, contains sep cur = false ->
              Forall (fun seg => contains sep seg = false) (split_acc sep cur s).
Proof.
  induction s as [|ch s IH]; intros cur Hcur; simpl.
  - constructor; [exact Hcur|constructor].
  - destruct (Ascii.eqb ch sep) eqn:E.
    + constructor; [exact Hcur|]. apply IH. reflexivity.
    + apply IH. apply contains_app_false; [exact Hcur|].
      simpl. rewrite E. reflexivity.
Qed.

Lemma last_in_Forall {A} (P : A -> Prop) (l : list A) (d : A) :
  P d -> Forall P l -> P (List.last l d).
Proof.
  intros Hd. induction 1 as [|x l Hx Hl IH]; [exact Hd|].
  destruct l as [|y l]; [exact Hx|exact IH].
Qed.

(** What [check_brute_force_protection] hands to [block_ip] has no colon. *)
Lemma block_target_no_colon (identifier : string) :
  contains ":" (block_target identifier) = false.
Proof.
  unfold block_target. destruct (contains ":" identifier) eqn:E; [|exact E].
  unfold last_or, split. apply last_in_Forall; [reflexivity|].
  apply split_acc_segments. reflexivity.
Qed.

Lemma increment_prefix cache now key amount ttl :
  CacheService.key_prefix (fst (CacheService.increment cache now key amount ttl))
  = CacheService.key_prefix cache.
Proof.
  unfold CacheService.increment.
  destruct (CacheService.redis_client cache) as [c|]; [|reflexivity].
  destruct (CacheService.increment_try now c (CacheService._make_key cache key)
              amount ttl).
  reflexivity.
Qed.

Lemma set_prefix cache now key value ttl :
  CacheService.key_prefix (fst (CacheService.set cache now key value ttl))
  = CacheService.key_prefix cache.
Proof.
  unfold CacheService.set.
  destruct (CacheService.redis_client cache) as [c|]; [|reflexivity].
  destruct (setex now c (CacheService._make_key cache key)
              (CacheService.ttl_or_default cache ttl) (RBlob value)).
  reflexivity.
Qed.

(** One call of the detector changes at most the counter of its identifier
    and the block entry of its target, on every store and connection. *)
Lemma check_brute_force_frame cache now identifier max_attempts w k :
  k <> brute_force_key cache identifier ->
  k <> blocked_key cache (block_target identifier) ->
  keyspace_of (fst (check_brute_force_protection cache now identifier max_attempts w))
    !! k = keyspace_of cache !! k /\
  CacheService.key_prefix
    (fst (check_brute_force_protection cache now identifier max_attempts w))
  = CacheService.key_prefix cache.
Proof.
  intros Hk1 Hk2. unfold check_brute_force_protection.
  destruct (CacheService.is_available cache); cbn [negb]; [|split; reflexivity].
  pose proof (increment_frame now cache ("brute_force:" +:+ identifier) 1 (Some w) k Hk1)
    as Hf.
  pose proof (increment_prefix cache now ("brute_force:" +:+ identifier) 1 (Some w))
    as Hp.
  destruct (CacheService.increment cache now ("brute_force:" +:+ identifier) 1 (Some w))
    as [cache1 r].
  cbn [fst] in Hf, Hp.
  destruct (default 0 r >? max_attempts); [|split; assumption].
  unfold block_ip.
  destruct (CacheService.is_available cache1); cbn [negb]; [|split; assumption].
  assert (Hk2' : k <> CacheService._make_key cache1
                        ("blocked_ip:" +:+ block_target identifier)).
  { unfold CacheService._make_key. rewrite Hp. exact Hk2. }
  pose proof (set_frame now cache1 ("blocked_ip:" +:+ block_target identifier)
                [ ("blocked_at", AInt now); ("reason", AStr "Brute force protection");
                  ("duration", AInt w) ] (Some w) k Hk2') as Hs.
  pose proof (set_prefix cache1 now ("blocked_ip:" +:+ block_target identifier)
                [ ("blocked_at", AInt now); ("reason", AStr "Brute force protection");
                  ("duration", AInt w) ] (Some w)) as Hsp.
  destruct (CacheService.set cache1 now ("blocked_ip:" +:+ block_target identifier)
              [ ("blocked_at", AInt now); ("reason", AStr "Brute force protection");
                ("duration", AInt w) ] (Some w)) as [cache2 b].
  cbn [fst] in *. split; congruence.
Qed.

(** The block entry of an address that contains a colon is out of reach of
    the detector. *)
Lemma check_brute_force_spares_colon_address cache now identifier max_attempts w A :
  contains ":" A = true ->
  keyspace_of (fst (check_brute_force_protection cache now identifier max_attempts w))
    !! blocked_key cache A = keyspace_of cache !! blocked_key cache A /\
  CacheService.key_prefix
    (fst (check_brute_force_protection cache now identifier max_attempts w))
  = CacheService.key_prefix cache.
Proof.
  intros HA. apply check_brute_force_frame.
  - apply blocked_key_not_counter.
  - intros Heq. unfold blocked_key, CacheService._make_key in Heq.
    apply append_inj_l in Heq. apply append_inj_l in Heq.
    pose proof (block_target_no_colon identifier) as Hno.
    rewrite <- Heq in Hno. congruence.
Qed.

End Escalation.

(** X9.  An address that contains a colon (an IPv6 address) is never blocked
    by failed-login tracking: whatever the store holds and however many
    attempts were counted, [track_failed_login] leaves the block entry of
    such an address as it was, because what reaches [block_ip] is always the
    text after the last colon. *)
Theorem failed_logins_never_block_colon_address :
  forall (cache : CacheService.t) (req : request) (now : Z) (username : string)
         (ip_address : option string) (A : string),
    contains ":" A = true ->
    keyspace_of (fst (track_failed_login cache req now username ip_address))
      !! blocked_key cache A
    = keyspace_of cache !! blocked_key cache A.
Proof.
  intros cache req now username ip_address A HA.
  unfold track_failed_login.
  destruct (CacheService.is_available cache); cbn [negb]; [|reflexivity].
  set (ip := ip_or_client_ip req ip_address).
  destruct (check_brute_force_spares_colon_address cache now ip 10 900 A HA)
    as [F1 P1].
  destruct (check_brute_force_protection cache now ip 10 900)
    as [cache1 [b1 a1]].
  cbn [fst] in F1, P1.
  destruct (check_brute_force_spares_colon_address cache1 now ("user:" +:+ username)
              5 1800 A HA) as [F2 P2].
  destruct (check_brute_force_protection cache1 now ("user:" +:+ username) 5 1800)
    as [cache2 [b2 a2]].
  cbn [fst] in F2, P2.
  destruct (check_brute_force_spares_colon_address cache2 now
              ("combo:" +:+ ip +:+ ":" +:+ username) 3 600 A HA) as [F3 P3].
  destruct (check_brute_force_protection cache2 now
              ("combo:" +:+ ip +:+ ":" +:+ username) 3 600)
    as [cache3 [b3 a3]].
  cbn [fst] in F3 |- *.
  unfold blocked_key, CacheService._make_key in *.
  rewrite P2, P1 in F3. rewrite P1 in F2. congruence.
Qed.

(** The instance of X9 at the address 2001:db8::1. *)
Lemma failed_logins_never_block_colon_address_witness :
  keyspace_of (fst (track_failed_login fresh_cache (request_from "2001:db8::1" None)
                      0 "alice" None))
    !! blocked_key fresh_cache "2001:db8::1"
  = keyspace_of fresh_cache !! blocked_key fresh_cache "2001:db8::1".
Proof.
  apply (failed_logins_never_block_colon_address fresh_cache
           (request_from "2001:db8::1" None) 0 "alice" None "2001:db8::1").
  reflexivity.
Defined.

Section Tripping.

Variable now : Z.


(** At the largest integer of the server the detector stops counting: the
    increment is refused, the attempt is reported as number 0, and nothing
    is written. *)
Lemma check_brute_force_at_ceiling cache m identifier max_attempts w exp :
  healthy cache m -> 0 <= max_attempts ->
  Redis.lookup now m (brute_force_key cache identifier)
  = Some (Entry (RInt int64_max) exp) ->
  check_brute_force_protection cache now identifier max_attempts w
  = (CacheService.with_client cache (Client m None), (false, 0)).
Proof.
  intros Hh Hmax Hl. unfold healthy in Hh.
  unfold check_brute_force_protection, CacheService.is_available.
  rewrite Hh. cbn [negb]. unfold CacheService.increment. rewrite Hh.
  unfold brute_force_key in Hl.
  rewrite (increment_try_out_of_range now m _ 1 (Some w) int64_max exp Hl eq_refl).
  change (default 0 None) with 0.
  destruct (0 >? max_attempts) eqn:E; [|reflexivity].
  rewrite Z.gtb_ltb in E. apply Z.ltb_lt in E. lia.
Qed.


End Tripping.



Section AttemptWindow.




Variables (identifier : string) (max_attempts w : Z).
Hypothesis Hw : 0 < w.


End AttemptWindow.



(** ** A connection that raises, everywhere *)

(** X12.  On a connection on which every Redis round trip raises, the whole
    protection is inert: the enforcement wrapper lets every request through
    to the endpoint with empty metadata, for built-in and unknown categories
    alike, [track_failed_login] reports no block, and nothing is written. *)
Theorem failing_connection_admits_everything :
  forall (cache : CacheService.t) (m : keyspace) (req : request) (now : Z)
         (lt : string) (custom_limit : option limit_config) (username : string)
         (ip_address : option string),
    CacheService.redis_client cache = Some (Client m (Some 0%nat)) ->
    snd (rate_limit cache req now lt custom_limit) = Ok (Proceed []) /\
    keyspace_of (fst (rate_limit cache req now lt custom_limit)) = m /\
    snd (track_failed_login cache req now username ip_address) = false /\
    keyspace_of (fst (track_failed_login cache req now username ip_address)) = m.
Proof.
  intros cache m req now lt custom_limit username ip_address Hc.
  split; [|split; [|split]].
  - unfold rate_limit, is_ip_blocked, CacheService.is_available,
      CacheService.exists_, Redis.exists_, round_trip.
    rewrite !Hc. cbn [negb fail_after].
    destruct (check_rate_limit_down
                (CacheService.with_client cache (Client m (Some 0%nat)))
                req now lt custom_limit m eq_refl) as [Hr _].
    destruct (check_rate_limit (CacheService.with_client cache (Client m (Some 0%nat)))
                req now lt custom_limit) as [cache2 r].
    cbn [snd] in *. rewrite Hr. reflexivity.
  - unfold rate_limit, is_ip_blocked, CacheService.is_available,
      CacheService.exists_, Redis.exists_, round_trip.
    rewrite !Hc. cbn [negb fail_after].
    destruct (check_rate_limit_down
                (CacheService.with_client cache (Client m (Some 0%nat)))
                req now lt custom_limit m eq_refl) as [_ Hk].
    destruct (check_rate_limit (CacheService.with_client cache (Client m (Some 0%nat)))
                req now lt custom_limit) as [cache2 r].
    cbn [fst] in *. exact Hk.
  - unfold track_failed_login, CacheService.is_available. rewrite Hc. cbn [negb].
    rewrite (check_brute_force_down cache now _ 10 900 m Hc) by lia.
    cbv beta iota zeta.
    rewrite (check_brute_force_down
               (CacheService.with_client cache (Client m (Some 0%nat)))
               now _ 5 1800 m eq_refl) by lia.
    cbv beta iota zeta.
    rewrite (check_brute_force_down
               (CacheService.with_client
                  (CacheService.with_client cache (Client m (Some 0%nat)))
                  (Client m (Some 0%nat)))
               now _ 3 600 m eq_refl) by lia.
    reflexivity.
  - unfold track_failed_login, CacheService.is_available. rewrite Hc. cbn [negb].
    rewrite (check_brute_force_down cache now _ 10 900 m Hc) by lia.
    cbv beta iota zeta.
    rewrite (check_brute_force_down
               (CacheService.with_client cache (Client m (Some 0%nat)))
               now _ 5 1800 m eq_refl) by lia.
    cbv beta iota zeta.
    rewrite (check_brute_force_down
               (CacheService.with_client
                  (CacheService.with_client cache (Client m (Some 0%nat)))
                  (Client m (Some 0%nat)))
               now _ 3 600 m eq_refl) by lia.
    reflexivity.
Qed.

(** The instance of X12 at a caller whose block entry is in the store. *)
Lemma failing_connection_admits_everything_witness :
  snd (rate_limit
         (CacheService.Make (Some (Client (keyspace_of four_failures) (Some 0%nat)))
            3600 "hospital_mgmt:")
         (request_from "alice" None) 4 "api" None)
  = Ok (Proceed []) /\
  keyspace_of
    (fst (rate_limit
            (CacheService.Make (Some (Client (keyspace_of four_failures) (Some 0%nat)))
               3600 "hospital_mgmt:")
            (request_from "alice" None) 4 "api" None))
  = keyspace_of four_failures /\
  snd (track_failed_login
         (CacheService.Make (Some (Client (keyspace_of four_failures) (Some 0%nat)))
            3600 "hospital_mgmt:")
         (request_from "alice" None) 4 "alice" None)
  = false /\
  keyspace_of
    (fst (track_failed_login
            (CacheService.Make (Some (Client (keyspace_of four_failures) (Some 0%nat)))
               3600 "hospital_mgmt:")
            (request_from "alice" None) 4 "alice" None))
  = keyspace_of four_failures.
Proof.
  apply (failing_connection_admits_everything
           (CacheService.Make (Some (Client (keyspace_of four_failures) (Some 0%nat)))
              3600 "hospital_mgmt:")
           (keyspace_of four_failures) (request_from "alice" None) 4 "api" None
           "alice" None).
  reflexivity.
Defined.

(** ** The cache service: values and their lifetime *)

Section Values.


Lemma get_up cache m t key :
  healthy cache m ->
  CacheService.get cache t key
  = (CacheService.with_client cache (Client m None),
     match Redis.lookup t m (CacheService._make_key cache key) with
     | Some (Entry (RInt n) _) => Some (CacheService.CInt n)
     | Some (Entry (RBlob d) _) => Some (CacheService.CDict d)
     | None => None
     end).
Proof.
  intros Hh. unfold healthy in Hh. unfold CacheService.get, Redis.get, round_trip.
  rewrite Hh. cbn [fail_after db].
  destruct (Redis.lookup t m (CacheService._make_key cache key)) as [[[n|d] ex]|];
    reflexivity.
Qed.

Lemma get_with_client cache m t key :
  CacheService.get (CacheService.with_client cache (Client m None)) t key
  = (CacheService.with_client cache (Client m None),
     match Redis.lookup t m (CacheService._make_key cache key) with
     | Some (Entry (RInt n) _) => Some (CacheService.CInt n)
     | Some (Entry (RBlob d) _) => Some (CacheService.CDict d)
     | None => None
     end).
Proof. apply (get_up (CacheService.with_client cache (Client m None)) m t key eq_refl). Qed.


End Values.



(** X14.  [delete] removes the key and nothing else: on a store that is up
    it answers [True] whether or not the key existed, [get] returns [None]
    for the key from then on, and every other key is left as it was. *)
Theorem delete_removes_the_key :
  forall (cache : CacheService.t) (m : keyspace) (now : Z) (key : string) (t : Z),
    healthy cache m ->
    now <= t ->
    snd (CacheService.delete cache now key) = true /\
    snd (CacheService.get (fst (CacheService.delete cache now key)) t key) = None /\
    forall k, k <> CacheService._make_key cache key ->
              keyspace_of (fst (CacheService.delete cache now key)) !! k = m !! k.
Proof.
  intros cache m now key t Hh Hnow. unfold healthy in Hh.
  unfold CacheService.delete, del, round_trip. rewrite Hh.
  cbn [fail_after db delete_keys].
  destruct (Redis.lookup now m (CacheService._make_key cache key)) as [e|] eqn:El.
  - cbn [fst snd is_ok]. split; [reflexivity|]. split.
    + rewrite get_with_client. cbn [snd].
      unfold Redis.lookup. rewrite lookup_delete_eq. reflexivity.
    + intros k Hk. apply lookup_delete_ne. congruence.
  - cbn [fst snd is_ok]. split; [reflexivity|]. split.
    + rewrite get_with_client. cbn [snd].
      unfold Redis.lookup in *.
      destruct (m !! CacheService._make_key cache key) as [[v ex]|]; [|reflexivity].
      unfold live in *. cbn [e_exp] in *. destruct ex as [x|]; [|discriminate].
      destruct (now <? x) eqn:E1; [discriminate|]. apply Z.ltb_ge in E1.
      destruct (t <? x) eqn:E2; [apply Z.ltb_lt in E2; lia|reflexivity].
    + intros k Hk. reflexivity.
Qed.

(** The instance of X14 at the block entry of 1.1.1.1. *)
Lemma delete_removes_the_key_witness :
  snd (CacheService.delete
         (fst (block_ip fresh_cache 0 "1.1.1.1" 3600 "Rate limit exceeded"))
         5 "blocked_ip:1.1.1.1") = true /\
  snd (CacheService.get
         (fst (CacheService.delete
                 (fst (block_ip fresh_cache 0 "1.1.1.1" 3600 "Rate limit exceeded"))
                 5 "blocked_ip:1.1.1.1"))
         6 "blocked_ip:1.1.1.1") = None /\
  forall k,
    k <> CacheService._make_key
           (fst (block_ip fresh_cache 0 "1.1.1.1" 3600 "Rate limit exceeded"))
           "blocked_ip:1.1.1.1" ->
    keyspace_of
      (fst (CacheService.delete
              (fst (block_ip fresh_cache 0 "1.1.1.1" 3600 "Rate limit exceeded"))
              5 "blocked_ip:1.1.1.1")) !! k
    = keyspace_of (fst (block_ip fresh_cache 0 "1.1.1.1" 3600 "Rate limit exceeded"))
        !! k.
Proof.
  apply (delete_removes_the_key
           (fst (block_ip fresh_cache 0 "1.1.1.1" 3600 "Rate limit exceeded"))
           (keyspace_of (fst (block_ip fresh_cache 0 "1.1.1.1" 3600
                                "Rate limit exceeded")))
           5 "blocked_ip:1.1.1.1" 6).
  - reflexivity.
  - lia.
Defined.



(** ** Statistics *)

Section Statistics.

Lemma get_keeps_keyspace cache t key :
  keyspace_of (fst (CacheService.get cache t key)) = keyspace_of cache /\
  CacheService.key_prefix (fst (CacheService.get cache t key))
  = CacheService.key_prefix cache.
Proof.
  unfold CacheService.get, keyspace_of at 2.
  destruct (CacheService.redis_client cache) as [c|] eqn:Ec.
  - unfold Redis.get, round_trip. destruct c as [m [[|n]|]]; split; reflexivity.
  - unfold keyspace_of. cbn [fst]. rewrite Ec. split; reflexivity.
Qed.

Lemma stats_entry_keeps_keyspace cache req now identifier lt :
  keyspace_of (fst (stats_entry cache req now identifier lt)) = keyspace_of cache.
Proof.
  unfold stats_entry.
  destruct (_get_rate_limit_key now identifier lt) as [key|e]; [|reflexivity].
  pose proof (get_keeps_keyspace cache now key) as [H _].
  destruct (CacheService.get cache now key) as [cache1 v]. exact H.
Qed.

Lemma stats_loop_keeps_keyspace req now identifier lts :
  forall cache,
    keyspace_of (fst (stats_loop cache req now identifier lts)) = keyspace_of cache.
Proof.
  induction lts as [|lt rest IH]; intros cache; [reflexivity|].
  cbn [stats_loop].
  pose proof (stats_entry_keeps_keyspace cache req now identifier lt) as H1.
  destruct (stats_entry cache req now identifier lt) as [cache1 [entry|e]];
    cbn [fst] in H1; [|exact H1].
  specialize (IH cache1).
  destruct (stats_loop cache1 req now identifier rest) as [cache2 r].
  cbn [fst] in *. congruence.
Qed.

(** The entry of one category on a store that is up. *)
Lemma stats_entry_up cache m req now identifier lt cfg v N :
  healthy cache m ->
  dict_get default_limits lt = Some cfg ->
  adjusted_limit_of cfg (_get_user_role_multiplier req) = Ok N ->
  count_of now m
    (CacheService._make_key cache
       ("rate_limit:" +:+ lt +:+ ":" +:+ identifier +:+ ":"
        +:+ str_of_int (Z.quot now (window cfg)))) = Some v ->
  stats_entry cache req now identifier lt
  = (CacheService.with_client cache (Client m None),
     Ok [ ("current_count", AInt v);
          ("limit", AInt N);
          ("remaining", AInt (Z.max 0 (N - v)));
          ("window", AInt (window cfg)) ]).
Proof.
  intros Hh Hcfg HN Hcount. unfold stats_entry.
  rewrite (rate_limit_key_builtin now identifier lt cfg Hcfg).
  rewrite (get_up cache m now _ Hh). unfold dict_index. rewrite Hcfg. cbn [bind].
  rewrite HN. cbn [bind].
  unfold count_of in Hcount.
  destruct (Redis.lookup now m _) as [[[n|d] ex]|]; try discriminate;
    injection Hcount as <-; reflexivity.
Qed.

Lemma stats_loop_up req now identifier (cnt lim : string -> Z) lts :
  forall cache m,
    healthy cache m ->
    (forall lt, In lt lts -> exists cfg,
        dict_get default_limits lt = Some cfg /\
        adjusted_limit_of cfg (_get_user_role_multiplier req) = Ok (lim lt) /\
        count_of now m
          (CacheService._make_key cache
             ("rate_limit:" +:+ lt +:+ ":" +:+ identifier +:+ ":"
              +:+ str_of_int (Z.quot now (window cfg)))) = Some (cnt lt)) ->
    exists limits,
      snd (stats_loop cache req now identifier lts) = Ok limits /\
      forall lt cfg, In lt lts -> dict_get default_limits lt = Some cfg ->
        dict_get limits lt
        = Some [ ("current_count", AInt (cnt lt));
                 ("limit", AInt (lim lt));
                 ("remaining", AInt (Z.max 0 (lim lt - cnt lt)));
                 ("window", AInt (window cfg)) ].
Proof.
  induction lts as [|lt0 rest IH]; intros cache m Hh Hall.
  - exists []. split; [reflexivity|]. intros lt cfg [].
  - destruct (Hall lt0 (or_introl eq_refl)) as [cfg0 [Hcfg0 [HN0 Hc0]]].
    cbn [stats_loop].
    rewrite (stats_entry_up cache m req now identifier lt0 cfg0 (cnt lt0) (lim lt0)
               Hh Hcfg0 HN0 Hc0).
    destruct (IH (CacheService.with_client cache (Client m None)) m eq_refl)
      as [limits [Hl Hget]].
    { intros lt Hin. apply Hall. right. exact Hin. }
    destruct (stats_loop (CacheService.with_client cache (Client m None)) req now
                identifier rest) as [cache2 r].
    cbn [snd] in Hl. subst r. cbn [snd bind].
    eexists. split; [reflexivity|].
    intros lt cfg Hin Hcfg. cbn [dict_get].
    destruct (String.eqb_spec lt0 lt) as [->|Hne].
    + rewrite Hcfg0 in Hcfg. injection Hcfg as <-. reflexivity.
    + destruct Hin as [Heq|Hin]; [contradiction|]. apply Hget; assumption.
Qed.

End Statistics.

(** X16.  [get_rate_limit_stats] only reads: whatever the store holds and
    whatever the connection does, the keyspace after the call is the
    keyspace before it. *)
Theorem stats_are_read_only :
  forall (cache : CacheService.t) (req : request) (now : Z)
         (identifier : option string),
    keyspace_of (fst (get_rate_limit_stats cache req now identifier))
    = keyspace_of cache.
Proof.
  intros cache req now identifier. unfold get_rate_limit_stats.
  destruct (CacheService.is_available cache); cbn [negb]; [|reflexivity].
  match goal with
  | |- context [stats_loop cache req now ?i ?l] =>
      pose proof (stats_loop_keeps_keyspace req now i l cache) as H;
      destruct (stats_loop cache req now i l) as [cache1 r]
  end.
  exact H.
Qed.

(** X17.  Statistics agree with the decision just made: on a store that is
    up, where the caller's counters of the five categories are counters or
    do not exist, after a quota check for a built-in category (whose counter
    is below the largest integer of the server) the statistics of the same
    caller at the same clock reading report, for that category, the count
    the check reached and the same limit and [remaining] as the metadata of
    the check. *)
Theorem stats_agree_with_the_check :
  forall (cache : CacheService.t) (m : keyspace) (req : request) (now : Z)
         (lt : string) (cfg : limit_config) (cnt : string -> Z),
    healthy cache m ->
    dict_get default_limits lt = Some cfg ->
    (forall lt' cfg', dict_get default_limits lt' = Some cfg' ->
       count_of now m (counter_key cache req lt' (Z.quot now (window cfg')))
       = Some (cnt lt')) ->
    int64_min <= cnt lt < int64_max ->
    exists (N : Z) (info : dict) (kind : string) (limits : list (string * dict))
           (entry : dict),
      adjusted_limit_of cfg (_get_user_role_multiplier req) = Ok N /\
      snd (check_rate_limit cache req now lt None) = Ok (cnt lt + 1 <=? N, info) /\
      snd (get_rate_limit_stats (fst (check_rate_limit cache req now lt None)) req now None)
      = Stats kind limits /\
      dict_get limits lt = Some entry /\
      dict_get entry "current_count" = Some (AInt (cnt lt + 1)) /\
      dict_get entry "limit" = dict_get info "limit" /\
      dict_get entry "remaining" = dict_get info "remaining".
Proof.
  intros cache m req now lt cfg cnt Hh Hcfg Hcnt Hrange.
  destruct (default_limits_positive _ _ Hcfg) as [_ Hw].
  destruct (adjusted_limit_builtin lt cfg req Hcfg) as [N [HN _]].
  set (key := counter_key cache req lt (Z.quot now (window cfg))).
  pose proof (Hcnt lt cfg Hcfg) as Hc. fold key in Hc.
  (* the check *)
  assert (Hcheck : exists exp,
             check_rate_limit cache req now lt None
             = (CacheService.with_client cache
                  (Client (<[key := Entry (RInt (cnt lt + 1)) exp]> m) None),
                Ok (cnt lt + 1 <=? N,
                    [ ("limit", AInt N);
                      ("remaining", AInt (Z.max 0 (N - (cnt lt + 1))));
                      ("reset_time",
                       AInt (Z.quot now (window cfg) * window cfg + window cfg));
                      ("retry_after",
                       AInt (if negb (cnt lt + 1 <=? N)
                             then Z.quot now (window cfg) * window cfg + window cfg - now
                             else 0));
                      ("window", AInt (window cfg));
                      ("identifier",
                       AStr (first_or "" (split ":" (_get_client_identifier req)))) ])) /\
             live now (Entry (RInt (cnt lt + 1)) exp) = true).
  { unfold count_of in Hc.
    destruct (Redis.lookup now m key) as [[[v|d] ex]|] eqn:El; try discriminate.
    - injection Hc as Hv. exists ex. split.
      + rewrite (check_rate_limit_counted req lt cfg N Hcfg HN cache m now v ex Hh
                   ltac:(lia) El).
        rewrite Hv. reflexivity.
      + apply lookup_live in El. exact (proj2 El).
    - injection Hc as Hv. exists (Some (now + window cfg)). split.
      + rewrite (check_rate_limit_fresh req lt cfg N Hcfg HN cache m now Hh El).
        rewrite <- Hv. reflexivity.
      + unfold live. cbn [e_exp]. apply Z.ltb_lt. lia. }
  destruct Hcheck as [exp [Hcheck Hlive]]. rewrite Hcheck. cbn [fst snd].
  set (m1 := <[key := Entry (RInt (cnt lt + 1)) exp]> m).
  set (cache1 := CacheService.with_client cache (Client m1 None)).
  set (cnt1 := fun l => if String.eqb l lt then cnt lt + 1 else cnt l).
  set (lim := fun l => match dict_get default_limits l with
                       | Some cfg' =>
                           match adjusted_limit_of cfg' (_get_user_role_multiplier req) with
                           | Ok n => n
                           | Raise _ => 0
                           end
                       | None => 0
                       end).
  assert (Hlim : lim lt = N).
  { unfold lim. rewrite Hcfg, HN. reflexivity. }
  destruct (stats_loop_up req now (_get_client_identifier req) cnt1 lim
              (map fst default_limits) cache1 m1 eq_refl) as [limits [Hloop Hget]].
  { intros lt' Hin.
    assert (Hex : exists cfg', dict_get default_limits lt' = Some cfg').
    { revert Hin. unfold default_limits. cbn [map fst In].
      intros [<-|[<-|[<-|[<-|[<-|[]]]]]]; eexists; reflexivity. }
    destruct Hex as [cfg' Hcfg']. exists cfg'. split; [exact Hcfg'|]. split.
    { destruct (adjusted_limit_builtin lt' cfg' req Hcfg') as [N' [HN' _]].
      unfold lim. rewrite Hcfg', HN'. reflexivity. }
    change (CacheService._make_key cache1
              ("rate_limit:" +:+ lt' +:+ ":" +:+ _get_client_identifier req +:+ ":"
               +:+ str_of_int (Z.quot now (window cfg'))))
      with (counter_key cache req lt' (Z.quot now (window cfg'))).
    unfold cnt1. destruct (String.eqb_spec lt' lt) as [->|Hne].
    - rewrite Hcfg in Hcfg'. injection Hcfg' as <-. fold key.
      unfold count_of, m1. rewrite (lookup_insert_live now m key _ Hlive). reflexivity.
    - unfold m1. rewrite (count_of_same now m); [apply Hcnt; exact Hcfg'|].
      apply lookup_insert_ne. unfold key. intros Heq.
      unfold counter_key, CacheService._make_key in Heq. apply append_inj_l in Heq.
      pose proof (rate_limit_key_builtin now (_get_client_identifier req) lt cfg Hcfg)
        as K1.
      pose proof (rate_limit_key_builtin now (_get_client_identifier req) lt' cfg' Hcfg')
        as K2.
      rewrite Heq in K1.
      destruct (rate_limit_key_inj now _ _ _ _ _ K1 K2) as [Hlt _]. congruence. }
  unfold get_rate_limit_stats.
  change (CacheService.is_available cache1) with true. cbn [negb truthy].
  destruct (stats_loop cache1 req now (_get_client_identifier req)
              (map fst default_limits)) as [cache2 r].
  cbn [snd] in Hloop. subst r.
  exists N. eexists _, _, limits, _. split; [exact HN|].
  split; [reflexivity|]. split; [reflexivity|].
  assert (Hin : In lt (map fst default_limits)).
  { destruct (builtin_name _ _ Hcfg) as [E|[E|[E|[E|E]]]]; rewrite E;
      unfold default_limits; cbn [map fst In]; auto 10. }
  rewrite (Hget lt cfg Hin Hcfg). unfold cnt1. rewrite String.eqb_refl, Hlim.
  split; [reflexivity|]. repeat split; reflexivity.
Qed.

(** The instance of X17 at the first ['upload'] request of 9.9.9.9 on an
    empty store. *)
Lemma stats_agree_with_the_check_witness :
  exists (N : Z) (info : dict) (kind : string) (limits : list (string * dict))
         (entry : dict),
    adjusted_limit_of (LimitConfig 10 300)
      (_get_user_role_multiplier (request_from "9.9.9.9" (Some no_identity))) = Ok N /\
    snd (check_rate_limit fresh_cache (request_from "9.9.9.9" (Some no_identity)) 0
           "upload" None)
    = Ok (0 + 1 <=? N, info) /\
    snd (get_rate_limit_stats
           (fst (check_rate_limit fresh_cache (request_from "9.9.9.9" (Some no_identity))
                   0 "upload" None))
           (request_from "9.9.9.9" (Some no_identity)) 0 None)
    = Stats kind limits /\
    dict_get limits "upload" = Some entry /\
    dict_get entry "current_count" = Some (AInt (0 + 1)) /\
    dict_get entry "limit" = dict_get info "limit" /\
    dict_get entry "remaining" = dict_get info "remaining".
Proof.
  apply (stats_agree_with_the_check fresh_cache ∅
           (request_from "9.9.9.9" (Some no_identity)) 0 "upload" (LimitConfig 10 300)
           (fun _ => 0)).
  - reflexivity.
  - reflexivity.
  - intros lt' cfg' _. reflexivity.
  - unfold int64_min, int64_max. lia.
Defined.

(** ** Stored custom limits *)

Section StoredLimits.

(** On a connection that stays up, what an increment returns depends on
    what its key holds, and on nothing else. *)
Lemma increment_try_result now m k amount ttl :
  snd (CacheService.increment_try now (Client m None) k amount ttl)
  = if negb (is_int64 amount) then Raise RedisError
    else
      match Redis.lookup now m k with
      | None => Ok amount
      | Some (Entry (RInt v) _) =>
          if is_int64 v && is_int64 (v + amount) then Ok (v + amount)
          else Raise RedisError
      | Some (Entry (RBlob _) _) => Raise RedisError
      end.
Proof.
  unfold CacheService.increment_try, Redis.exists_, execute, round_trip.
  cbn [db fail_after].
  destruct (is_int64 amount) eqn:Ea;
    destruct (CacheService.ttl_truthy ttl) as [n|]; cbn -[is_int64 Redis.lookup];
    destruct (Redis.lookup now m k) as [[[v|p] ex]|] eqn:El;
    cbn -[is_int64 Redis.lookup];
    rewrite ?El, ?Ea; cbn -[is_int64 Redis.lookup]; rewrite ?El;
    try reflexivity;
    try (destruct (is_int64 v && is_int64 (v + amount)); reflexivity).
  rewrite (lookup_insert_live now m k (Entry (RInt amount) None) eq_refl).
  destruct (n <=? 0); reflexivity.
Qed.

Lemma check_rate_limit_reads_its_counter cache1 cache2 m1 m2 req now lt custom_limit :
  healthy cache1 m1 -> healthy cache2 m2 ->
  CacheService.key_prefix cache1 = CacheService.key_prefix cache2 ->
  (forall key, _get_rate_limit_key now (_get_client_identifier req) lt = Ok key ->
     Redis.lookup now m1 (CacheService._make_key cache1 key)
     = Redis.lookup now m2 (CacheService._make_key cache2 key)) ->
  snd (check_rate_limit cache1 req now lt custom_limit)
  = snd (check_rate_limit cache2 req now lt custom_limit).
Proof.
  intros H1 H2 Hp Hsame. unfold healthy in H1, H2.
  unfold check_rate_limit, CacheService.is_available. rewrite H1, H2. cbn [negb].
  unfold check_rate_limit_try.
  destruct (adjusted_limit_of (limit_config_for lt custom_limit)
              (_get_user_role_multiplier req)) as [N|e0];
    [|reflexivity].
  destruct (_get_rate_limit_key now (_get_client_identifier req) lt) as [key|e] eqn:Ek;
    [|reflexivity].
  specialize (Hsame key eq_refl).
  unfold CacheService.increment. rewrite H1, H2.
  pose proof (increment_try_result now m1 (CacheService._make_key cache1 key) 1
                (Some (window (limit_config_for lt custom_limit)))) as R1.
  pose proof (increment_try_result now m2 (CacheService._make_key cache2 key) 1
                (Some (window (limit_config_for lt custom_limit)))) as R2.
  rewrite Hsame in R1. rewrite <- R2 in R1.
  destruct (CacheService.increment_try now (Client m1 None) _ 1 _) as [c1 r1].
  destruct (CacheService.increment_try now (Client m2 None) _ 1 _) as [c2 r2].
  cbn [snd] in *. subst r1. reflexivity.
Qed.

End StoredLimits.

(** X18.  A custom limit stored through [RateLimitConfig.set_custom_limit]
    is never consulted by the quota check: on a store that is up, the
    decision and the metadata of [check_rate_limit] are the same with and
    without the stored limit, for every endpoint name, category and request. *)
Theorem stored_custom_limit_is_not_consulted :
  forall (cache : CacheService.t) (m : keyspace) (t0 : Z) (endpoint : string)
         (requests window duration : Z) (req : request) (now : Z) (lt : string)
         (custom_limit : option limit_config),
    healthy cache m ->
    snd (check_rate_limit
           (fst (RateLimitConfig.set_custom_limit cache t0 endpoint requests window
                   duration))
           req now lt custom_limit)
    = snd (check_rate_limit cache req now lt custom_limit).
Proof.
  intros cache m t0 endpoint requests window duration req now lt custom_limit Hh.
  assert (Hstored : exists m',
             healthy (fst (RateLimitConfig.set_custom_limit cache t0 endpoint requests
                             window duration)) m' /\
             CacheService.key_prefix
               (fst (RateLimitConfig.set_custom_limit cache t0 endpoint requests window
                       duration))
             = CacheService.key_prefix cache /\
             forall k, k <> CacheService._make_key cache ("custom_limit:" +:+ endpoint) ->
                       m' !! k = m !! k).
  { unfold healthy in Hh.
    unfold RateLimitConfig.set_custom_limit, CacheService.is_available,
      CacheService.set, setex, round_trip.
    rewrite !Hh. cbn [negb fail_after db].
    destruct (CacheService.ttl_or_default cache (Some duration) <=? 0).
    - exists m. repeat split.
    - eexists. split; [reflexivity|]. split; [reflexivity|].
      intros k Hk. apply lookup_insert_ne. congruence. }
  destruct Hstored as [m' [Hh' [Hp' Hframe]]].
  apply (check_rate_limit_reads_its_counter _ cache m' m req now lt custom_limit
           Hh' Hh Hp').
  intros key Hkey. unfold CacheService._make_key. rewrite Hp'.
  unfold Redis.lookup. rewrite Hframe; [reflexivity|].
  unfold CacheService._make_key. intros Heq. apply append_inj_l in Heq.
  unfold _get_rate_limit_key in Hkey.
  destruct (dict_index default_limits lt) as [cfg|]; [|discriminate].
  cbn [bind] in Hkey. destruct (int_div now (RateLimiter.window cfg)); [|discriminate].
  cbn [bind] in Hkey. injection Hkey as <-. discriminate.
Qed.

(** The instance of X18 at a limit of one request an hour stored for
    ["api"]. *)
Lemma stored_custom_limit_is_not_consulted_witness :
  snd (check_rate_limit
         (fst (RateLimitConfig.set_custom_limit fresh_cache 0 "api" 1 3600 3600))
         (request_from "9.9.9.9" (Some no_identity)) 1 "api" None)
  = snd (check_rate_limit fresh_cache (request_from "9.9.9.9" (Some no_identity)) 1
           "api" None).
Proof.
  apply (stored_custom_limit_is_not_consulted fresh_cache ∅ 0 "api" 1 3600 3600
           (request_from "9.9.9.9" (Some no_identity)) 1 "api" None).
  reflexivity.
Defined.

(** ** Administrative reset *)

Section Reset.

Variable now : Z.

Lemma delete_keys_only_deletes ks :
  forall (m : keyspace) k e,
    fst (delete_keys now m ks) !! k = Some e -> m !! k = Some e.
Proof.
  induction ks as [|k0 rest IH]; intros m k e H; [exact H|].
  cbn [delete_keys] in H.
  destruct (Redis.lookup now m k0).
  - destruct (delete_keys now (delete k0 m) rest) as [m1 n] eqn:E.
    cbn [fst] in H. specialize (IH (delete k0 m) k e). rewrite E in IH.
    specialize (IH H). apply lookup_delete_Some in IH. tauto.
  - apply IH. exact H.
Qed.

Lemma lookup_none_stays (m m' : keyspace) t k :
  (forall e, m' !! k = Some e -> m !! k = Some e) ->
  Redis.lookup t m k = None -> Redis.lookup t m' k = None.
Proof.
  intros Hsub Hnone. unfold Redis.lookup in *.
  destruct (m' !! k) as [e|] eqn:E; [|reflexivity].
  rewrite (Hsub e eq_refl) in Hnone. exact Hnone.
Qed.

Lemma delete_keys_removes ks :
  forall (m : keyspace) k,
    In k ks -> Redis.lookup now (fst (delete_keys now m ks)) k = None.
Proof.
  induction ks as [|k0 rest IH]; intros m k Hin; [destruct Hin|].
  cbn [delete_keys].
  destruct (Redis.lookup now m k0) eqn:El.
  - pose proof (IH (delete k0 m) k) as IH1.
    pose proof (delete_keys_only_deletes rest (delete k0 m) k) as Hsub.
    destruct (delete_keys now (delete k0 m) rest) as [m1 n]. cbn [fst] in *.
    destruct Hin as [<-|Hin]; [|exact (IH1 Hin)].
    apply (lookup_none_stays (delete k0 m)); [exact Hsub|].
    unfold Redis.lookup. rewrite lookup_delete_eq. reflexivity.
  - destruct Hin as [<-|Hin]; [|exact (IH m k Hin)].
    apply (lookup_none_stays m); [|exact El].
    intros e. apply delete_keys_only_deletes.
Qed.

Lemma delete_only_deletes cache key :
  (forall k e,
      keyspace_of (fst (CacheService.delete cache now key)) !! k = Some e ->
      keyspace_of cache !! k = Some e) /\
  CacheService.key_prefix (fst (CacheService.delete cache now key))
  = CacheService.key_prefix cache.
Proof.
  unfold CacheService.delete, keyspace_of.
  destruct (CacheService.redis_client cache) as [c|] eqn:Ec;
    [|cbn [fst]; rewrite Ec; auto].
  unfold del, round_trip.
  destruct c as [m [[|fa]|]]; cbn [fail_after db]; try (cbn; auto; fail);
    pose proof (delete_keys_only_deletes [CacheService._make_key cache key] m) as Hsub;
    destruct (delete_keys now m [CacheService._make_key cache key]) as [m1 n];
    cbn in *; auto.
Qed.

Lemma delete_up cache m key :
  healthy cache m ->
  exists m',
    healthy (fst (CacheService.delete cache now key)) m' /\
    Redis.lookup now m' (CacheService._make_key cache key) = None.
Proof.
  intros Hh. unfold healthy in Hh. unfold CacheService.delete, del, round_trip.
  rewrite Hh. cbn [fail_after db].
  pose proof (delete_keys_removes [CacheService._make_key cache key] m
                (CacheService._make_key cache key) (or_introl eq_refl)) as Hrem.
  destruct (delete_keys now m [CacheService._make_key cache key]) as [m1 n].
  cbn [fst] in *. exists m1. split; [reflexivity|exact Hrem].
Qed.

Lemma lookup_none_later (m : keyspace) t k :
  now <= t -> Redis.lookup now m k = None -> Redis.lookup t m k = None.
Proof.
  intros Ht. unfold Redis.lookup. destruct (m !! k) as [[v ex]|]; [|reflexivity].
  unfold live. cbn [e_exp]. destruct ex as [x|]; [|discriminate].
  destruct (now <? x) eqn:E1; [discriminate|]. apply Z.ltb_ge in E1.
  destruct (t <? x) eqn:E2; [apply Z.ltb_lt in E2; lia|reflexivity].
Qed.

Variable glob : string -> string -> bool.

(** [KEYS] lists every key that exists and matches. *)
Lemma keys_complete (m : keyspace) pattern k e :
  Redis.lookup now m k = Some e -> glob pattern k = true ->
  In k (List.filter
          (fun k => match Redis.lookup now m k with
                    | Some _ => glob pattern k
                    | None => false
                    end)
          (map fst (map_to_list m))).
Proof.
  intros Hl Hg. apply filter_In. split.
  - apply lookup_live in Hl. destruct Hl as [Hm _].
    apply in_map_iff. exists (k, e). split; [reflexivity|].
    apply list_elem_of_In. apply elem_of_map_to_list. exact Hm.
  - rewrite Hl. exact Hg.
Qed.

(** A flush removes entries and does nothing else. *)
Lemma flush_pattern_only_deletes cache pattern :
  (forall k e,
      keyspace_of (fst (CacheService.flush_pattern glob cache now pattern)) !! k = Some e ->
      keyspace_of cache !! k = Some e) /\
  CacheService.key_prefix (fst (CacheService.flush_pattern glob cache now pattern))
  = CacheService.key_prefix cache /\
  CacheService.is_available (fst (CacheService.flush_pattern glob cache now pattern))
  = CacheService.is_available cache.
Proof.
  unfold CacheService.flush_pattern, CacheService.is_available, keyspace_of.
  destruct (CacheService.redis_client cache) as [c|] eqn:Ec;
    [|cbn [fst]; rewrite Ec; auto].
  unfold CacheService.flush_pattern_try, Redis.keys, del, round_trip.
  destruct c as [m [[|[|fa]]|]]; cbn [fail_after db]; try (cbn; auto; fail);
    match goal with
    | |- context [List.filter ?f ?l] => destruct (List.filter f l) as [|k0 ks] eqn:Ef
    end; cbn [fail_after db fst snd]; try (cbn; auto; fail);
    try (pose proof (delete_keys_only_deletes (k0 :: ks) m) as Hsub;
         destruct (delete_keys now m (k0 :: ks)) as [m1 n]; cbn in *; auto).
Qed.

(** On a store that is up, a flush leaves the connection up and no key that
    matches its pattern. *)
Lemma flush_pattern_up cache m pattern :
  healthy cache m ->
  exists m',
    healthy (fst (CacheService.flush_pattern glob cache now pattern)) m' /\
    forall k, glob (CacheService._make_key cache pattern) k = true ->
              Redis.lookup now m' k = None.
Proof.
  intros Hh. unfold healthy in Hh.
  unfold CacheService.flush_pattern, CacheService.flush_pattern_try, Redis.keys, del,
    round_trip.
  rewrite Hh. cbn [fail_after db].
  match goal with
  | |- context [List.filter ?f ?l] => destruct (List.filter f l) as [|k0 ks] eqn:Ef
  end.
  - exists m. split; [reflexivity|]. intros k Hg.
    destruct (Redis.lookup now m k) as [e|] eqn:El; [|reflexivity].
    pose proof (keys_complete m _ k e El Hg) as Hin. rewrite Ef in Hin. destruct Hin.
  - pose proof (delete_keys_removes (k0 :: ks) m) as Hrem.
    pose proof (delete_keys_only_deletes (k0 :: ks) m) as Hsub.
    destruct (delete_keys now m (k0 :: ks)) as [m1 n]. cbn [fst] in *.
    exists m1. split; [reflexivity|]. intros k Hg.
    destruct (Redis.lookup now m k) as [e|] eqn:El.
    + apply Hrem. rewrite <- Ef. exact (keys_complete m _ k e El Hg).
    + apply (lookup_none_stays m); [apply Hsub|exact El].
Qed.

Lemma reset_loop_only_deletes identifier lts :
  forall cache,
    (forall k e,
        keyspace_of (reset_loop glob cache now identifier lts) !! k = Some e ->
        keyspace_of cache !! k = Some e) /\
    CacheService.key_prefix (reset_loop glob cache now identifier lts)
    = CacheService.key_prefix cache /\
    CacheService.is_available (reset_loop glob cache now identifier lts)
    = CacheService.is_available cache.
Proof.
  induction lts as [|lt rest IH]; intros cache; [auto|].
  cbn [reset_loop].
  destruct (flush_pattern_only_deletes cache
              ("rate_limit:" +:+ lt +:+ ":" +:+ identifier +:+ ":*")) as [H1 [P1 A1]].
  destruct (CacheService.flush_pattern glob cache now
              ("rate_limit:" +:+ lt +:+ ":" +:+ identifier +:+ ":*")) as [cache1 n].
  cbn [fst] in *. destruct (IH cache1) as [H2 [P2 A2]].
  split; [|split; congruence]. intros k e H. apply H1, H2, H.
Qed.

Lemma reset_loop_up identifier lts :
  forall cache m,
    healthy cache m ->
    exists m',
      healthy (reset_loop glob cache now identifier lts) m' /\
      forall lt k, In lt lts ->
        glob (CacheService._make_key cache
                ("rate_limit:" +:+ lt +:+ ":" +:+ identifier +:+ ":*")) k = true ->
        Redis.lookup now m' k = None.
Proof.
  induction lts as [|lt0 rest IH]; intros cache m Hh.
  - exists m. split; [exact Hh|]. intros lt k [].
  - cbn [reset_loop].
    destruct (flush_pattern_up cache m
                ("rate_limit:" +:+ lt0 +:+ ":" +:+ identifier +:+ ":*") Hh)
      as [m1 [Hh1 Hgone1]].
    destruct (flush_pattern_only_deletes cache
                ("rate_limit:" +:+ lt0 +:+ ":" +:+ identifier +:+ ":*")) as [_ [P1 _]].
    destruct (CacheService.flush_pattern glob cache now
                ("rate_limit:" +:+ lt0 +:+ ":" +:+ identifier +:+ ":*")) as [cache1 n].
    cbn [fst] in *.
    destruct (IH cache1 m1 Hh1) as [m' [Hh' Hgone']].
    destruct (reset_loop_only_deletes identifier rest cache1) as [Hsub _].
    exists m'. split; [exact Hh'|]. intros lt k [<-|Hin] Hg.
    + apply (lookup_none_stays m1); [|exact (Hgone1 k Hg)].
      intros e He. specialize (Hsub k e). unfold keyspace_of in Hsub.
      unfold healthy in Hh', Hh1. rewrite Hh', Hh1 in Hsub. exact (Hsub He).
    + apply (Hgone' lt k Hin). unfold CacheService._make_key in *.
      rewrite P1. exact Hg.
Qed.

End Reset.

(** X19.  [reset_rate_limits] for an identifier that contains a colon lifts
    the block of the text after its last colon: on a store that is up the
    call answers [True], and [is_ip_blocked] answers [False] for that
    address from then on, whatever the matcher of [KEYS] does.  (For
    ["ip:<address>"] with a colon-free address that is the address.) *)
Theorem reset_lifts_the_block :
  forall (glob : string -> string -> bool) (cache : CacheService.t) (m : keyspace)
         (req : request) (now : Z) (identifier : string) (t : Z),
    healthy cache m ->
    identifier <> "" ->
    contains ":" identifier = true ->
    last_or "" (split ":" identifier) <> "" ->
    now <= t ->
    snd (reset_rate_limits glob cache req now (Some identifier)) = true /\
    snd (is_ip_blocked (fst (reset_rate_limits glob cache req now (Some identifier)))
           req t (Some (last_or "" (split ":" identifier))))
    = false.
Proof.
  intros glob cache m req now identifier t Hh Hid Hcolon Hlast Ht.
  unfold reset_rate_limits, CacheService.is_available.
  pose proof Hh as Hh0. unfold healthy in Hh0. rewrite Hh0. cbn [negb].
  assert (Htruthy : truthy (Some identifier) = Some identifier).
  { destruct identifier; [contradiction|reflexivity]. }
  rewrite Htruthy, Hcolon.
  destruct (reset_loop_up now glob identifier (map fst default_limits) cache m Hh)
    as [m1 [Hh1 _]].
  destruct (reset_loop_only_deletes now glob identifier (map fst default_limits) cache)
    as [_ [P1 _]].
  set (cache1 := reset_loop glob cache now identifier (map fst default_limits)) in *.
  set (A := last_or "" (split ":" identifier)) in *.
  destruct (delete_up now cache1 m1 ("blocked_ip:" +:+ A) Hh1) as [m2 [Hh2 Hgone]].
  destruct (delete_only_deletes now cache1 ("blocked_ip:" +:+ A)) as [_ P2].
  destruct (CacheService.delete cache1 now ("blocked_ip:" +:+ A)) as [cache2 b].
  cbn [fst snd] in *. split; [reflexivity|].
  unfold is_ip_blocked, CacheService.is_available, CacheService.exists_,
    Redis.exists_, round_trip, ip_or_client_ip.
  unfold healthy in Hh2. rewrite !Hh2. cbn [negb fail_after db snd].
  assert (HtruthyA : truthy (Some A) = Some A).
  { destruct A; [contradiction|reflexivity]. }
  rewrite HtruthyA.
  assert (Hkey : CacheService._make_key cache2 ("blocked_ip:" +:+ A)
                 = CacheService._make_key cache1 ("blocked_ip:" +:+ A)).
  { unfold CacheService._make_key. rewrite P2. reflexivity. }
  rewrite Hkey. rewrite (lookup_none_later now m2 t _ Ht Hgone). reflexivity.
Qed.

(** The instance of X19 at the identifier ["ip:1.1.1.1"] of a blocked
    address. *)
Lemma reset_lifts_the_block_witness :
  snd (reset_rate_limits star_suffix_match
         (fst (block_ip fresh_cache 0 "1.1.1.1" 3600 "Rate limit exceeded"))
         (request_from "9.9.9.9" None) 5 (Some "ip:1.1.1.1")) = true /\
  snd (is_ip_blocked
         (fst (reset_rate_limits star_suffix_match
                 (fst (block_ip fresh_cache 0 "1.1.1.1" 3600 "Rate limit exceeded"))
                 (request_from "9.9.9.9" None) 5 (Some "ip:1.1.1.1")))
         (request_from "9.9.9.9" None) 6 (Some (last_or "" (split ":" "ip:1.1.1.1"))))
  = false.
Proof.
  apply (reset_lifts_the_block star_suffix_match
           (fst (block_ip fresh_cache 0 "1.1.1.1" 3600 "Rate limit exceeded"))
           (keyspace_of (fst (block_ip fresh_cache 0 "1.1.1.1" 3600
                                "Rate limit exceeded")))
           (request_from "9.9.9.9" None) 5 "ip:1.1.1.1" 6).
  - reflexivity.
  - discriminate.
  - reflexivity.
  - vm_compute. discriminate.
  - lia.
Defined.

(** X20.  [reset_rate_limits] never creates or changes an entry, and it
    answers [True] whenever the store is configured: every entry of the
    keyspace after the call was there, unchanged, before it, on every
    connection and for every matcher of [KEYS] (so the answer is [True] also
    when the connection raised and nothing was reset). *)
Theorem reset_only_deletes :
  forall (glob : string -> string -> bool) (cache : CacheService.t) (req : request)
         (now : Z) (identifier : option string),
    CacheService.is_available cache = true ->
    snd (reset_rate_limits glob cache req now identifier) = true /\
    forall k e,
      keyspace_of (fst (reset_rate_limits glob cache req now identifier)) !! k = Some e ->
      keyspace_of cache !! k = Some e.
Proof.
  intros glob cache req now identifier Hav.
  unfold reset_rate_limits. rewrite Hav. cbn [negb].
  set (id := match truthy identifier with
             | Some i => i
             | None => _get_client_identifier req
             end).
  destruct (reset_loop_only_deletes now glob id (map fst default_limits) cache)
    as [Hsub1 _].
  set (cache1 := reset_loop glob cache now id (map fst default_limits)) in *.
  destruct (contains ":" id).
  - destruct (delete_only_deletes now cache1
                ("blocked_ip:" +:+ last_or "" (split ":" id))) as [Hsub2 _].
    destruct (CacheService.delete cache1 now
                ("blocked_ip:" +:+ last_or "" (split ":" id))) as [cache2 b].
    cbn [fst snd] in *. split; [reflexivity|]. intros k e H. apply Hsub1, Hsub2, H.
  - cbn [fst snd]. split; [reflexivity|]. exact Hsub1.
Qed.

(** The instance of X20 at a connection that raises. *)
Lemma reset_only_deletes_witness :
  snd (reset_rate_limits star_suffix_match
         (CacheService.Make (Some (Client (keyspace_of four_failures) (Some 0%nat)))
            3600 "hospital_mgmt:")
         (request_from "1.1.1.1" None) 5 None) = true /\
  forall k e,
    keyspace_of
      (fst (reset_rate_limits star_suffix_match
              (CacheService.Make (Some (Client (keyspace_of four_failures) (Some 0%nat)))
                 3600 "hospital_mgmt:")
              (request_from "1.1.1.1" None) 5 None)) !! k = Some e ->
    keyspace_of
      (CacheService.Make (Some (Client (keyspace_of four_failures) (Some 0%nat)))
         3600 "hospital_mgmt:") !! k = Some e.
Proof.
  apply (reset_only_deletes star_suffix_match
           (CacheService.Make (Some (Client (keyspace_of four_failures) (Some 0%nat)))
              3600 "hospital_mgmt:")
           (request_from "1.1.1.1" None) 5 None).
  reflexivity.
Defined.

(** X21.  After [reset_rate_limits] for the caller, the caller starts
    afresh: on a store that is up, and provided the matcher of [KEYS]
    matches the caller's counter keys of a built-in category against the
    pattern built for it (its literal text, then [*]), the next quota check
    of the caller for that category is counted as request number 1. *)
Theorem reset_restarts_the_count :
  forall (glob : string -> string -> bool) (cache : CacheService.t) (m : keyspace)
         (req : request) (now t : Z) (lt : string) (cfg : limit_config),
    healthy cache m ->
    dict_get default_limits lt = Some cfg ->
    now <= t ->
    (forall b : Z,
        glob (CacheService._make_key cache
                ("rate_limit:" +:+ lt +:+ ":" +:+ _get_client_identifier req +:+ ":*"))
          (counter_key cache req lt b) = true) ->
    exists (N : Z) (info : dict),
      adjusted_limit_of cfg (_get_user_role_multiplier req) = Ok N /\
      snd (check_rate_limit (fst (reset_rate_limits glob cache req now None)) req t lt None)
      = Ok (1 <=? N, info) /\
      dict_get info "limit" = Some (AInt N) /\
      dict_get info "remaining" = Some (AInt (Z.max 0 (N - 1))).
Proof.
  intros glob cache m req now t lt cfg Hh Hcfg Ht Hglob.
  destruct (adjusted_limit_builtin lt cfg req Hcfg) as [N [HN _]].
  assert (Hreset : exists m',
             healthy (fst (reset_rate_limits glob cache req now None)) m' /\
             CacheService.key_prefix (fst (reset_rate_limits glob cache req now None))
             = CacheService.key_prefix cache /\
             forall b, Redis.lookup now m' (counter_key cache req lt b) = None).
  { unfold reset_rate_limits, CacheService.is_available.
    pose proof Hh as Hh0. unfold healthy in Hh0. rewrite Hh0. cbn [negb truthy].
    set (id := _get_client_identifier req) in *.
    destruct (reset_loop_up now glob id (map fst default_limits) cache m Hh)
      as [m1 [Hh1 Hgone]].
    destruct (reset_loop_only_deletes now glob id (map fst default_limits) cache)
      as [_ [P1 _]].
    set (cache1 := reset_loop glob cache now id (map fst default_limits)) in *.
    assert (Hin : In lt (map fst default_limits)).
    { destruct (builtin_name _ _ Hcfg) as [E|[E|[E|[E|E]]]]; rewrite E;
        unfold default_limits; cbn [map fst In]; auto 10. }
    assert (Hgone1 : forall b, Redis.lookup now m1 (counter_key cache req lt b) = None).
    { intros b. apply (Hgone lt _ Hin). apply Hglob. }
    destruct (contains ":" id).
    - destruct (delete_up now cache1 m1
                  ("blocked_ip:" +:+ last_or "" (split ":" id)) Hh1) as [m2 [Hh2 _]].
      destruct (delete_only_deletes now cache1
                  ("blocked_ip:" +:+ last_or "" (split ":" id))) as [Hsub P2].
      destruct (CacheService.delete cache1 now
                  ("blocked_ip:" +:+ last_or "" (split ":" id))) as [cache2 b0].
      cbn [fst] in *. exists m2. split; [exact Hh2|]. split; [congruence|].
      intros b. apply (lookup_none_stays m1); [|apply Hgone1].
      intros e He. specialize (Hsub (counter_key cache req lt b) e).
      unfold keyspace_of in Hsub. unfold healthy in Hh1, Hh2.
      rewrite Hh1, Hh2 in Hsub. exact (Hsub He).
    - cbn [fst]. exists m1. split; [exact Hh1|]. split; [exact P1|exact Hgone1]. }
  destruct Hreset as [m' [Hh' [Hp' Hgone]]].
  set (cache' := fst (reset_rate_limits glob cache req now None)) in *.
  assert (Hl : Redis.lookup t m' (counter_key cache' req lt (Z.quot t (window cfg)))
               = None).
  { unfold counter_key, CacheService._make_key. rewrite Hp'.
    apply (lookup_none_later now m' t _ Ht). apply Hgone. }
  rewrite (check_rate_limit_fresh req lt cfg N Hcfg HN cache' m' t Hh' Hl).
  exists N. eexists. split; [exact HN|]. split; [reflexivity|]. split; reflexivity.
Qed.

(** The instance of X21 at the emergency scenario: after four requests in
    the bucket, a reset at 20 and a request at 30. *)
Lemma reset_restarts_the_count_witness :
  exists (N : Z) (info : dict),
    adjusted_limit_of (LimitConfig 3 60)
      (_get_user_role_multiplier (request_from "9.9.9.9" (Some no_identity))) = Ok N /\
    snd (check_rate_limit
           (fst (reset_rate_limits star_suffix_match
                   (fst (check_rate_limit_run fresh_cache
                           (request_from "9.9.9.9" (Some no_identity)) "emergency" None
                           [0; 0; 0; 10]))
                   (request_from "9.9.9.9" (Some no_identity)) 20 None))
           (request_from "9.9.9.9" (Some no_identity)) 30 "emergency" None)
    = Ok (1 <=? N, info) /\
    dict_get info "limit" = Some (AInt N) /\
    dict_get info "remaining" = Some (AInt (Z.max 0 (N - 1))).
Proof.
  apply (reset_restarts_the_count star_suffix_match
           (fst (check_rate_limit_run fresh_cache
                   (request_from "9.9.9.9" (Some no_identity)) "emergency" None
                   [0; 0; 0; 10]))
           (keyspace_of
              (fst (check_rate_limit_run fresh_cache
                      (request_from "9.9.9.9" (Some no_identity)) "emergency" None
                      [0; 0; 0; 10])))
           (request_from "9.9.9.9" (Some no_identity)) 20 30 "emergency"
           (LimitConfig 3 60)).
  - vm_compute. reflexivity.
  - reflexivity.
  - lia.
  - intros b. vm_compute. reflexivity.
Defined.

(** ** Expiry set by hand, and statistics on a failing connection *)



Section StatisticsDown.

Lemma stats_loop_down req now identifier m lts :
  forall cache,
    CacheService.redis_client cache = Some (Client m (Some 0%nat)) ->
    (forall lt, In lt lts -> exists cfg, dict_get default_limits lt = Some cfg) ->
    exists limits,
      snd (stats_loop cache req now identifier lts) = Ok limits /\
      forall lt cfg N, In lt lts -> dict_get default_limits lt = Some cfg ->
        adjusted_limit_of cfg (_get_user_role_multiplier req) = Ok N ->
        dict_get limits lt
        = Some [ ("current_count", AInt 0);
                 ("limit", AInt N);
                 ("remaining", AInt (Z.max 0 (N - 0)));
                 ("window", AInt (window cfg)) ].
Proof.
  induction lts as [|lt0 rest IH]; intros cache Hc Hall.
  - exists []. split; [reflexivity|]. intros lt cfg N [].
  - destruct (Hall lt0 (or_introl eq_refl)) as [cfg0 Hcfg0].
    destruct (adjusted_limit_builtin lt0 cfg0 req Hcfg0) as [N0 [HN0 _]].
    cbn [stats_loop]. unfold stats_entry.
    rewrite (rate_limit_key_builtin now identifier lt0 cfg0 Hcfg0).
    unfold CacheService.get, Redis.get, round_trip. rewrite Hc. cbn [fail_after].
    unfold dict_index. rewrite Hcfg0. cbn [bind or_zero]. rewrite HN0. cbn [bind].
    destruct (IH (CacheService.with_client cache (Client m (Some 0%nat))) eq_refl)
      as [limits [Hl Hget]].
    { intros lt Hin. apply Hall. right. exact Hin. }
    destruct (stats_loop (CacheService.with_client cache (Client m (Some 0%nat))) req now
                identifier rest) as [cache2 r].
    cbn [snd] in Hl. subst r. cbn [snd bind].
    eexists. split; [reflexivity|].
    intros lt cfg N Hin Hcfg HN. cbn [dict_get].
    destruct (String.eqb_spec lt0 lt) as [->|Hne].
    + rewrite Hcfg0 in Hcfg. injection Hcfg as <-.
      assert (N = N0) by congruence. subst N. reflexivity.
    + destruct Hin as [Heq|Hin]; [contradiction|]. apply Hget; assumption.
Qed.

End StatisticsDown.

(** X23.  Reads that fail are reported as no usage: on a connection on which
    every round trip raises, [get_rate_limit_stats] still answers
    ['available': True], and for every built-in category it reports a count
    of 0 and the whole scaled budget as remaining, whatever the counters in
    the store are. *)
Theorem stats_on_failing_connection :
  forall (cache : CacheService.t) (m : keyspace) (req : request) (now : Z)
         (identifier : option string) (lt : string) (cfg : limit_config),
    CacheService.redis_client cache = Some (Client m (Some 0%nat)) ->
    dict_get default_limits lt = Some cfg ->
    exists (N : Z) (kind : string) (limits : list (string * dict)),
      adjusted_limit_of cfg (_get_user_role_multiplier req) = Ok N /\
      snd (get_rate_limit_stats cache req now identifier) = Stats kind limits /\
      dict_get limits lt
      = Some [ ("current_count", AInt 0);
               ("limit", AInt N);
               ("remaining", AInt (Z.max 0 (N - 0)));
               ("window", AInt (window cfg)) ].
Proof.
  intros cache m req now identifier lt cfg Hc Hcfg.
  destruct (adjusted_limit_builtin lt cfg req Hcfg) as [N [HN _]].
  unfold get_rate_limit_stats, CacheService.is_available. rewrite Hc. cbn [negb].
  set (id := match truthy identifier with
             | Some i => i
             | None => _get_client_identifier req
             end).
  destruct (stats_loop_down req now id m (map fst default_limits) cache Hc)
    as [limits [Hloop Hget]].
  { unfold default_limits. cbn [map fst In].
    intros lt' [<-|[<-|[<-|[<-|[<-|[]]]]]]; eexists; reflexivity. }
  destruct (stats_loop cache req now id (map fst default_limits)) as [cache1 r].
  cbn [snd] in Hloop. subst r.
  exists N. eexists _, limits. split; [exact HN|]. split; [reflexivity|].
  apply Hget; [|exact Hcfg|exact HN].
  destruct (builtin_name _ _ Hcfg) as [E|[E|[E|[E|E]]]]; rewrite E;
    unfold default_limits; cbn [map fst In]; auto 10.
Qed.

(** The instance of X23 at a caller that has used up its emergency budget
    in the store. *)
Lemma stats_on_failing_connection_witness :
  exists (N : Z) (kind : string) (limits : list (string * dict)),
    adjusted_limit_of (LimitConfig 3 60)
      (_get_user_role_multiplier (request_from "9.9.9.9" (Some no_identity))) = Ok N /\
    snd (get_rate_limit_stats
           (CacheService.Make
              (Some (Client
                       (keyspace_of
                          (fst (check_rate_limit_run fresh_cache
                                  (request_from "9.9.9.9" (Some no_identity))
                                  "emergency" None [0; 0; 0; 10])))
                       (Some 0%nat)))
              3600 "hospital_mgmt:")
           (request_from "9.9.9.9" (Some no_identity)) 20 None)
    = Stats kind limits /\
    dict_get limits "emergency"
    = Some [ ("current_count", AInt 0);
             ("limit", AInt N);
             ("remaining", AInt (Z.max 0 (N - 0)));
             ("window", AInt (window (LimitConfig 3 60))) ].
Proof.
  apply (stats_on_failing_connection
           (CacheService.Make
              (Some (Client
                       (keyspace_of
                          (fst (check_rate_limit_run fresh_cache
                                  (request_from "9.9.9.9" (Some no_identity))
                                  "emergency" None [0; 0; 0; 10])))
                       (Some 0%nat)))
              3600 "hospital_mgmt:")
           (keyspace_of
              (fst (check_rate_limit_run fresh_cache
                      (request_from "9.9.9.9" (Some no_identity))
                      "emergency" None [0; 0; 0; 10])))
           (request_from "9.9.9.9" (Some no_identity)) 20 None "emergency"
           (LimitConfig 3 60)).
  - reflexivity.
  - reflexivity.
Defined.


